(** * url_to_markdown: URL canonicalization, sitemap reading and crawling

    A shallow embedding of [src/url_to_markdown.py]: the URL parser the
    program relies on ([urllib.parse.urlparse]), [WebCrawler._normalize_url],
    [WebCrawler._is_valid_url], [WebsiteContentExtractor.parse_sitemap]
    over a model of [xml.etree.ElementTree], [SitemapFinder._process_sitemap_index],
    the crawl loop [WebCrawler.crawl] and the branch structure of
    [WebsiteContentExtractor.process_website]. *)

From Stdlib Require Import String Ascii List Bool Arith Lia ZArith DecimalString DecimalNat.
From Stdlib Require Import Wellfounded Relations.
Import ListNotations.
Open Scope string_scope.

(* ------------------------------------------------------------------ *)
(** ** String helpers (Python [str] methods used by the program) *)

Module Str.

Definition nl : ascii := ascii_of_nat 10.
Definition cr : ascii := ascii_of_nat 13.
Definition tab : ascii := ascii_of_nat 9.

(** [c in s] *)
Fixpoint has (c : ascii) (s : string) : bool :=
  match s with
  | EmptyString => false
  | String d r => Ascii.eqb c d || has c r
  end.

(** [s.find(c)]: index of the first occurrence. *)
Fixpoint find (c : ascii) (s : string) : option nat :=
  match s with
  | EmptyString => None
  | String d r => if Ascii.eqb c d then Some 0 else option_map S (find c r)
  end.

(** [s.find(c, start)] *)
Definition find_from (c : ascii) (s : string) (start : nat) : option nat :=
  option_map (fun i => start + i) (find c (substring start (String.length s - start) s)).

(** [s.rfind(c)] *)
Fixpoint rfind (c : ascii) (s : string) : option nat :=
  match s with
  | EmptyString => None
  | String d r =>
      match rfind c r with
      | Some i => Some (S i)
      | None => if Ascii.eqb c d then Some 0 else None
      end
  end.

(** [s[n:]] and [s[:n]] *)
Definition drop (n : nat) (s : string) : string := substring n (String.length s - n) s.
Definition take (n : nat) (s : string) : string := substring 0 n s.

(** [s.split(c, 1)] when [c in s]: the part before and after the first [c]. *)
Definition split1 (c : ascii) (s : string) : string * string :=
  match find c s with
  | Some i => (take i s, drop (S i) s)
  | None => (s, EmptyString)
  end.

(** [s.rstrip(c)] *)
Fixpoint rstrip (c : ascii) (s : string) : string :=
  match s with
  | EmptyString => EmptyString
  | String d r =>
      match rstrip c r with
      | EmptyString => if Ascii.eqb c d then EmptyString else String d EmptyString
      | r' => String d r'
      end
  end.

Definition slash : ascii := "/"%char.
Definition dquote : ascii := ascii_of_nat 34.

(** [_WHATWG_C0_CONTROL_OR_SPACE]: code points 0 to 32. *)
Definition is_c0_or_space (c : ascii) : bool := Nat.leb (nat_of_ascii c) 32.

(** [s.lstrip(_WHATWG_C0_CONTROL_OR_SPACE)] *)
Fixpoint lstrip_c0 (s : string) : string :=
  match s with
  | EmptyString => EmptyString
  | String d r => if is_c0_or_space d then lstrip_c0 r else s
  end.

(** [s.replace(c, "")] *)
Fixpoint remove (c : ascii) (s : string) : string :=
  match s with
  | EmptyString => EmptyString
  | String d r => if Ascii.eqb c d then remove c r else String d (remove c r)
  end.

Definition is_ascii_alpha (c : ascii) : bool :=
  let n := nat_of_ascii c in
  (Nat.leb 65 n && Nat.leb n 90) || (Nat.leb 97 n && Nat.leb n 122).

Definition is_digit (c : ascii) : bool :=
  let n := nat_of_ascii c in Nat.leb 48 n && Nat.leb n 57.

(** [urllib.parse.scheme_chars]: letters, digits and [+-.]. *)
Definition is_scheme_char (c : ascii) : bool :=
  is_ascii_alpha c || is_digit c || Ascii.eqb c "+" || Ascii.eqb c "-" || Ascii.eqb c ".".

Fixpoint all (p : ascii -> bool) (s : string) : bool :=
  match s with
  | EmptyString => true
  | String d r => p d && all p r
  end.

Definition lower_char (c : ascii) : ascii :=
  let n := nat_of_ascii c in
  if Nat.leb 65 n && Nat.leb n 90 then ascii_of_nat (n + 32) else c.

(** [s.lower()] on ASCII text. *)
Fixpoint lower (s : string) : string :=
  match s with
  | EmptyString => EmptyString
  | String d r => String (lower_char d) (lower r)
  end.

(** [suffix in s] (substring test), and [s.endswith(suffix)]. *)
Definition contains (needle s : string) : bool :=
  match String.index 0 needle s with Some _ => true | None => false end.

Definition endswith (suffix s : string) : bool :=
  Nat.leb (String.length suffix) (String.length s) &&
  String.eqb (drop (String.length s - String.length suffix) s) suffix.

Definition startswith (prefix s : string) : bool := String.prefix prefix s.

(** [str.isspace] on the UTF-8 bytes of a Python [str].  The one-byte
    white space: space, tab, newline, VT, FF, CR and the separators 0x1c to
    0x1f. *)
Definition is_space (c : ascii) : bool :=
  let n := nat_of_ascii c in
  Nat.eqb n 32 || (Nat.leb 9 n && Nat.leb n 13) || (Nat.leb 28 n && Nat.leb n 31).

(** The two-byte white space: U+0085 and U+00A0. *)
Definition is_space2 (a b : ascii) : bool :=
  Nat.eqb (nat_of_ascii a) 194 && (Nat.eqb (nat_of_ascii b) 133 || Nat.eqb (nat_of_ascii b) 160).

(** The three-byte white space: U+1680, U+2000 to U+200A, U+2028, U+2029,
    U+202F, U+205F and U+3000. *)
Definition is_space3 (a b c : ascii) : bool :=
  let x := nat_of_ascii a in
  let y := nat_of_ascii b in
  let z := nat_of_ascii c in
  (Nat.eqb x 225 && Nat.eqb y 154 && Nat.eqb z 128) ||
  (Nat.eqb x 226 && Nat.eqb y 128 &&
     ((Nat.leb 128 z && Nat.leb z 138) || Nat.eqb z 168 || Nat.eqb z 169 || Nat.eqb z 175)) ||
  (Nat.eqb x 226 && Nat.eqb y 129 && Nat.eqb z 159) ||
  (Nat.eqb x 227 && Nat.eqb y 128 && Nat.eqb z 128).

(** The same characters met last byte first, in reversed bytes. *)
Definition is_space2_rev (b a : ascii) : bool := is_space2 a b.
Definition is_space3_rev (c b a : ascii) : bool := is_space3 a b c.

(** Drops the white-space characters at the front of the bytes; [p2] and
    [p3] recognise the two- and three-byte ones in the order met. *)
Fixpoint lstrip_by (p2 : ascii -> ascii -> bool) (p3 : ascii -> ascii -> ascii -> bool)
    (l : list ascii) : list ascii :=
  match l with
  | [] => []
  | a :: r =>
      if is_space a then lstrip_by p2 p3 r else
      match r with
      | b :: r2 =>
          if p2 a b then lstrip_by p2 p3 r2 else
          match r2 with
          | c :: r3 => if p3 a b c then lstrip_by p2 p3 r3 else l
          | [] => l
          end
      | [] => l
      end
  end.

(** The bytes start with a white-space character. *)
Definition space_head_by (p2 : ascii -> ascii -> bool) (p3 : ascii -> ascii -> ascii -> bool)
    (l : list ascii) : bool :=
  match l with
  | [] => false
  | a :: r =>
      is_space a ||
      match r with
      | b :: r2 => p2 a b || match r2 with c :: _ => p3 a b c | [] => false end
      | [] => false
      end
  end.

(** [s.lstrip()], [s.rstrip()] and [s.strip()] on the bytes of [s]. *)
Definition lstrip_bytes (l : list ascii) : list ascii := lstrip_by is_space2 is_space3 l.
Definition rstrip_bytes (l : list ascii) : list ascii :=
  rev (lstrip_by is_space2_rev is_space3_rev (rev l)).
Definition strip_bytes (l : list ascii) : list ascii := rstrip_bytes (lstrip_bytes l).

(** The text starts, or ends, with a white-space character. *)
Definition starts_space (l : list ascii) : bool := space_head_by is_space2 is_space3 l.
Definition ends_space (l : list ascii) : bool := space_head_by is_space2_rev is_space3_rev (rev l).

(** [s.strip()] *)
Definition strip (s : string) : string :=
  string_of_list_ascii (strip_bytes (list_ascii_of_string s)).

End Str.

(* ------------------------------------------------------------------ *)
(** ** [urllib.parse.urlparse]

    The parse result of [urlparse]; [params] is split off the path for the
    schemes of [uses_params].  The function fails with [ValueError]
    ("Invalid IPv6 URL") when the network location has an unbalanced
    bracket or text before its [[]; the [ipaddress] validation of a
    bracketed host and the NFKC check of non-ASCII network locations are
    not modelled (such locations are accepted). *)

Record ParseResult := {
  scheme : string; netloc : string; path : string;
  params : string; query : string; fragment : string }.

Definition uses_params : list string :=
  [""; "ftp"; "hdl"; "prospero"; "http"; "imap"; "https"; "shttp"; "rtsp";
   "rtsps"; "rtspu"; "sip"; "sips"; "mms"; "sftp"; "tel"].

Definition str_mem (s : string) (l : list string) : bool :=
  existsb (String.eqb s) l.

(** [_splitnetloc(url, 2)]: the location runs up to the first [/], [?] or [#]. *)
Definition splitnetloc (url : string) : string * string :=
  let delim :=
    fold_left (fun d c => match Str.find_from c url 2 with
                          | Some w => Nat.min d w | None => d end)
              ["/"%char; "?"%char; "#"%char] (String.length url) in
  (substring 2 (delim - 2) url, Str.drop delim url).

(** [_check_bracketed_netloc], structural part. *)
Definition bracketed_netloc_ok (netloc : string) : bool :=
  let hostport := match Str.rfind "@" netloc with
                  | Some i => Str.drop (S i) netloc | None => netloc end in
  match Str.find "[" hostport with
  | None => true
  | Some i =>
      if Nat.eqb i 0 then
        let bracketed := Str.drop 1 hostport in
        match Str.find "]" bracketed with
        | None => true
        | Some j =>
            let port := Str.drop (S j) bracketed in
            match port with
            | EmptyString => true
            | String c _ => Ascii.eqb c ":"
            end
        end
      else false
  end.

Definition netloc_ok (netloc : string) : bool :=
  let o := Str.has "[" netloc in
  let c := Str.has "]" netloc in
  if xorb o c then false
  else if o && c then bracketed_netloc_ok netloc else true.

(** [urlsplit(url)]: [None] is the [ValueError]. *)
Definition urlsplit (url0 : string) : option (string * string * string * string * string) :=
  let url1 := Str.remove Str.cr (Str.remove Str.nl (Str.remove Str.tab (Str.lstrip_c0 url0))) in
  let '(scheme, url2) :=
    match Str.find ":" url1, url1 with
    | Some i, String c0 _ =>
        if Nat.ltb 0 i && Str.is_ascii_alpha c0 && Str.all Str.is_scheme_char (Str.take i url1)
        then (Str.lower (Str.take i url1), Str.drop (S i) url1)
        else ("", url1)
    | _, _ => ("", url1)
    end in
  let '(netloc, url3, ok) :=
    if String.eqb (Str.take 2 url2) "//" then
      let '(n, r) := splitnetloc url2 in (n, r, netloc_ok n)
    else ("", url2, true) in
  if negb ok then None else
  let '(url4, frag) := if Str.has "#" url3 then Str.split1 "#" url3 else (url3, "") in
  let '(url5, query) := if Str.has "?" url4 then Str.split1 "?" url4 else (url4, "") in
  Some (scheme, netloc, url5, query, frag).

(** [_splitparams(url)] *)
Definition splitparams (url : string) : string * string :=
  let cut i := (Str.take i url, Str.drop (S i) url) in
  if Str.has "/" url then
    match Str.rfind "/" url with
    | Some r => match Str.find_from ";" url r with
                | Some i => cut i
                | None => (url, "")
                end
    | None => (url, "")
    end
  else match Str.find ";" url with
       | Some i => cut i
       | None => (url, "")
       end.

Definition urlparse (url : string) : option ParseResult :=
  match urlsplit url with
  | None => None
  | Some (sch, net, p, q, f) =>
      let '(p', prm) :=
        if str_mem sch uses_params && Str.has ";" p then splitparams p else (p, "") in
      Some {| scheme := sch; netloc := net; path := p'; params := prm;
              query := q; fragment := f |}
  end.

(* ------------------------------------------------------------------ *)
(** ** [WebCrawler._normalize_url] (the Canonicalizer) *)

Definition norm_path_of (p : string) : string :=
  if String.eqb p "" || String.eqb p "/" then "/" else Str.rstrip Str.slash p.

Definition normalize_url (url : string) : option string :=
  match urlparse url with
  | None => None
  | Some pr =>
      if negb (str_mem (scheme pr) ["http"; "https"]) then Some url
      else Some (scheme pr ++ "://" ++ netloc pr ++ norm_path_of (path pr))
  end.

(** The normalization written inline in [parse_sitemap] for each [loc]. *)
Definition sitemap_inline_normalize (raw : string) : option string :=
  match urlparse raw with
  | None => None
  | Some pr => Some (scheme pr ++ "://" ++ netloc pr ++ norm_path_of (path pr))
  end.


(* ------------------------------------------------------------------ *)
(** ** Python outcomes *)

(** The exceptions the modelled code raises or lets through. *)
Inductive exn :=
  | OSError                (** opening a file that does not exist *)
  | ParseError             (** [xml.etree.ElementTree.ParseError] *)
  | ValueError (msg : string)
  | TypeError (msg : string)
  | HTTPError              (** [response.raise_for_status()] *)
  | RequestException       (** [session.get] failing *)
  | EOFError.              (** [input()] with no more input *)

(** [Unmodelled] marks inputs outside the modelled XML subset (entity
    references, comments, CDATA, DOCTYPE, processing instructions after the
    declaration, prefixed names); no theorem below relies on it. *)
Inductive outcome (A : Type) :=
  | Ok (a : A)
  | Raise (e : exn)
  | Unmodelled.
Arguments Ok {A} a.
Arguments Raise {A} e.
Arguments Unmodelled {A}.

Definition bind {A B} (m : outcome A) (k : A -> outcome B) : outcome B :=
  match m with
  | Ok a => k a
  | Raise e => Raise e
  | Unmodelled => Unmodelled
  end.

Notation "x <- m ;; k" := (bind m (fun x => k))
  (at level 61, m at next level, right associativity).

(* ------------------------------------------------------------------ *)
(** ** [xml.etree.ElementTree]: elements and the parser

    An element keeps what the program reads: its tag (["{uri}local"] when
    a default namespace is in scope, as ElementTree writes it), its [text]
    (the character data before its first child, [None] when there is
    none) and its children. *)

#[warnings="-register-all"]
Inductive elem := Elem (tag : string) (text : option string) (children : list elem).

Definition elem_tag (e : elem) : string := match e with Elem t _ _ => t end.
Definition elem_text (e : elem) : option string := match e with Elem _ x _ => x end.
Definition elem_children (e : elem) : list elem := match e with Elem _ _ cs => cs end.

(** [elem.iter()]: the element and its descendants in document order. *)
Fixpoint iter (e : elem) : list elem :=
  match e with
  | Elem _ _ cs =>
      e :: (fix go (l : list elem) : list elem :=
              match l with [] => [] | c :: r => app (iter c) (go r) end) cs
  end.

Module Xml.

Definition chars := list ascii.

Definition is_ws (c : ascii) : bool :=
  let n := nat_of_ascii c in Nat.eqb n 32 || Nat.eqb n 9 || Nat.eqb n 10 || Nat.eqb n 13.

(** Characters allowed in an XML 1.0 document (bytes of multi-byte UTF-8
    sequences included). *)
Definition is_xml_char (c : ascii) : bool :=
  let n := nat_of_ascii c in Nat.leb 32 n || Nat.eqb n 9 || Nat.eqb n 10 || Nat.eqb n 13.

(** A continuation byte of a UTF-8 sequence. *)
Definition is_cont (c : ascii) : bool :=
  Nat.leb 128 (nat_of_ascii c) && Nat.leb (nat_of_ascii c) 191.

(** [expat] reads the document as UTF-8 and accepts only the characters of
    XML 1.0 (tab, newline, carriage return, U+0020 to U+D7FF, U+E000 to
    U+FFFD, U+10000 to U+10FFFF), each in its shortest encoding; any other
    byte sequence, wherever it is, is a [ParseError]. *)
Fixpoint xml_chars_ok (l : chars) : bool :=
  match l with
  | [] => true
  | a :: r =>
      let x := nat_of_ascii a in
      if Nat.ltb x 128 then is_xml_char a && xml_chars_ok r
      else if Nat.leb 194 x && Nat.leb x 223 then
        match r with
        | b :: r2 => is_cont b && xml_chars_ok r2
        | [] => false
        end
      else if Nat.leb 224 x && Nat.leb x 239 then
        match r with
        | b :: c :: r3 =>
            let y := nat_of_ascii b in
            (if Nat.eqb x 224 then Nat.leb 160 y else if Nat.eqb x 237 then Nat.leb y 159 else true) &&
            is_cont b && is_cont c &&
            negb (Nat.eqb x 239 && Nat.eqb y 191 && Nat.leb 190 (nat_of_ascii c)) &&
            xml_chars_ok r3
        | _ => false
        end
      else if Nat.leb 240 x && Nat.leb x 244 then
        match r with
        | b :: c :: d :: r4 =>
            let y := nat_of_ascii b in
            (if Nat.eqb x 240 then Nat.leb 144 y else if Nat.eqb x 244 then Nat.leb y 143 else true) &&
            is_cont b && is_cont c && is_cont d && xml_chars_ok r4
        | _ => false
        end
      else false
  end.

(** The characters start with [']]>'], which character data may not
    contain. *)
Definition cdata_end (l : chars) : bool :=
  match l with
  | a :: r =>
      Ascii.eqb a "]" &&
      match r with
      | b :: r2 => Ascii.eqb b "]" && match r2 with c :: _ => Ascii.eqb c ">" | [] => false end
      | [] => false
      end
  | [] => false
  end.

Definition is_name_start (c : ascii) : bool :=
  Str.is_ascii_alpha c || Ascii.eqb c "_" || Ascii.eqb c ":" || Nat.leb 128 (nat_of_ascii c).

Definition is_name_char (c : ascii) : bool :=
  is_name_start c || Str.is_digit c || Ascii.eqb c "-" || Ascii.eqb c ".".

Fixpoint skip_ws (s : chars) : chars :=
  match s with
  | c :: r => if is_ws c then skip_ws r else s
  | [] => []
  end.

Fixpoint name_rest (s : chars) : chars * chars :=
  match s with
  | c :: r => if is_name_char c then let '(n, r') := name_rest r in (c :: n, r') else ([], s)
  | [] => ([], [])
  end.

Definition p_name (s : chars) : outcome (string * chars) :=
  match s with
  | c :: r =>
      if is_name_start c then let '(n, r') := name_rest r in Ok (string_of_list_ascii (c :: n), r')
      else Raise ParseError
  | [] => Raise ParseError
  end.

(** A quoted attribute value. *)
Fixpoint p_quoted (q : ascii) (s : chars) : outcome (chars * chars) :=
  match s with
  | [] => Raise ParseError
  | c :: r =>
      if Ascii.eqb c q then Ok ([], r)
      else if Ascii.eqb c "<" then Raise ParseError
      else if Ascii.eqb c "&" then Unmodelled
      else if negb (is_xml_char c) then Raise ParseError
      else v <- p_quoted q r ;; Ok (c :: fst v, snd v)
  end.

(** Attributes, each preceded by white space, up to [>] or [/]. *)
Fixpoint p_attrs (fuel : nat) (s : chars) : outcome (list (string * string) * chars) :=
  match fuel with
  | O => Unmodelled
  | S f =>
      let s' := skip_ws s in
      match s' with
      | c :: _ =>
          if Ascii.eqb c ">" || Ascii.eqb c "/" then Ok ([], s')
          else if Nat.eqb (length s') (length s) then Raise ParseError
          else
            nr <- p_name s' ;;
            let '(n, r) := nr in
            match skip_ws r with
            | e :: r1 =>
                if Ascii.eqb e "=" then
                  match skip_ws r1 with
                  | q :: r2 =>
                      if Ascii.eqb q Str.dquote || Ascii.eqb q "'" then
                        vr <- p_quoted q r2 ;;
                        rest <- p_attrs f (snd vr) ;;
                        Ok ((n, string_of_list_ascii (fst vr)) :: fst rest, snd rest)
                      else Raise ParseError
                  | [] => Raise ParseError
                  end
                else Raise ParseError
            | [] => Raise ParseError
            end
      | [] => Raise ParseError
      end
  end.

Fixpoint assoc (k : string) (l : list (string * string)) : option string :=
  match l with
  | [] => None
  | (k', v) :: r => if String.eqb k k' then Some v else assoc k r
  end.

Definition qualify (ns name : string) : string :=
  if String.eqb ns "" then name else "{" ++ ns ++ "}" ++ name.

Definition has_colon (s : string) : bool := Str.has ":" s.

(** [</name>] after the content of element [name]. *)
Definition p_close (name : string) (s : chars) : outcome chars :=
  nr <- p_name s ;;
  if String.eqb (fst nr) name then
    match skip_ws (snd nr) with
    | c :: r => if Ascii.eqb c ">" then Ok r else Raise ParseError
    | [] => Raise ParseError
    end
  else Raise ParseError.

(** [p_element] parses [<name attrs> content </name>] or [<name attrs/>];
    [p_content] collects the text before the first child and the
    children, up to the closing [</]. *)
Fixpoint p_element (fuel : nat) (ns : string) (s : chars) : outcome (elem * chars) :=
  match fuel with
  | O => Unmodelled
  | S f =>
      match s with
      | c :: r =>
          if negb (Ascii.eqb c "<") then Raise ParseError else
          nr <- p_name r ;;
          let '(name, r1) := nr in
          if has_colon name then Unmodelled else
          ar <- p_attrs (S (length r1)) r1 ;;
          let '(attrs, r2) := ar in
          let ns' := match assoc "xmlns" attrs with Some u => u | None => ns end in
          let tag := qualify ns' name in
          match r2 with
          | c1 :: c2 :: r3 =>
              if Ascii.eqb c1 "/" then
                if Ascii.eqb c2 ">" then Ok (Elem tag None [], r3) else Raise ParseError
              else if Ascii.eqb c1 ">" then
                cr <- p_content f ns' (c2 :: r3) [] [] ;;
                let '(txt, kids, r4) := cr in
                r5 <- p_close name r4 ;;
                Ok (Elem tag (match txt with [] => None | _ => Some (string_of_list_ascii txt) end) kids, r5)
              else Raise ParseError
          | [c1] => Raise ParseError
          | [] => Raise ParseError
          end
      | [] => Raise ParseError
      end
  end
with p_content (fuel : nat) (ns : string) (s : chars) (txt : chars) (kids : list elem)
  : outcome (chars * list elem * chars) :=
  match fuel with
  | O => Unmodelled
  | S f =>
      match s with
      | [] => Raise ParseError
      | c :: r =>
          if Ascii.eqb c "<" then
            match r with
            | c2 :: r2 =>
                if Ascii.eqb c2 "/" then Ok (rev txt, rev kids, r2)
                else if Ascii.eqb c2 "!" || Ascii.eqb c2 "?" then Unmodelled
                else er <- p_element f ns s ;; p_content f ns (snd er) txt (fst er :: kids)
            | [] => Raise ParseError
            end
          else if Ascii.eqb c "&" then Unmodelled
          else if cdata_end s then Raise ParseError
          else if negb (is_xml_char c) then Raise ParseError
          else match kids with
               | [] => p_content f ns r (c :: txt) kids
               | _ => p_content f ns r txt kids
               end
      end
  end.

(** Skip an XML declaration [<?xml ... ?>] at the very start. *)
Fixpoint skip_decl (s : chars) : outcome chars :=
  match s with
  | "?"%char :: ">"%char :: r => Ok r
  | _ :: r => skip_decl r
  | [] => Raise ParseError
  end.

(** [ET.fromstring(text)] / [ET.parse(file).getroot()] *)
Definition parse_document (text : string) : outcome elem :=
  let s := list_ascii_of_string text in
  if negb (xml_chars_ok s) then Raise ParseError else
  s1 <- (if String.prefix "<?xml" text then skip_decl s else Ok s) ;;
  match skip_ws s1 with
  | [] => Raise ParseError
  | s2 =>
      u <- match s2 with
           | "<"%char :: c :: _ => if Ascii.eqb c "!" || Ascii.eqb c "?" then Unmodelled else Ok tt
           | _ => Ok tt
           end ;;
      er <- p_element (S (length s2)) "" s2 ;;
      match skip_ws (snd er) with
      | [] => Ok (fst er)
      | "<"%char :: c :: _ => if Ascii.eqb c "!" || Ascii.eqb c "?" then Unmodelled else Raise ParseError
      | _ => Raise ParseError
      end
  end.

End Xml.

(* ------------------------------------------------------------------ *)
(** ** [WebsiteContentExtractor.parse_sitemap] *)

(** [tag.split('}')[-1] if '}' in tag else tag] *)
Definition local_tag (t : string) : string :=
  if Str.has "}" t then
    match Str.rfind "}" t with Some i => Str.drop (S i) t | None => t end
  else t.

(** A Python string is truthy when it is not empty. *)
Definition truthy_text (x : option string) : option string :=
  match x with
  | Some t => if String.eqb t "" then None else Some t
  | None => None
  end.

(** [for child in elem: if child_tag == 'loc' and child.text: ...; break] *)
Fixpoint first_loc (cs : list elem) : option string :=
  match cs with
  | [] => None
  | c :: r =>
      match truthy_text (elem_text c) with
      | Some t => if String.eqb (local_tag (elem_tag c)) "loc" then Some t else first_loc r
      | None => first_loc r
      end
  end.

(** The loop over [root.iter()], with the list [urls] and the set [seen]. *)
Fixpoint collect_urls (es : list elem) (urls seen : list string) : outcome (list string) :=
  match es with
  | [] => Ok urls
  | e :: r =>
      if String.eqb (local_tag (elem_tag e)) "url" then
        match first_loc (elem_children e) with
        | Some t =>
            match sitemap_inline_normalize (Str.strip t) with
            | None => Raise (ValueError "Invalid IPv6 URL")
            | Some n =>
                if str_mem n seen then collect_urls r urls seen
                else collect_urls r (urls ++ [n]) (n :: seen)
            end
        | None => collect_urls r urls seen
        end
      else collect_urls r urls seen
  end.

(** [parse_sitemap(path)]: the file is [None] when it cannot be opened,
    otherwise its text.  Every exception is logged and re-raised. *)
Definition parse_sitemap (file : option string) : outcome (list string) :=
  match file with
  | None => Raise OSError
  | Some content =>
      root <- Xml.parse_document content ;;
      collect_urls (iter root) [] []
  end.

Definition NL : string := String Str.nl EmptyString.

(** Lines of a document joined with newlines. *)
Fixpoint lines (l : list string) : string :=
  match l with
  | [] => ""
  | [x] => x
  | x :: r => x ++ NL ++ lines r
  end.

(** A double-quoted attribute value. *)
Definition q (v : string) : string := String Str.dquote (v ++ String Str.dquote EmptyString).

Definition xml_decl : string := "<?xml version=" ++ q "1.0" ++ " encoding=" ++ q "UTF-8" ++ "?>".
Definition sitemap_ns : string := q "http://www.sitemaps.org/schemas/sitemap/0.9".

Definition test_parse_sitemap_doc : string := lines [
  xml_decl;
  "    <urlset xmlns=" ++ sitemap_ns ++ ">";
  "      <url><loc>https://example.com/</loc></url>";
  "      <url><loc>https://example.com/about</loc></url>";
  "    </urlset>";
  "    "].


(* ------------------------------------------------------------------ *)
(** ** [WebCrawler._is_allowed] and [WebCrawler._is_valid_url]

    A crawler is configured by [self.domain = urlparse(base_url).netloc]
    and by the [Disallow:] paths read from robots.txt. *)

Record Crawler := { domain : string; disallowed_paths : list string }.

Definition mk_crawler (base_url : string) (robots_disallow : list string) : option Crawler :=
  match urlparse base_url with
  | Some pr => Some {| domain := netloc pr; disallowed_paths := robots_disallow |}
  | None => None
  end.

Definition is_allowed (c : Crawler) (url : string) : option bool :=
  match urlparse url with
  | None => None
  | Some pr => Some (negb (existsb (fun d => Str.startswith d (path pr)) (disallowed_paths c)))
  end.

Definition skip_extensions : list string :=
  [".jpg"; ".jpeg"; ".png"; ".gif"; ".svg"; ".ico";
   ".pdf"; ".doc"; ".docx"; ".xls"; ".xlsx"; ".ppt"; ".pptx";
   ".zip"; ".rar"; ".tar"; ".gz"; ".7z";
   ".mp3"; ".mp4"; ".avi"; ".mov"; ".wmv";
   ".css"; ".js"; ".json"; ".xml"; ".rss"; ".atom"].

Definition skip_paths : list string :=
  ["/wp-admin"; "/admin"; "/login"; "/logout"; "/api/"; "/feed/"; "/.well-known"].

(** [None] is the [ValueError] of [urlparse]. *)
Definition is_valid_url (c : Crawler) (url : string) : option bool :=
  match urlparse url with
  | None => None
  | Some pr =>
      if negb (String.eqb (netloc pr) (domain c)) then Some false
      else if negb (str_mem (scheme pr) ["http"; "https"]) then Some false
      else
        let path_lower := Str.lower (path pr) in
        if existsb (fun ext => Str.endswith ext path_lower) skip_extensions then Some false
        else if existsb (fun sk => Str.contains sk path_lower) skip_paths then Some false
        else is_allowed c url
  end.

(** The step of [_extract_links] applied to one absolute link after
    [urljoin]: rebuild [scheme://netloc path], normalize, keep if valid. *)
Definition extract_link (c : Crawler) (absolute_url : string) : option (option string) :=
  match urlparse absolute_url with
  | None => None
  | Some pr =>
      let clean := scheme pr ++ "://" ++ netloc pr ++ path pr in
      match normalize_url clean with
      | None => None
      | Some n =>
          match is_valid_url c n with
          | None => None
          | Some true => Some (Some n)
          | Some false => Some None
          end
      end
  end.

(* ------------------------------------------------------------------ *)
(** ** Python dictionaries with insertion order *)

Fixpoint dict_set (k : string) (v : option string) (d : list (string * option string))
  : list (string * option string) :=
  match d with
  | [] => [(k, v)]
  | (k', v') :: r => if String.eqb k k' then (k, v) :: r else (k', v') :: dict_set k v r
  end.

Definition dict_has (k : string) (d : list (string * option string)) : bool :=
  existsb (fun kv => String.eqb (fst kv) k) d.

(* ------------------------------------------------------------------ *)
(** ** [SitemapFinder.download_sitemap] and [_process_sitemap_index]

    The session is a function from URL to a response (or to the exception
    [session.get] raises).  [resp_text] is [response.text]: the body bytes
    read one character per byte. *)

Record Response := { status_code : nat; resp_text : string }.

Definition Session := string -> outcome Response.

(** The fields kept for one [<url>] element of a child sitemap. *)
Definition url_fields (e : elem) : list (string * option string) :=
  fold_left (fun d ch =>
               let t := local_tag (elem_tag ch) in
               if str_mem t ["loc"; "lastmod"; "changefreq"; "priority"]
               then dict_set t (elem_text ch) d else d)
            (elem_children e) [].

Definition child_url_data (root : elem) : list (list (string * option string)) :=
  flat_map (fun e =>
              if String.eqb (local_tag (elem_tag e)) "url" then
                let d := url_fields e in if dict_has "loc" d then [d] else []
              else [])
           (iter root).

(** The body of the [try] for one child sitemap; an exception makes the
    child contribute nothing ([except Exception: logger.warning]). *)
Definition child_urls (get : Session) (u : string) : list (list (string * option string)) :=
  match get u with
  | Ok r =>
      if Nat.eqb (status_code r) 200 then
        match Xml.parse_document (resp_text r) with
        | Ok root => child_url_data root
        | _ => []
        end
      else []
  | _ => []
  end.

Definition index_locs (root : elem) : list string :=
  flat_map (fun e =>
              if String.eqb (local_tag (elem_tag e)) "loc" then
                match truthy_text (elem_text e) with Some t => [Str.strip t] | None => [] end
              else [])
           (iter root).

Definition url_entry (d : list (string * option string)) : string :=
  "  <url>" ++ NL ++
  String.concat "" (map (fun kv =>
     match snd kv with
     | Some v => if String.eqb v "" then ""
                 else "    <" ++ fst kv ++ ">" ++ v ++ "</" ++ fst kv ++ ">" ++ NL
     | None => ""
     end) d) ++
  "  </url>" ++ NL.

Definition combined_header : string :=
  "<?xml version=" ++ String Str.dquote ("1.0" ++ String Str.dquote EmptyString) ++
  " encoding=" ++ String Str.dquote ("UTF-8" ++ String Str.dquote EmptyString) ++ "?>" ++ NL ++
  "<urlset xmlns=" ++ String Str.dquote ("http://www.sitemaps.org/schemas/sitemap/0.9" ++
  String Str.dquote EmptyString) ++ ">" ++ NL.

(** Returns the text written to the temporary file. *)
Definition process_sitemap_index (get : Session) (index_content : string) : outcome string :=
  root <- Xml.parse_document index_content ;;
  let all_urls := flat_map (child_urls get) (index_locs root) in
  Ok (combined_header ++ String.concat "" (map url_entry all_urls) ++ "</urlset>").

Definition download_sitemap (get : Session) (sitemap_url : string) : outcome string :=
  r <- get sitemap_url ;;
  if Nat.leb 400 (status_code r) then Raise HTTPError
  else if Str.contains "sitemapindex" (resp_text r) then process_sitemap_index get (resp_text r)
  else Ok (resp_text r).

(* ------------------------------------------------------------------ *)
(** ** [WebCrawler.generate_sitemap] (the text of the temporary file) *)

Definition generate_sitemap (today : string) (urls : list string) : string :=
  combined_header ++
  String.concat "" (map (fun u =>
      "  <url>" ++ NL ++
      "    <loc>" ++ u ++ "</loc>" ++ NL ++
      "    <lastmod>" ++ today ++ "</lastmod>" ++ NL ++
      "    <changefreq>weekly</changefreq>" ++ NL ++
      "    <priority>0.5</priority>" ++ NL ++
      "  </url>" ++ NL) urls) ++
  "</urlset>".

(* ------------------------------------------------------------------ *)
(** ** [WebsiteContentExtractor.process_website]

    What the orchestrator sees of the outside world: the finder's answer,
    the finder's session, the lines typed at the prompts, what the crawler
    returns and today's date.  Creating the output directory and copying
    the sitemap are not modelled; the per-page extraction is summarised by
    the list of URLs it is run on. *)

Record Env := {
  env_find : option string;
  env_get : Session;
  env_inputs : list string;
  env_crawl : list string;
  env_today : string }.

Record Run := {
  run_urls : list string;      (** the URLs whose content is extracted *)
  run_source : string;         (** [sitemap_source] *)
  run_prompted : bool;         (** the three-way choice was shown *)
  run_crawled : bool }.        (** [WebCrawler.crawl] was run *)

(** [urls[:limit]] for a Python [int]. *)
Definition py_slice_to (limit : Z) (l : list string) : list string :=
  if (0 <=? limit)%Z then firstn (Z.to_nat limit) l
  else firstn (Z.to_nat (Z.of_nat (length l) + limit)) l.

Definition apply_limit (limit : option Z) (l : list string) : list string :=
  match limit with
  | Some n => if Z.eqb n 0 then l else py_slice_to n l
  | None => l
  end.

(** The part after the sitemap is known: parse it, cut it to [limit]. *)
Definition extract_from (limit : option Z) (text source : string) (prompted crawled : bool)
  : outcome Run :=
  urls <- parse_sitemap (Some text) ;;
  Ok {| run_urls := apply_limit limit urls; run_source := source;
        run_prompted := prompted; run_crawled := crawled |}.

Definition process_website (env : Env) (limit : option Z) : outcome Run :=
  match env_find env with
  | Some u =>
      text <- download_sitemap (env_get env) u ;;
      extract_from limit text "found" false false
  | None =>
      match env_inputs env with
      | [] => Raise EOFError
      | c :: rest =>
          let choice := Str.strip c in
          if String.eqb choice "1" then
            match env_crawl env with
            | [] => Raise (ValueError "No pages could be discovered through crawling")
            | discovered =>
                extract_from limit (generate_sitemap (env_today env) discovered)
                  "generated" true true
            end
          else if String.eqb choice "2" then
            match rest with
            | [] => Raise EOFError
            | m :: _ =>
                let sitemap_url := Str.strip m in
                if String.eqb sitemap_url "" then Raise (ValueError "No sitemap URL provided")
                else
                  text <- download_sitemap (env_get env) sitemap_url ;;
                  extract_from limit text "manual" true false
            end
          else Raise (ValueError "Operation cancelled by user")
      end
  end.

(** The keyword parameters of [process_website]. *)
Definition process_website_params : list string :=
  ["url"; "limit"; "separate_files"; "output_path"; "crawl_depth"; "max_crawl_pages"].

(** A call with keyword arguments: Python refuses a keyword the function
    does not declare with a [TypeError] before running it. *)
Definition call_process_website (env : Env) (kwargs : list string) (limit : option Z)
  : outcome Run :=
  if forallb (fun k => str_mem k process_website_params) kwargs
  then process_website env limit
  else Raise (TypeError "process_website() got an unexpected keyword argument").

(* ------------------------------------------------------------------ *)
(** ** [WebCrawler.crawl]

    The network is a function from URL to the outcome of fetching it:
    [None] when [session.get] raises, otherwise whether the answer is a
    200 [text/html] page and the result of [_extract_links] on it ([None]
    when extraction raises; the links are already normalized and
    validated).  The state holds the frontier [queue], [visited_urls] and
    [discovered_urls], together with two logs that the program does not
    keep: the URLs fetched and the URLs appended to the queue. *)

Record Page := { page_ok : bool; page_links : option (list string) }.

Record CState := {
  queue : list (string * nat);
  visited : list string;
  discovered : list string;
  fetched : list string;
  enqueued : list string }.

Section Crawl.

Variable fetch : string -> option Page.
Variable max_depth : Z.
Variable max_pages : Z.

(** [for link in links: if link not in visited: visited.add(link);
    queue.append((link, depth + 1))] *)
Fixpoint enqueue_links (links : list string) (d : nat) (st : CState) : CState :=
  match links with
  | [] => st
  | l :: r =>
      if str_mem l (visited st) then enqueue_links r d st
      else enqueue_links r d
             {| queue := queue st ++ [(l, d)]; visited := visited st ++ [l];
                discovered := discovered st; fetched := fetched st;
                enqueued := enqueued st ++ [l] |}
  end.

Definition with_queue (st : CState) (q : list (string * nat)) : CState :=
  {| queue := q; visited := visited st; discovered := discovered st;
     fetched := fetched st; enqueued := enqueued st |}.

(** One iteration of the [while] body. *)
Definition crawl_step (st : CState) : CState :=
  match queue st with
  | [] => st
  | (u, d) :: q =>
      if (max_depth <? Z.of_nat d)%Z then with_queue st q
      else
        let st1 := {| queue := q; visited := visited st; discovered := discovered st;
                      fetched := fetched st ++ [u]; enqueued := enqueued st |} in
        match fetch u with
        | None => st1
        | Some pg =>
            if page_ok pg then
              let st2 := {| queue := q; visited := visited st;
                            discovered := discovered st ++ [u];
                            fetched := fetched st ++ [u]; enqueued := enqueued st |} in
              if (Z.of_nat d <? max_depth)%Z then
                match page_links pg with
                | Some links => enqueue_links links (S d) st2
                | None => st2
                end
              else st2
            else st1
        end
  end.

(** [while queue and len(discovered_urls) < max_pages] *)
Definition guard (st : CState) : bool :=
  match queue st with
  | [] => false
  | _ => (Z.of_nat (length (discovered st)) <? max_pages)%Z
  end.

Fixpoint crawl_loop (fuel : nat) (st : CState) : option CState :=
  match fuel with
  | O => None
  | S f => if guard st then crawl_loop f (crawl_step st) else Some st
  end.

Definition crawl_init (start_url : string) : CState :=
  {| queue := [(start_url, 0)]; visited := [start_url]; discovered := [];
     fetched := []; enqueued := [start_url] |}.

(** [crawl()] run with [fuel] iterations available; it returns
    [discovered_urls]. *)
Definition crawl (fuel : nat) (start_url : string) : option (list string) :=
  option_map discovered (crawl_loop fuel (crawl_init start_url)).

End Crawl.

(* ------------------------------------------------------------------ *)
(** ** Documents and sessions used by the theorems *)

(** A sitemap with one [ftp] URL. *)
Definition c7_doc : string :=
  "<urlset><url><loc>ftp://h/x/</loc></url></urlset>".

Definition c8_doc : string := lines [
  xml_decl;
  "    <urlset xmlns=" ++ sitemap_ns ++ ">";
  "      <url><loc>https://example.com</loc></url>";
  "      <url><loc>https://example.com/</loc></url>";
  "      <url><loc>https://example.com/docs</loc></url>";
  "      <url><loc>https://example.com/docs/</loc></url>";
  "      <url><loc>https://example.com/blog/</loc></url>";
  "      <url><loc>https://example.com/blog</loc></url>";
  "    </urlset>";
  "    "].

Definition index_doc : string := lines [
  xml_decl;
  "    <sitemapindex xmlns=" ++ sitemap_ns ++ ">";
  "      <sitemap>";
  "        <loc>https://shopify.dev/sitemap_standard.xml.gz</loc>";
  "      </sitemap>";
  "    </sitemapindex>";
  "    "].

(** A gzip stream: the magic bytes 0x1f 0x8b, then the rest of the stream. *)
Definition gzip_bytes (rest : string) : string :=
  String (ascii_of_nat 31) (String (ascii_of_nat 139) rest).

(** The server of the sitemap-index test: the index at [/sitemap.xml], the
    gzip-compressed child at [/sitemap_standard.xml.gz]. *)
Definition gz_session (rest : string) : Session := fun u =>
  if String.eqb u "https://shopify.dev/sitemap.xml" then
    Ok {| status_code := 200; resp_text := index_doc |}
  else if String.eqb u "https://shopify.dev/sitemap_standard.xml.gz" then
    Ok {| status_code := 200; resp_text := gzip_bytes rest |}
  else Raise RequestException.

Definition host_crawler : Crawler := {| domain := "host"; disallowed_paths := [] |}.

(** A server answering every request with the same 200 body. *)
Definition const_session (body : string) : Session :=
  fun _ => Ok {| status_code := 200; resp_text := body |}.

Definition augment_base_doc : string := lines [
  xml_decl;
  "    <urlset xmlns=" ++ sitemap_ns ++ ">";
  "      <url><loc>https://shopify.dev/docs/api/admin-graphql</loc></url>";
  "    </urlset>";
  "    "].

(** The augmentation test: a sitemap with one page, a crawler that would
    find that page and one more. *)
Definition augment_env : Env := {|
  env_find := Some "https://shopify.dev/sitemap.xml";
  env_get := const_session augment_base_doc;
  env_inputs := [];
  env_crawl := ["https://shopify.dev/docs/api/admin-graphql";
                "https://shopify.dev/docs/api/admin-graphql/reference"];
  env_today := "2026-10-15" |}.

(** A sitemap is found but its document is [body]; the user answers [3]. *)
Definition found_env (body : string) : Env := {|
  env_find := Some "https://example.com/sitemap.xml";
  env_get := const_session body;
  env_inputs := ["3"];
  env_crawl := ["https://example.com/"; "https://example.com/docs/"];
  env_today := "2026-10-15" |}.

(** No sitemap is found; the user answers [3]. *)
Definition no_sitemap_env : Env := {|
  env_find := None;
  env_get := const_session "";
  env_inputs := ["3"];
  env_crawl := [];
  env_today := "2026-10-15" |}.

(** No sitemap is found; the user answers [1] and the crawl finds three pages. *)
Definition crawl_choice_env : Env := {|
  env_find := None;
  env_get := const_session "";
  env_inputs := [" 1 "];
  env_crawl := ["https://example.com/"; "https://example.com/docs"; "https://example.com/blog"];
  env_today := "2026-10-15" |}.

Definition empty_urlset_doc : string := "<urlset xmlns=" ++ sitemap_ns ++ "/>".

(** The termination measure of the crawl: the number of frontier entries
    in each depth bucket [0 .. K] (depths at or beyond [K] share the last
    bucket), compared lexicographically. *)
Fixpoint lex_lt (a b : list nat) : Prop :=
  match a, b with
  | x :: xs, y :: ys => x < y \/ (x = y /\ lex_lt xs ys)
  | _, _ => False
  end.

Definition lexn (n : nat) (a b : list nat) : Prop :=
  length a = n /\ length b = n /\ lex_lt a b.

Definition bucket (K d : nat) : nat := Nat.min d K.

Definition cnt (K : nat) (q : list (string * nat)) (i : nat) : nat :=
  length (filter (fun e => Nat.eqb (bucket K (snd e)) i) q).

Definition meas (K : nat) (q : list (string * nat)) : list nat :=
  map (cnt K q) (seq 0 (S K)).

(** A small site: [/] links to [/a] and [/b], [/a] links back to [/] and
    to [/b], [/b] is a PDF-like answer that is not HTML. *)
Definition small_site (u : string) : option Page :=
  if String.eqb u "https://s/" then
    Some {| page_ok := true; page_links := Some ["https://s/a"; "https://s/b"] |}
  else if String.eqb u "https://s/a" then
    Some {| page_ok := true; page_links := Some ["https://s/"; "https://s/b"] |}
  else if String.eqb u "https://s/b" then
    Some {| page_ok := false; page_links := None |}
  else None.

(** The number of depth buckets of the measure for a given [max_depth]. *)
Definition depth_buckets (max_depth : Z) : nat := S (Z.to_nat max_depth).

(** What the crawl keeps true: the enqueue log has no repetition and is
    the visited set; the discovered pages and the frontier hold no URL
    twice, and all of them are visited. *)
Definition crawl_inv (st : CState) : Prop :=
  NoDup (enqueued st) /\ visited st = enqueued st /\
  NoDup (discovered st ++ map fst (queue st))%list /\
  (forall x, In x (discovered st ++ map fst (queue st))%list -> In x (visited st)).

(** The final state of the crawl of [small_site] from [https://s/]. *)
Definition small_site_final : CState := {|
  queue := [];
  visited := ["https://s/"; "https://s/a"; "https://s/b"];
  discovered := ["https://s/"; "https://s/a"];
  fetched := ["https://s/"; "https://s/a"; "https://s/b"];
  enqueued := ["https://s/"; "https://s/a"; "https://s/b"] |}.

(* ------------------------------------------------------------------ *)
(** ** More string helpers *)

Module Str2.

(** [s.split(c)]: always at least one part. *)
Fixpoint split_on (c : ascii) (s : string) : list string :=
  match s with
  | EmptyString => [EmptyString]
  | String d r =>
      let parts := split_on c r in
      if Ascii.eqb d c then EmptyString :: parts
      else match parts with
           | p :: ps => String d p :: ps
           | [] => [String d EmptyString]
           end
  end.

(** [sep.join(l)] *)
Fixpoint join (sep : string) (l : list string) : string :=
  match l with
  | [] => EmptyString
  | [x] => x
  | x :: r => x ++ sep ++ join sep r
  end.

(** [s.replace('www.', '')]: left to right, occurrences do not overlap. *)
Fixpoint remove_www (s : string) : string :=
  match s with
  | String "w" (String "w" (String "w" (String "." r))) => remove_www r
  | String d r => String d (remove_www r)
  | EmptyString => EmptyString
  end.

End Str2.

(* ------------------------------------------------------------------ *)
(** ** [extract_domain_name] *)

Definition common_tlds : list string :=
  ["com"; "org"; "net"; "io"; "dev"; "app"; "co"; "edu"; "gov"; "mil"].

Definition common_subdomains : list string := ["api"; "docs"; "www"].

(** [None] is the [ValueError] of [urlparse]. *)
Definition extract_domain_name (url : string) : option string :=
  match urlparse url with
  | None => None
  | Some parsed =>
      let domain := Str2.remove_www (netloc parsed) in
      let parts := Str2.split_on "." domain in
      let filtered_parts :=
        filter (fun part => negb (str_mem part common_tlds) &&
                            negb (str_mem part common_subdomains)) parts in
      match filtered_parts with
      | _ :: _ => Some (Str2.join "_" filtered_parts)
      | [] => match parts with p :: _ => Some p | [] => Some "website" end
      end
  end.

(* ------------------------------------------------------------------ *)
(** ** [WebCrawler._get_robots_disallow]

    The answer to the request for [/robots.txt]: [None] when the request
    raises (the bare [except] returns the empty list), otherwise the status
    code and the text. *)

Definition disallow_lines (text : string) : list string :=
  fold_left (fun disallowed line =>
      if Str.startswith "disallow:" (Str.lower (Str.strip line)) then
        let path := Str.strip (snd (Str.split1 ":" line)) in
        if String.eqb path "" then disallowed else app disallowed [path]
      else disallowed)
    (Str2.split_on Str.nl text) [].

Definition get_robots_disallow (response : option (nat * string)) : list string :=
  match response with
  | Some (status_code, text) => if Nat.eqb status_code 200 then disallow_lines text else []
  | None => []
  end.

(** The crawler as [__init__] leaves it: [domain] from [urlparse(base_url)],
    [disallowed_paths] from robots.txt. *)
Definition init_crawler (base_url : string) (robots : option (nat * string)) : option Crawler :=
  match urlparse base_url with
  | None => None
  | Some p => Some {| domain := netloc p; disallowed_paths := get_robots_disallow robots |}
  end.

(* ------------------------------------------------------------------ *)
(** ** [WebsiteContentExtractor._clean_markdown]

    On the UTF-8 bytes of the text; [\n] is the only line separator of
    [split('\n')]. *)

Module Clean.

Local Open Scope nat_scope.
Local Open Scope list_scope.

Definition nl := Str.nl.
Definition is_nl (c : ascii) : bool := Ascii.eqb c nl.

Fixpoint prefixb (p l : list ascii) : bool :=
  match p, l with
  | [], _ => true
  | a :: p', b :: l' => Ascii.eqb a b && prefixb p' l'
  | _ :: _, [] => false
  end.

Definition open_c : list ascii := list_ascii_of_string "<!--".
Definition close_c : list ascii := list_ascii_of_string "-->".

(** Index of the first [-->] in [l]. *)
Fixpoint find_close (l : list ascii) : option nat :=
  match l with
  | [] => None
  | _ :: r =>
      if prefixb close_c l then Some 0 else option_map S (find_close r)
  end.

(** [re.sub(r'<!--.*?-->', '', s, flags=re.DOTALL)]: at each position a
    match is [<!--] followed by the shortest text up to the first [-->]. *)
Fixpoint remove_comments (fuel : nat) (l : list ascii) : list ascii :=
  match fuel with
  | O => l
  | S f =>
      match l with
      | [] => []
      | c :: r =>
          if prefixb open_c l then
            match find_close (skipn 4 l) with
            | Some j => remove_comments f (skipn (4 + j + 3) l)
            | None => l
            end
          else c :: remove_comments f r
      end
  end.

(** [s.split('\n')] *)
Fixpoint split_lines (l : list ascii) : list (list ascii) :=
  match l with
  | [] => [[]]
  | c :: r =>
      let parts := split_lines r in
      if is_nl c then [] :: parts
      else match parts with
           | p :: ps => (c :: p) :: ps
           | [] => [[c]]
           end
  end.

(** ['\n'.join(lines)] *)
Fixpoint join_lines (ls : list (list ascii)) : list ascii :=
  match ls with
  | [] => []
  | [x] => x
  | x :: r => x ++ nl :: join_lines r
  end.

(** [s.lstrip()], [s.rstrip()] and [s.strip()] *)
Definition lstrip (l : list ascii) : list ascii := Str.lstrip_bytes l.
Definition rstrip (l : list ascii) : list ascii := Str.rstrip_bytes l.
Definition strip (l : list ascii) : list ascii := rstrip (lstrip l).

Definition nls (n : nat) : list ascii := repeat nl n.

(** [re.sub(r'\n{3,}', '\n\n', s)]; [n] newlines are pending. *)
Fixpoint collapse (n : nat) (l : list ascii) : list ascii :=
  match l with
  | [] => nls (if 3 <=? n then 2 else n)
  | c :: r =>
      if is_nl c then collapse (S n) r
      else nls (if 3 <=? n then 2 else n) ++ c :: collapse 0 r
  end.

Definition clean_chars (l : list ascii) : list ascii :=
  let l1 := remove_comments (length l) l in
  let l2 := join_lines (map rstrip (split_lines l1)) in
  let l3 := collapse 0 l2 in
  strip l3.

(** No line of the text ends in white space. *)
Definition lines_ok (l : list ascii) : bool :=
  forallb (fun line => negb (Str.ends_space line)) (split_lines l).

(** No run of more than [2 - k] newlines, [k] newlines being already seen. *)
Fixpoint nl_runs_ok (k : nat) (l : list ascii) : bool :=
  match l with
  | [] => true
  | c :: r => if is_nl c then (k <? 2) && nl_runs_ok (S k) r else nl_runs_ok 0 r
  end.

(** A line: no newline in it. *)
Definition no_nl (x : list ascii) : bool := forallb (fun c => negb (is_nl c)) x.

End Clean.

Definition clean_markdown (markdown : string) : string :=
  string_of_list_ascii (Clean.clean_chars (list_ascii_of_string markdown)).

(* ------------------------------------------------------------------ *)
(** ** The statistics of [process_website] and [_save_summary] *)

(** A result dictionary of [extract_content]: a key that is absent is
    [None]. *)
Record PageResult := {
  r_url : string; r_title : option string;
  r_content : option string; r_error : option string }.

Definition truthy (x : option string) : bool :=
  match x with Some t => negb (String.eqb t "") | None => false end.

(** [sum(1 for r in results if r.get('content') and not r.get('error'))] *)
Definition successful (results : list PageResult) : nat :=
  length (filter (fun r => truthy (r_content r) && negb (truthy (r_error r))) results).

(** [sum(1 for r in results if r.get('error'))] *)
Definition failed (results : list PageResult) : nat :=
  length (filter (fun r => truthy (r_error r)) results).

(** What the crawl keeps true about the requests it makes: the URLs
    requested and the frontier hold no URL twice and are visited; every
    discovered page was requested and answered with a 200 HTML page. *)
Definition fetch_inv (fetch : string -> option Page) (st : CState) : Prop :=
  NoDup (fetched st ++ map fst (queue st))%list /\
  (forall x, In x (fetched st ++ map fst (queue st))%list -> In x (visited st)) /\
  (forall u, In u (discovered st) ->
     In u (fetched st) /\ exists pg, fetch u = Some pg /\ page_ok pg = true).

(* ------------------------------------------------------------------ *)
(** ** The text of [generate_sitemap], character by character *)

Module SitemapText.
Import Xml.
Local Open Scope list_scope.

(** A character that [ElementTree] reads back as itself in element text:
    not [<], not [&], an XML character. *)
Definition xml_text_char (c : ascii) : bool :=
  negb (Ascii.eqb c "<") && negb (Ascii.eqb c "&") && is_xml_char c.

(** The white space [generate_sitemap] writes between the tags of a
    [<url>] block, and before [</url>]. *)
(** No [']]>'] starts anywhere in [l]. *)
Fixpoint no_cdata_end (l : list ascii) : bool :=
  match l with
  | [] => true
  | c :: r => negb (cdata_end (c :: r)) && no_cdata_end r
  end.

(** Text [cs] followed by [rest] that [p_content] reads as character data:
    no [<] or [&], and no [']]>'] starting inside [cs]. *)
Fixpoint text_ok (cs rest : list ascii) : bool :=
  match cs with
  | [] => true
  | c :: cs' => xml_text_char c && negb (cdata_end (c :: cs' ++ rest)) && text_ok cs' rest
  end.

Definition ws1 : list ascii := [Str.nl; " "; " "; " "; " "]%char.

Definition ws2 : list ascii := [Str.nl; " "; " "]%char.

Definition las := list_ascii_of_string.

(** The characters of one [<url>] block from [<url>] to [</url>], with
    [U] the URL and [T] the date, followed by [rest]. *)
Definition url_chars (U T : list ascii) (rest : list ascii) : list ascii :=
  "<"%char :: las "url" ++ ">"%char ::
  ws1 ++ "<"%char :: las "loc" ++ ">"%char :: U ++ "<"%char :: "/"%char :: las "loc" ++ ">"%char ::
  ws1 ++ "<"%char :: las "lastmod" ++ ">"%char :: T ++ "<"%char :: "/"%char :: las "lastmod" ++ ">"%char ::
  ws1 ++ "<"%char :: las "changefreq" ++ ">"%char :: las "weekly" ++ "<"%char :: "/"%char :: las "changefreq" ++ ">"%char ::
  ws1 ++ "<"%char :: las "priority" ++ ">"%char :: las "0.5" ++ "<"%char :: "/"%char :: las "priority" ++ ">"%char ::
  ws2 ++ "<"%char :: "/"%char :: las "url" ++ ">"%char :: rest.

(** [elem.text] of an element whose content is the text [U]. *)
Definition text_of (U : list ascii) : option string :=
  match U with [] => None | _ => Some (string_of_list_ascii U) end.

(** The element [ElementTree] builds for one [<url>] block. *)
Definition url_elem (ns : string) (U T : list ascii) : elem :=
  Elem (qualify ns "url") (Some (string_of_list_ascii ws1))
    [Elem (qualify ns "loc") (text_of U) [];
     Elem (qualify ns "lastmod") (text_of T) [];
     Elem (qualify ns "changefreq") (Some "weekly") [];
     Elem (qualify ns "priority") (Some "0.5") []].

Ltac rt_side :=
  first [ intros r; reflexivity | reflexivity
        | eexists; eexists; split; [reflexivity|split; reflexivity]
        | assumption | (unfold ws1, ws2 in *; simpl length in *; lia) ].

(** The entry [generate_sitemap] writes for the URL [u]. *)
Definition sitemap_entry (today u : string) : string :=
  ("  <url>" ++ NL ++
  "    <loc>" ++ u ++ "</loc>" ++ NL ++
  "    <lastmod>" ++ today ++ "</lastmod>" ++ NL ++
  "    <changefreq>weekly</changefreq>" ++ NL ++
  "    <priority>0.5</priority>" ++ NL ++
  "  </url>" ++ NL)%string.

(** The characters after the [<urlset>] line. *)
Definition sitemap_body (today : string) (us : list string) : list ascii :=
  flat_map (fun u => las (sitemap_entry today u)) us ++ las "</urlset>".

(** The default namespace declared by the [<urlset>] tag. *)
Definition sitemap_ns0 : string := "http://www.sitemaps.org/schemas/sitemap/0.9".

Definition xmlns_attr : string := " xmlns=" ++ q sitemap_ns0.

End SitemapText.

(** Text [ElementTree] reads back unchanged: no [<] or [&], no [']]>'],
    XML characters in UTF-8. *)
Definition xml_text_safe (s : string) : bool :=
  let l := list_ascii_of_string s in
  forallb SitemapText.xml_text_char l && SitemapText.no_cdata_end l && Xml.xml_chars_ok l.

(* ------------------------------------------------------------------ *)
(** ** [os] and [os.path] over a model of the file system *)

Module Os.

(** A node of the file system: a directory, or a regular file with its text. *)
Inductive node := Dir | File (text : string).

(** A path from the root, as the list of its names. *)
Definition key := list string.

(** A file system: its nodes by path from the root, the most recent entry
    first; the root is a directory.  There are no symbolic links and no
    permissions. *)
Definition fs := list (key * node).

(** The exceptions raised by the calls: [FileExistsError],
    [FileNotFoundError], [NotADirectoryError] and [IsADirectoryError]
    ([OSError]), and the [ValueError] of [urlparse]. *)
Inductive pyerr :=
  FileExistsError | FileNotFoundError | NotADirectoryError | IsADirectoryError | ValueError.

(** A result; [ROut] is the end of the fuel of a model's loop. *)
Inductive res (A : Type) := ROk (a : A) | RErr (e : pyerr) | ROut.
Arguments ROk {A} a.
Arguments RErr {A} e.
Arguments ROut {A}.

(** Code that reads and changes the file system, and may raise. *)
Definition M (A : Type) : Type := fs -> fs * res A.

Definition ret {A} (a : A) : M A := fun t => (t, ROk a).

Definition mbind {A B} (m : M A) (k : A -> M B) : M B := fun t =>
  let '(t1, r) := m t in
  match r with
  | ROk a => k a t1
  | RErr e => (t1, RErr e)
  | ROut => (t1, ROut)
  end.

Definition key_eqb (a b : key) : bool :=
  if list_eq_dec string_dec a b then true else false.

Definition lookup (t : fs) (k : key) : option node :=
  match k with
  | [] => Some Dir
  | _ => match find (fun e => key_eqb (fst e) k) t with
         | Some (_, n) => Some n
         | None => None
         end
  end.

(** One component of a path, from the directory [cur]. *)
Definition step (cur : key) (c : string) : key :=
  if String.eqb c "." then cur
  else if String.eqb c ".." then removelast cur
  else (cur ++ [c])%list.

(** Path resolution: each component is looked up in a directory. *)
Fixpoint walk (t : fs) (cur : key) (cs : list string) : res key :=
  match cs with
  | [] => ROk cur
  | c :: r =>
      match lookup t cur with
      | Some Dir => walk t (step cur c) r
      | Some (File _) => RErr NotADirectoryError
      | None => RErr FileNotFoundError
      end
  end.

(** The components of a path: repeated and trailing slashes add none. *)
Definition comps (p : string) : list string :=
  filter (fun c => negb (String.eqb c "")) (Str2.split_on "/" p).

(** [os.path.split] *)
Definition path_split (p : string) : string * string :=
  let i := match Str.rfind "/" p with Some j => S j | None => 0 end in
  let head := Str.take i p in
  let tail := Str.drop i p in
  (if negb (String.eqb head "") && negb (Str.all (fun c => Ascii.eqb c "/") head)
   then Str.rstrip "/" head else head, tail).

(** [os.path.dirname] *)
Definition dirname (p : string) : string := fst (path_split p).

(** [os.path.join(a, *p)] *)
Definition join_one (path b : string) : string :=
  if Str.startswith "/" b then b
  else if String.eqb path "" || Str.endswith "/" path then path ++ b
  else path ++ "/" ++ b.

Definition path_join (a : string) (p : list string) : string := fold_left join_one p a.

(** The head and tail [os.makedirs] starts from:
    [head, tail = path.split(name)]; [if not tail: head, tail = path.split(head)]. *)
Definition makedirs_split (name : string) : string * string :=
  let '(head, tail) := path_split name in
  if String.eqb tail "" then path_split head else (head, tail).

(** [t'] keeps every node of [t]; with [dgrow], its new nodes are
    directories. *)
Definition grows (t t' : fs) : Prop :=
  forall k n, lookup t k = Some n -> lookup t' k = Some n.

Definition dgrow (t t' : fs) : Prop :=
  grows t t' /\ (forall k, lookup t k = None -> lookup t' k = None \/ lookup t' k = Some Dir).

Section Cwd.

(** The working directory of the process. *)
Variable cwd : key.

Definition walk_from (t : fs) (p : string) : res key :=
  walk t (if Str.startswith "/" p then [] else cwd) (comps p).

(** The path [p] names a node, or runs into a regular file. *)
Definition present (t : fs) (p : string) : Prop :=
  walk_from t p = RErr NotADirectoryError \/
  exists k n, walk_from t p = ROk k /\ lookup t k = Some n.

(** The path of the node [p] names: the empty path names none, and a path
    with a trailing slash names no regular file. *)
Definition resolve (t : fs) (p : string) : res key :=
  if String.eqb p "" then RErr FileNotFoundError
  else match walk_from t p with
       | ROk k =>
           match lookup t k with
           | Some (File _) => if Str.endswith "/" p then RErr NotADirectoryError else ROk k
           | _ => ROk k
           end
       | e => e
       end.

(** [os.path.exists] and [os.path.isdir]: [False] on any [OSError]. *)
Definition path_exists (t : fs) (p : string) : bool :=
  match resolve t p with
  | ROk k => match lookup t k with Some _ => true | None => false end
  | _ => false
  end.

Definition isdir (t : fs) (p : string) : bool :=
  match resolve t p with
  | ROk k => match lookup t k with Some Dir => true | _ => false end
  | _ => false
  end.

(** [os.mkdir] *)
Definition mkdir (p : string) : M unit := fun t =>
  match resolve t p with
  | ROk k =>
      match lookup t k with
      | Some _ => (t, RErr FileExistsError)
      | None => ((k, Dir) :: t, ROk tt)
      end
  | RErr e => (t, RErr e)
  | ROut => (t, ROut)
  end.

(** [with open(p, 'w') as f: f.write(text)]: the file is created or
    truncated. *)
Definition write_file (p text : string) : M unit := fun t =>
  match resolve t p with
  | ROk k =>
      match lookup t k with
      | Some Dir => (t, RErr IsADirectoryError)
      | _ => if Str.endswith "/" p then (t, RErr IsADirectoryError)
             else ((k, File text) :: t, ROk tt)
      end
  | RErr e => (t, RErr e)
  | ROut => (t, ROut)
  end.

(** [try: mkdir(name) except OSError: if not path.isdir(name): raise] *)
Definition mkdir_exist_ok (name : string) : M unit := fun t =>
  let '(t1, r) := mkdir name t in
  match r with
  | RErr e => if isdir t1 name then (t1, ROk tt) else (t1, RErr e)
  | _ => (t1, r)
  end.

(** [os.makedirs(name, exist_ok=True)]: [fuel] bounds the recursion on the
    parent directory, whose path is shorter. *)
Fixpoint makedirs (fuel : nat) (name : string) : M unit :=
  match fuel with
  | O => fun t => (t, ROut)
  | S f =>
      let '(head, tail) := makedirs_split name in
      fun t =>
        if negb (String.eqb head "") && negb (String.eqb tail "") && negb (path_exists t head)
        then
          let '(t1, r) := makedirs f head t in
          match r with
          | ROk _ | RErr FileExistsError =>
              if String.eqb tail "." then (t1, ROk tt) else mkdir_exist_ok name t1
          | RErr e => (t1, RErr e)
          | ROut => (t1, ROut)
          end
        else mkdir_exist_ok name t
  end.

End Cwd.

End Os.

(* ------------------------------------------------------------------ *)
(** ** [WebsiteContentExtractor._save_to_separate_files] *)

Module SaveFiles.
Import Os.

(** [str(n)] *)
Definition py_str_nat (n : nat) : string := NilEmpty.string_of_uint (Nat.to_uint n).

(** [s.rsplit(sep, 1)[0]] for a non-empty [sep]: [s] up to the last
    occurrence of [sep], or [s]. *)
Fixpoint rfind_sub (sep s : string) (n : nat) : option nat :=
  match n with
  | O => None
  | S m => if String.prefix sep (Str.drop m s) then Some m else rfind_sub sep s m
  end.

Definition rsplit_head (sep s : string) : string :=
  match rfind_sub sep s (S (String.length s - String.length sep)) with
  | Some i => Str.take i s
  | None => s
  end.

(** [s.strip('/')] *)
Fixpoint lstrip_slash (s : string) : string :=
  match s with
  | String c r => if Ascii.eqb c "/" then lstrip_slash r else s
  | EmptyString => EmptyString
  end.

Definition strip_slash (s : string) : string := Str.rstrip "/" (lstrip_slash s).

Section Save.

Variable cwd : key.

(** The text written for a result: the front matter, with the time of
    [datetime.now()], and the content.  What follows does not depend on
    it. *)
Variable page_text : PageResult -> string.

(** [while os.path.exists(file_path): ...]: the first of [file_path],
    [base_1.md], [base_2.md], ... that does not exist. *)
Fixpoint free_name (t : fs) (fuel : nat) (original file_path : string) (counter : nat)
  : res string :=
  match fuel with
  | O => ROut
  | S f =>
      if path_exists cwd t file_path then
        free_name t f original
          (rsplit_head ".md" original ++ "_" ++ py_str_nat counter ++ ".md") (S counter)
      else ROk file_path
  end.

(** The file path of a page before the loop, from the path of its URL;
    the directories of the path are created. *)
Definition page_path (pages_dir url_path : string) : M string :=
  let path := strip_slash url_path in
  if String.eqb path "" then ret (path_join pages_dir ["index.md"])
  else
    let path_parts := Str2.split_on "/" path in
    let last_part := last path_parts "" in
    let html := Str.endswith ".html" last_part || Str.endswith ".htm" last_part in
    let '(dir_path, filename) :=
      if negb (Str.has "." last_part) || html then
        (if Nat.ltb 1 (length path_parts) then path_join pages_dir (removelast path_parts)
         else pages_dir,
         if html then rsplit_head "." last_part ++ ".md" else last_part ++ ".md")
      else (path_join pages_dir path_parts, "index.md") in
    mbind (if String.eqb dir_path pages_dir then ret tt
           else makedirs cwd (S (String.length dir_path)) dir_path)
          (fun _ => ret (path_join dir_path [filename])).

(** One iteration of the loop over the results: the paths saved. *)
Definition save_page (pages_dir : string) (result : PageResult) : M (list string) :=
  if truthy (r_content result) && negb (truthy (r_error result)) then
    match urlparse (r_url result) with
    | None => fun t => (t, RErr ValueError)
    | Some parsed_url =>
        mbind (page_path pages_dir (path parsed_url)) (fun file_path =>
        mbind (fun t => (t, free_name t (S (length t)) file_path file_path 1)) (fun fp =>
        mbind (makedirs cwd (S (String.length (dirname fp))) (dirname fp)) (fun _ =>
        mbind (write_file cwd fp (page_text result)) (fun _ =>
        ret [fp]))))
    end
  else ret [].

Fixpoint save_pages (pages_dir : string) (results : list PageResult) : M (list string) :=
  match results with
  | [] => ret []
  | r :: rs =>
      mbind (save_page pages_dir r) (fun s =>
      mbind (save_pages pages_dir rs) (fun s' => ret (s ++ s')%list))
  end.

(** [_save_to_separate_files(results, output_dir)], with [saved_files]
    as its result (the program only logs its length). *)
Definition save_to_separate_files (results : list PageResult) (output_dir : string)
  : M (list string) :=
  mbind (makedirs cwd (S (String.length output_dir)) output_dir) (fun _ =>
  let pages_dir := path_join output_dir ["pages"] in
  mbind (makedirs cwd (S (String.length pages_dir)) pages_dir) (fun _ =>
  save_pages pages_dir results)).

End Save.

End SaveFiles.

(** A run of [_save_to_separate_files]: [out/pages/a.md] exists already, and
    two pages map to it. *)
Definition save_fs0 : Os.fs :=
  [(["out"; "pages"; "a.md"], Os.File "kept"); (["out"; "pages"], Os.Dir); (["out"], Os.Dir)].

Definition save_page_result (u c : string) : PageResult :=
  {| r_url := u; r_title := None; r_content := Some c; r_error := None |}.

Definition save_results : list PageResult :=
  [save_page_result "https://example.com/a" "A"; save_page_result "https://example.com/a/" "B";
   save_page_result "https://example.com/" "Home";
   {| r_url := "https://example.com/b"; r_title := None; r_content := None;
      r_error := Some "HTTP 404" |}].

Definition save_run : Os.fs * Os.res (list string) :=
  SaveFiles.save_to_separate_files [] r_url save_results "out" save_fs0.

(* ------------------------------------------------------------------ *)
(** ** Helper lemmas *)

Example normalize_ex1 : normalize_url "https://example.com" = Some "https://example.com/".
Proof. reflexivity. Qed.
Example normalize_ex2 : normalize_url "https://example.com/docs/?q=1#x" = Some "https://example.com/docs".
Proof. reflexivity. Qed.
Example normalize_ex3 : normalize_url "HTTP://h/a;b" = Some "http://h/a".
Proof. reflexivity. Qed.

Example parse_sitemap_test_doc :
  parse_sitemap (Some test_parse_sitemap_doc) = Ok ["https://example.com/"; "https://example.com/about"].
Proof. vm_compute. reflexivity. Qed.

(* ------------------------------------------------------------------ *)
(** ** Claims about the Sitemap Reader and the Canonicalizer *)

(** C1: on an empty file and on the malformed document [<not-xml>],
    [parse_sitemap] raises [ParseError] (the exception of [ET.parse] is
    logged and re-raised) instead of returning an empty list. *)
Theorem C1_parse_sitemap_empty_or_malformed_raises :
  parse_sitemap (Some "") = Raise ParseError /\
  parse_sitemap (Some "<not-xml>") = Raise ParseError.
Proof. split; vm_compute; reflexivity. Qed.

(** C2: with an empty robots.txt, the crawler for [https://host] rejects
    [https://host/docs/api/admin-graphql] (its path contains [/api/]) and
    accepts [https://host/api]; link extraction turns [https://host/api/]
    into [https://host/api] and keeps it. *)
Theorem C2_is_valid_url_api_paths :
  mk_crawler "https://host" [] = Some host_crawler /\
  is_valid_url host_crawler "https://host/docs/api/admin-graphql" = Some false /\
  is_valid_url host_crawler "https://host/api" = Some true /\
  normalize_url "https://host/api/" = Some "https://host/api" /\
  extract_link host_crawler "https://host/api/" = Some (Some "https://host/api").
Proof. repeat split; vm_compute; reflexivity. Qed.

(** C5: the Canonicalizer is not idempotent on [https://host//]: the path
    [//] is stripped to the empty path, which the second pass turns into
    [/]. *)
Theorem C5_normalize_url_not_idempotent :
  normalize_url "https://host//" = Some "https://host" /\
  normalize_url "https://host" = Some "https://host/".
Proof. split; vm_compute; reflexivity. Qed.

(** C6: a sitemap index whose only child is served gzip-compressed (any
    stream starting with the gzip magic bytes) is flattened into a urlset
    with no [<url>] entry, and reading it gives the empty list: the child
    is parsed as XML without decompression, the [ParseError] is caught and
    the child is skipped. *)
Theorem C6_gzip_child_not_decompressed (rest : string) :
  download_sitemap (gz_session rest) "https://shopify.dev/sitemap.xml"
    = Ok (combined_header ++ "</urlset>") /\
  parse_sitemap (Some (combined_header ++ "</urlset>")) = Ok [].
Proof. split; vm_compute; reflexivity. Qed.

(** C7: the inline normalization of the Sitemap Reader is not the
    Canonicalizer.  It lacks the scheme guard of [_normalize_url]: on
    [ftp://h/x/] it drops the trailing slash where the Canonicalizer
    returns the URL unchanged, on [mailto:a@b] it writes [mailto://a@b],
    and a sitemap listing [ftp://h/x/] is read as [ftp://h/x]. *)
Theorem C7_inline_normalize_differs :
  sitemap_inline_normalize "ftp://h/x/" = Some "ftp://h/x" /\
  normalize_url "ftp://h/x/" = Some "ftp://h/x/" /\
  sitemap_inline_normalize "mailto:a@b" = Some "mailto://a@b" /\
  normalize_url "mailto:a@b" = Some "mailto:a@b" /\
  parse_sitemap (Some c7_doc) = Ok ["ftp://h/x"].
Proof. repeat split; vm_compute; reflexivity. Qed.

(** C8: the Sitemap Reader on the six [loc] entries of the example returns
    the three canonical URLs, first occurrence first. *)
Theorem C8_parse_sitemap_dedup_example :
  parse_sitemap (Some c8_doc) =
  Ok ["https://example.com/"; "https://example.com/docs"; "https://example.com/blog"].
Proof. vm_compute. reflexivity. Qed.

(* ------------------------------------------------------------------ *)
(** ** Claims about the orchestrator *)

(** C3: [process_website] has no augmentation parameter: the call of the
    augmentation test, with [augment_crawl=True], raises [TypeError]; the
    same call without it extracts the sitemap's single URL, and the
    crawler is not run. *)
Theorem C3_no_augmentation :
  call_process_website augment_env ["separate_files"; "output_path"; "augment_crawl"] None
    = Raise (TypeError "process_website() got an unexpected keyword argument") /\
  call_process_website augment_env ["separate_files"; "output_path"] None
    = Ok {| run_urls := ["https://shopify.dev/docs/api/admin-graphql"];
            run_source := "found"; run_prompted := false; run_crawled := false |}.
Proof. split; vm_compute; reflexivity. Qed.

(** C4: when a sitemap is found, a document that yields no URL never
    leads to the three-way choice: an empty or malformed file makes the
    run fail with [ParseError] (even though the user would answer [3]),
    and an empty urlset runs the extraction on no URL.  Only when no
    sitemap is found does answer [3] cancel with a [ValueError]. *)
Theorem C4_empty_sitemap_no_fallback :
  process_website no_sitemap_env None = Raise (ValueError "Operation cancelled by user") /\
  process_website (found_env "") None = Raise ParseError /\
  process_website (found_env "<not-xml>") None = Raise ParseError /\
  process_website (found_env empty_urlset_doc) None
    = Ok {| run_urls := []; run_source := "found"; run_prompted := false;
            run_crawled := false |}.
Proof. repeat split; vm_compute; reflexivity. Qed.

(* ------------------------------------------------------------------ *)
(** ** The crawl loop: invariants and termination *)

Lemma lexn_acc (n : nat) : forall b, length b = n -> Acc (lexn n) b.
Proof.
  induction n as [|n IHn]; intros b Hb.
  - constructor. intros a [Ha [_ Hlt]].
    destruct a; [|discriminate]. destruct b; [contradiction|discriminate].
  - destruct b as [|x xs]; [discriminate|]. injection Hb as Hxs.
    revert xs Hxs.
    induction x as [x IHx] using (well_founded_induction Wf_nat.lt_wf).
    intros xs Hxs. pose proof (IHn xs Hxs) as Hacc. revert Hxs.
    induction Hacc as [xs _ IHxs]. intros Hxs.
    constructor. intros a [Ha [_ Hlt]].
    destruct a as [|y ys]; [discriminate|]. injection Ha as Hys.
    destruct Hlt as [Hlt|[Heq Hlt]].
    + apply IHx; assumption.
    + subst y. apply IHxs; [repeat split; assumption|assumption].
Qed.

Lemma lexn_wf (n : nat) : well_founded (lexn n).
Proof.
  intros b. destruct (Nat.eq_dec (length b) n) as [E|E].
  - apply lexn_acc; exact E.
  - constructor. intros a [_ [Hb _]]. contradiction.
Qed.

Lemma lex_lt_map_seq (f g : nat -> nat) (m : nat) :
  forall s b, s <= b < s + m ->
  (forall i, s <= i < b -> f i = g i) -> f b < g b ->
  lex_lt (map f (seq s m)) (map g (seq s m)).
Proof.
  induction m as [|m IHm]; intros s b Hb Heq Hlt; [lia|].
  simpl. destruct (Nat.eq_dec b s) as [->|Hne].
  - left. exact Hlt.
  - right. split.
    + apply Heq. lia.
    + apply (IHm (S s) b); [lia| |exact Hlt]. intros i Hi. apply Heq. lia.
Qed.

Lemma cnt_app (K : nat) (q r : list (string * nat)) (i : nat) :
  cnt K (q ++ r)%list i = cnt K q i + cnt K r i.
Proof. unfold cnt. rewrite filter_app, length_app. reflexivity. Qed.

Lemma cnt_cons (K : nat) (u : string) (d : nat) (q : list (string * nat)) (i : nat) :
  cnt K ((u, d) :: q) i = (if Nat.eqb (bucket K d) i then 1 else 0) + cnt K q i.
Proof. unfold cnt. simpl. destruct (Nat.eqb (bucket K d) i); reflexivity. Qed.

Lemma cnt_new (K d i : nat) (new : list string) :
  S d <= K -> i <= d -> cnt K (map (fun l => (l, S d)) new) i = 0.
Proof.
  intros HK Hi. unfold cnt. induction new as [|l r IH]; [reflexivity|].
  cbn [map filter snd].
  replace (Nat.eqb (bucket K (S d)) i) with false; [exact IH|].
  symmetry. apply Nat.eqb_neq. unfold bucket. lia.
Qed.

Lemma enqueue_links_queue (links : list string) (d : nat) :
  forall st, exists new,
    queue (enqueue_links links d st) = (queue st ++ map (fun l => (l, d)) new)%list.
Proof.
  induction links as [|l r IH]; intros st; simpl.
  - exists []. rewrite app_nil_r. reflexivity.
  - destruct (str_mem l (visited st)).
    + apply IH.
    + destruct (IH {| queue := queue st ++ [(l, d)]; visited := visited st ++ [l];
                      discovered := discovered st; fetched := fetched st;
                      enqueued := enqueued st ++ [l] |}) as [new Hnew].
      exists (l :: new). rewrite Hnew. simpl. rewrite <- app_assoc. reflexivity.
Qed.

Lemma enqueue_links_discovered (links : list string) (d : nat) :
  forall st, discovered (enqueue_links links d st) = discovered st.
Proof.
  induction links as [|l r IH]; intros st; simpl; [reflexivity|].
  destruct (str_mem l (visited st)); rewrite IH; reflexivity.
Qed.

Section CrawlProofs.

Variable fetch : string -> option Page.
Variable max_depth : Z.
Variable max_pages : Z.

Lemma crawl_step_queue (st : CState) (u : string) (d : nat) (q : list (string * nat)) :
  queue st = (u, d) :: q ->
  exists new, queue (crawl_step fetch max_depth st) = (q ++ map (fun l => (l, S d)) new)%list /\
              (new = [] \/ (Z.of_nat d < max_depth)%Z).
Proof.
  intros Hq. unfold crawl_step. rewrite Hq.
  destruct (max_depth <? Z.of_nat d)%Z eqn:Hdeep.
  - exists []. simpl. rewrite app_nil_r. auto.
  - destruct (fetch u) as [pg|]; [|exists []; simpl; rewrite app_nil_r; auto].
    destruct (page_ok pg); [|exists []; simpl; rewrite app_nil_r; auto].
    destruct (Z.of_nat d <? max_depth)%Z eqn:Hlt;
      [|exists []; simpl; rewrite app_nil_r; auto].
    destruct (page_links pg) as [links|]; [|exists []; simpl; rewrite app_nil_r; auto].
    destruct (enqueue_links_queue links (S d)
                {| queue := q; visited := visited st; discovered := discovered st ++ [u];
                   fetched := fetched st ++ [u]; enqueued := enqueued st |}) as [new Hnew].
    exists new. split; [exact Hnew|]. right. apply Z.ltb_lt. exact Hlt.
Qed.

Lemma crawl_step_decreases (st : CState) (u : string) (d : nat) (q : list (string * nat)) :
  queue st = (u, d) :: q -> lexn (S (depth_buckets max_depth)) (meas (depth_buckets max_depth) (queue (crawl_step fetch max_depth st))) (meas (depth_buckets max_depth) (queue st)).
Proof.
  intros Hq. destruct (crawl_step_queue st u d q Hq) as [new [Hq' Hnew]].
  unfold lexn, meas. rewrite !length_map, !length_seq. split; [reflexivity|split; [reflexivity|]].
  rewrite Hq', Hq.
  apply (lex_lt_map_seq _ _ (S (depth_buckets max_depth)) 0 (bucket (depth_buckets max_depth) d)).
  - unfold bucket. lia.
  - intros i Hi. rewrite cnt_app, cnt_cons.
    replace (Nat.eqb (bucket (depth_buckets max_depth) d) i) with false by (symmetry; apply Nat.eqb_neq; lia).
    destruct Hnew as [->|Hlt]; [cbn [map]; unfold cnt at 2; cbn [filter length]; lia|].
    rewrite cnt_new; [lia| |unfold bucket in Hi; lia]. unfold depth_buckets. lia.
  - rewrite cnt_app, cnt_cons, Nat.eqb_refl.
    destruct Hnew as [->|Hlt]; [cbn [map]; unfold cnt at 2; cbn [filter length]; lia|].
    assert (Hd : bucket (depth_buckets max_depth) d = d) by (unfold bucket, depth_buckets; lia).
    rewrite Hd, cnt_new; [lia| |lia]. unfold depth_buckets. lia.
Qed.

Lemma guard_true_queue (st : CState) :
  guard max_pages st = true -> exists u d q, queue st = (u, d) :: q.
Proof.
  unfold guard. destruct (queue st) as [|[u d] q]; [discriminate|]. eauto.
Qed.

Lemma crawl_loop_terminates (st : CState) :
  exists n st', crawl_loop fetch max_depth max_pages n st = Some st'.
Proof.
  remember (meas (depth_buckets max_depth) (queue st)) as m eqn:Hm. revert st Hm.
  induction (lexn_wf (S (depth_buckets max_depth)) m) as [m _ IH]. intros st Hm.
  destruct (guard max_pages st) eqn:G.
  - destruct (guard_true_queue st G) as [u [d [q Hq]]].
    destruct (IH (meas (depth_buckets max_depth) (queue (crawl_step fetch max_depth st))) ltac:(subst m; apply (crawl_step_decreases st u d q Hq))
                 (crawl_step fetch max_depth st) eq_refl) as [n [st' Hrun]].
    exists (S n), st'. simpl. rewrite G. exact Hrun.
  - exists 1, st. simpl. rewrite G. reflexivity.
Qed.

(** Whatever holds initially and is kept by every iteration of the loop
    body holds when the loop stops, and then the [while] test is false. *)
Lemma crawl_loop_invariant (P : CState -> Prop) :
  (forall st, P st -> guard max_pages st = true -> P (crawl_step fetch max_depth st)) ->
  forall n st st', P st -> crawl_loop fetch max_depth max_pages n st = Some st' ->
  P st' /\ guard max_pages st' = false.
Proof.
  intros Hstep n. induction n as [|n IH]; intros st st' Hst Hrun; [discriminate|].
  simpl in Hrun. destruct (guard max_pages st) eqn:G.
  - apply (IH (crawl_step fetch max_depth st)); [apply Hstep; assumption|exact Hrun].
  - injection Hrun as <-. split; assumption.
Qed.

End CrawlProofs.

Lemma str_mem_false (x : string) (l : list string) : str_mem x l = false -> ~ In x l.
Proof.
  unfold str_mem. intros H Hin.
  assert (existsb (String.eqb x) l = true) as Ht.
  { apply existsb_exists. exists x. split; [exact Hin|apply String.eqb_refl]. }
  congruence.
Qed.

Lemma crawl_inv_append (st : CState) (l : string) (d : nat) :
  crawl_inv st -> ~ In l (visited st) ->
  crawl_inv {| queue := queue st ++ [(l, d)]; visited := visited st ++ [l];
               discovered := discovered st; fetched := fetched st;
               enqueued := enqueued st ++ [l] |}.
Proof.
  intros [H1 [H2 [H3 H4]]] Hl. unfold crawl_inv; cbn [queue visited discovered enqueued].
  rewrite <- H2. repeat split.
  - rewrite <- H2 in H1. apply NoDup_app; [exact H1|constructor; [intros []|constructor]|].
    intros a Ha [<-|[]]. contradiction.
  - rewrite map_app, app_assoc. apply NoDup_app; [exact H3|constructor; [intros []|constructor]|].
    intros a Ha [<-|[]]. apply Hl, H4, Ha.
  - intros x Hx. rewrite map_app, app_assoc in Hx. apply in_app_or in Hx.
    apply in_or_app. destruct Hx as [Hx|Hx]; [left; apply H4, Hx|right; exact Hx].
Qed.

Lemma enqueue_links_inv (links : list string) (d : nat) :
  forall st, crawl_inv st -> crawl_inv (enqueue_links links d st).
Proof.
  induction links as [|l r IH]; intros st Hinv; simpl; [exact Hinv|].
  destruct (str_mem l (visited st)) eqn:Hm.
  - apply IH, Hinv.
  - apply IH, crawl_inv_append; [exact Hinv|apply str_mem_false, Hm].
Qed.

Section CrawlClaims.

Variable fetch : string -> option Page.
Variable max_depth : Z.
Variable max_pages : Z.

Lemma crawl_step_inv (st : CState) : crawl_inv st -> crawl_inv (crawl_step fetch max_depth st).
Proof.
  intros Hinv. pose proof Hinv as [H1 [H2 [H3 H4]]].
  unfold crawl_step. destruct (queue st) as [|[u d] q] eqn:Hq; [exact Hinv|].
  cbn [map fst] in H3, H4.
  (* the state with [(u, d)] dropped from the frontier, [u] not discovered *)
  assert (Hdrop : forall f, crawl_inv {| queue := q; visited := visited st;
                     discovered := discovered st; fetched := f; enqueued := enqueued st |}).
  { intros f. unfold crawl_inv; cbn [queue visited discovered enqueued].
    repeat split; [exact H1|exact H2|apply (NoDup_remove_1 _ _ u H3)|].
    intros x Hx. apply H4. apply in_app_or in Hx. apply in_or_app.
    destruct Hx as [Hx|Hx]; [left; exact Hx|right; right; exact Hx]. }
  (* the state with [u] moved from the frontier to the discovered pages *)
  assert (Hmove : crawl_inv {| queue := q; visited := visited st;
                     discovered := discovered st ++ [u]; fetched := fetched st ++ [u];
                     enqueued := enqueued st |}).
  { unfold crawl_inv; cbn [queue visited discovered enqueued].
    rewrite <- app_assoc. repeat split; [exact H1|exact H2|exact H3|exact H4]. }
  destruct (max_depth <? Z.of_nat d)%Z; [apply Hdrop|].
  destruct (fetch u) as [pg|]; [|apply Hdrop].
  destruct (page_ok pg); [|apply Hdrop].
  destruct (Z.of_nat d <? max_depth)%Z; [|exact Hmove].
  destruct (page_links pg) as [links|]; [|exact Hmove].
  apply enqueue_links_inv, Hmove.
Qed.

Lemma crawl_init_inv (start_url : string) : crawl_inv (crawl_init start_url).
Proof.
  unfold crawl_inv, crawl_init; cbn [queue visited discovered enqueued map fst app].
  repeat split.
  - constructor; [intros []|constructor].
  - constructor; [intros []|constructor].
  - intros x Hx. exact Hx.
Qed.

Lemma crawl_step_discovered (st : CState) :
  length (discovered (crawl_step fetch max_depth st)) <= S (length (discovered st)).
Proof.
  unfold crawl_step. destruct (queue st) as [|[u d] q]; [lia|].
  destruct (max_depth <? Z.of_nat d)%Z; [simpl; lia|].
  destruct (fetch u) as [pg|]; [|simpl; lia].
  destruct (page_ok pg); [|simpl; lia].
  destruct (Z.of_nat d <? max_depth)%Z; [|simpl; rewrite length_app; simpl; lia].
  destruct (page_links pg) as [links|]; [|simpl; rewrite length_app; simpl; lia].
  rewrite enqueue_links_discovered. simpl. rewrite length_app. simpl. lia.
Qed.

(** C9: in every crawl run, the log of URLs appended to the frontier
    (the start URL included) has no repetition and is exactly the visited
    set, so no URL is enqueued twice; the discovered pages returned by the
    crawl contain no URL twice. *)
Theorem C9_crawl_enqueues_once (n : nat) (start_url : string) (st' : CState) :
  crawl_loop fetch max_depth max_pages n (crawl_init start_url) = Some st' ->
  NoDup (enqueued st') /\ visited st' = enqueued st' /\ NoDup (discovered st').
Proof.
  intros Hrun.
  destruct (crawl_loop_invariant fetch max_depth max_pages crawl_inv
              (fun st Hst _ => crawl_step_inv st Hst) n _ st' (crawl_init_inv start_url) Hrun)
    as [[H1 [H2 [H3 _]]] _].
  repeat split; [exact H1|exact H2|apply (NoDup_app_remove_r _ _ H3)].
Qed.

(** C10 (amended): every crawl run stops; when it stops the frontier is
    empty or the number of discovered pages has reached [max_pages]; the
    crawl returns the discovered pages, at most [max(max_pages, 0)] of
    them; and a frontier entry deeper than [max_depth] is dropped without
    being fetched or recorded. *)
Theorem C10_crawl_terminates_within_cap (start_url : string) :
  (exists n st',
     crawl_loop fetch max_depth max_pages n (crawl_init start_url) = Some st' /\
     crawl fetch max_depth max_pages n start_url = Some (discovered st') /\
     (queue st' = [] \/ (max_pages <= Z.of_nat (length (discovered st')))%Z) /\
     (Z.of_nat (length (discovered st')) <= Z.max 0 max_pages)%Z) /\
  (forall st u d q, queue st = (u, d) :: q -> (max_depth < Z.of_nat d)%Z ->
     crawl_step fetch max_depth st = with_queue st q).
Proof.
  split.
  - destruct (crawl_loop_terminates fetch max_depth max_pages (crawl_init start_url))
      as [n [st' Hrun]].
    exists n, st'. split; [exact Hrun|]. split; [unfold crawl; rewrite Hrun; reflexivity|].
    destruct (crawl_loop_invariant fetch max_depth max_pages
                (fun st => Z.of_nat (length (discovered st)) <= Z.max 0 max_pages)%Z)
      with (n := n) (st := crawl_init start_url) (st' := st') as [Hlen Hstop].
    + intros st Hst G. pose proof (crawl_step_discovered st) as Hs.
      unfold guard in G. destruct (queue st); [discriminate|].
      apply Z.ltb_lt in G. lia.
    + simpl. lia.
    + exact Hrun.
    + split; [|exact Hlen].
      unfold guard in Hstop. destruct (queue st'); [left; reflexivity|right].
      apply Z.ltb_ge in Hstop. exact Hstop.
  - intros st u d q Hq Hdeep. unfold crawl_step. rewrite Hq.
    apply Z.ltb_lt in Hdeep. rewrite Hdeep. reflexivity.
Qed.

End CrawlClaims.

(** C9 at the crawl of [small_site] from [https://s/]. *)
Lemma C9_crawl_enqueues_once_witness :
  crawl_loop small_site 3 10 10 (crawl_init "https://s/") = Some small_site_final /\
  NoDup (enqueued small_site_final) /\ visited small_site_final = enqueued small_site_final /\
  NoDup (discovered small_site_final).
Proof.
  split; [vm_compute; reflexivity|].
  apply (C9_crawl_enqueues_once small_site 3 10 10 "https://s/").
  vm_compute. reflexivity.
Defined.

(** C10 (counterexample): with [max_pages = -1] (the command line accepts
    any integer) the crawl returns the empty list, whose length 0 exceeds
    the cap. *)
Lemma C10_negative_cap_exceeded :
  ~ (forall fetch max_depth max_pages n start_url r,
       crawl fetch max_depth max_pages n start_url = Some r ->
       (Z.of_nat (length r) <= max_pages)%Z).
Proof.
  intros H.
  specialize (H small_site 3%Z (-1)%Z 1 "https://s/" [] ltac:(vm_compute; reflexivity)).
  simpl in H. lia.
Qed.

(* ------------------------------------------------------------------ *)
(** ** [extract_domain_name], [_get_robots_disallow], [_clean_markdown] *)

Lemma has_app (c : ascii) (a b : string) :
  Str.has c (a ++ b) = Str.has c a || Str.has c b.
Proof.
  induction a as [|d a IH]; simpl; [reflexivity|].
  rewrite IH. apply orb_assoc.
Qed.

Lemma split_on_no_sep (c : ascii) (s : string) :
  forall p, In p (Str2.split_on c s) -> Str.has c p = false.
Proof.
  induction s as [|d s IH]; simpl; intros p Hp.
  - destruct Hp as [<-|[]]. reflexivity.
  - destruct (Ascii.eqb d c) eqn:Hd.
    + destruct Hp as [<-|Hp]; [reflexivity|]. apply IH, Hp.
    + destruct (Str2.split_on c s) as [|p0 ps] eqn:Hs.
      * destruct Hp as [<-|[]]. simpl. rewrite Ascii.eqb_sym, Hd. reflexivity.
      * destruct Hp as [<-|Hp].
        -- simpl. rewrite Ascii.eqb_sym, Hd. apply IH. left. reflexivity.
        -- apply IH. right. exact Hp.
Qed.

Lemma join_no_char (c : ascii) (sep : string) (l : list string) :
  Str.has c sep = false -> (forall p, In p l -> Str.has c p = false) ->
  Str.has c (Str2.join sep l) = false.
Proof.
  intros Hsep. induction l as [|x [|y r] IH]; intros Hl.
  - reflexivity.
  - apply Hl. left. reflexivity.
  - change (Str.has c (x ++ sep ++ Str2.join sep (y :: r)) = false).
    rewrite !has_app, Hsep, (Hl x (or_introl eq_refl)). simpl.
    apply IH. intros p Hp. apply Hl. right. exact Hp.
Qed.

(** The name [extract_domain_name] returns never contains a dot: the
    labels are split on ['.'] and joined with ['_']. *)
Theorem extract_domain_name_no_dot (url r : string) :
  extract_domain_name url = Some r -> Str.has "." r = false.
Proof.
  unfold extract_domain_name. destruct (urlparse url) as [parsed|]; [|discriminate].
  set (parts := Str2.split_on "." (Str2.remove_www (netloc parsed))).
  assert (Hparts : forall p, In p parts -> Str.has "." p = false)
    by apply split_on_no_sep.
  set (f := fun part => negb (str_mem part common_tlds) && negb (str_mem part common_subdomains)).
  destruct (filter f parts) as [|x xs] eqn:Hf.
  - destruct parts as [|p ps] eqn:Hp; intros H; injection H as <-.
    + reflexivity.
    + apply Hparts. left. reflexivity.
  - intros H. assert (Hr : r = Str2.join "_" (x :: xs)) by congruence. subst r.
    rewrite <- Hf. apply join_no_char; [reflexivity|].
    intros p Hin. apply filter_In in Hin. apply Hparts, Hin.
Qed.

Lemma extract_domain_name_no_dot_witness :
  extract_domain_name "https://www.example.com" = Some "example" /\
  Str.has "." "example" = false.
Proof.
  split; [vm_compute; reflexivity|].
  apply (extract_domain_name_no_dot "https://www.example.com"). vm_compute. reflexivity.
Defined.

(** A URL without a network location, such as a host name given without
    scheme, gives the empty name. *)
Theorem extract_domain_name_empty_netloc (url : string) (p : ParseResult) :
  urlparse url = Some p -> netloc p = "" -> extract_domain_name url = Some "".
Proof.
  intros Hp Hn. unfold extract_domain_name. rewrite Hp, Hn. reflexivity.
Qed.

Lemma extract_domain_name_empty_netloc_witness :
  (exists p, urlparse "example.com" = Some p /\ netloc p = "") /\
  extract_domain_name "example.com" = Some "".
Proof.
  split.
  - eexists. split; [vm_compute; reflexivity|]. reflexivity.
  - apply (extract_domain_name_empty_netloc "example.com"
             {| scheme := ""; netloc := ""; path := "example.com";
                params := ""; query := ""; fragment := "" |}).
    + vm_compute. reflexivity.
    + reflexivity.
Defined.

(** No path read from robots.txt is empty, so a [Disallow:] line without a
    value never blocks a URL (every path starts with the empty string). *)
Theorem get_robots_disallow_nonempty (response : option (nat * string)) (d : string) :
  In d (get_robots_disallow response) -> d <> "".
Proof.
  unfold get_robots_disallow.
  destruct response as [[code text]|]; [|intros []].
  destruct (Nat.eqb code 200); [|intros []]. unfold disallow_lines.
  assert (Hgen : forall ls acc, (forall x, In x acc -> x <> "") ->
    forall x, In x (fold_left (fun disallowed line =>
      if Str.startswith "disallow:" (Str.lower (Str.strip line)) then
        let path := Str.strip (snd (Str.split1 ":" line)) in
        if String.eqb path "" then disallowed else app disallowed [path]
      else disallowed) ls acc) -> x <> "").
  { induction ls as [|ln ls IH]; simpl; intros acc Hacc; [exact Hacc|].
    apply IH. destruct (Str.startswith _ _); [|exact Hacc].
    destruct (String.eqb (Str.strip (snd (Str.split1 ":" ln))) "") eqn:He; [exact Hacc|].
    intros x Hx. apply in_app_or in Hx. destruct Hx as [Hx|[<-|[]]]; [apply Hacc, Hx|].
    intros E. rewrite E in He. discriminate. }
  apply Hgen. intros x [].
Qed.

Lemma get_robots_disallow_nonempty_witness :
  In "/private" (get_robots_disallow (Some (200, "Disallow:" ++ NL ++ "Disallow: /private"))) /\
  "/private" <> "".
Proof.
  split; [vm_compute; tauto|].
  apply (get_robots_disallow_nonempty (Some (200, "Disallow:" ++ NL ++ "Disallow: /private"))).
  vm_compute. tauto.
Defined.

Module CleanProofs.
Import Clean.
Local Open Scope nat_scope.
Local Open Scope list_scope.

Lemma is_nl_true (c : ascii) : is_nl c = true -> c = nl.
Proof. unfold is_nl. apply Ascii.eqb_eq. Qed.

Lemma lstrip_by_spec p2 p3 : forall n l, length l <= n ->
  (exists p, l = p ++ Str.lstrip_by p2 p3 l) /\
  Str.space_head_by p2 p3 (Str.lstrip_by p2 p3 l) = false.
Proof.
  induction n as [|n IH]; intros l Hl.
  - destruct l as [|a l]; [split; [exists []; reflexivity|reflexivity]|cbn [length] in Hl; lia].
  - destruct l as [|a r]; [split; [exists []; reflexivity|reflexivity]|].
    cbn [length] in Hl. cbn [Str.lstrip_by]. destruct (Str.is_space a) eqn:H1.
    { destruct (IH r ltac:(lia)) as [[p Hp] Hw]. split; [|exact Hw].
      exists (a :: p). cbn [app]. f_equal. exact Hp. }
    destruct r as [|b r2].
    { split; [exists []; reflexivity|cbn [Str.space_head_by]; rewrite H1; reflexivity]. }
    destruct (p2 a b) eqn:H2.
    { cbn [length] in Hl. destruct (IH r2 ltac:(lia)) as [[p Hp] Hw]. split; [|exact Hw].
      exists (a :: b :: p). cbn [app]. rewrite <- Hp. reflexivity. }
    destruct r2 as [|c r3].
    { split; [exists []; reflexivity|cbn [Str.space_head_by]; rewrite H1, H2; reflexivity]. }
    destruct (p3 a b c) eqn:H3.
    { cbn [length] in Hl. destruct (IH r3 ltac:(lia)) as [[p Hp] Hw]. split; [|exact Hw].
      exists (a :: b :: c :: p). cbn [app]. rewrite <- Hp. reflexivity. }
    split; [exists []; reflexivity|cbn [Str.space_head_by]; rewrite H1, H2, H3; reflexivity].
Qed.

Lemma space_head_app p2 p3 (x y : list ascii) :
  Str.space_head_by p2 p3 x = true -> Str.space_head_by p2 p3 (x ++ y) = true.
Proof.
  destruct x as [|a [|b [|c x]]]; cbn [Str.space_head_by app]; intros H;
    [discriminate| | |exact H].
  - rewrite orb_false_r in H. rewrite H. reflexivity.
  - rewrite orb_false_r in H. apply orb_true_iff in H as [H|H]; rewrite H; [reflexivity|].
    rewrite orb_true_r. reflexivity.
Qed.

Lemma starts_space_app (x y : list ascii) :
  Str.starts_space x = true -> Str.starts_space (x ++ y) = true.
Proof. apply space_head_app. Qed.

Lemma ends_space_app (x y : list ascii) :
  Str.ends_space y = true -> Str.ends_space (x ++ y) = true.
Proof. unfold Str.ends_space. rewrite rev_app_distr. apply space_head_app. Qed.

Lemma lstrip_suffix (m : list ascii) : exists p, m = p ++ lstrip m.
Proof. exact (proj1 (lstrip_by_spec _ _ (length m) m (le_n _))). Qed.

Lemma lstrip_starts (m : list ascii) : Str.starts_space (lstrip m) = false.
Proof. exact (proj2 (lstrip_by_spec _ _ (length m) m (le_n _))). Qed.

Lemma rstrip_prefix (m : list ascii) : exists t, m = rstrip m ++ t.
Proof.
  destruct (proj1 (lstrip_by_spec Str.is_space2_rev Str.is_space3_rev _ (rev m) (le_n _)))
    as [p Hp].
  exists (rev p). unfold rstrip, Str.rstrip_bytes.
  rewrite <- rev_app_distr, <- Hp, rev_involutive. reflexivity.
Qed.

Lemma rstrip_ends (m : list ascii) : Str.ends_space (rstrip m) = false.
Proof.
  unfold Str.ends_space, rstrip, Str.rstrip_bytes. rewrite rev_involutive.
  exact (proj2 (lstrip_by_spec _ _ _ (rev m) (le_n _))).
Qed.

Lemma rstrip_no_nl (x : list ascii) : no_nl x = true -> no_nl (rstrip x) = true.
Proof.
  intros H. destruct (rstrip_prefix x) as [t Ht]. unfold no_nl in *.
  rewrite Ht, forallb_app in H. apply andb_prop in H. apply H.
Qed.

Lemma split_lines_cons (x : list ascii) : exists p ps, split_lines x = p :: ps.
Proof.
  destruct x as [|c x]; cbn [split_lines]; [eauto|].
  destruct (is_nl c); [eauto|]. destruct (split_lines x); eauto.
Qed.

Lemma split_lines_app_nl (x y : list ascii) :
  split_lines (x ++ nl :: y) = split_lines x ++ split_lines y.
Proof.
  induction x as [|c x IH].
  - reflexivity.
  - cbn [app split_lines]. rewrite IH. destruct (is_nl c); [reflexivity|].
    destruct (split_lines_cons x) as (p & ps & E). rewrite E. reflexivity.
Qed.

Lemma split_lines_of_no_nl (x : list ascii) : no_nl x = true -> split_lines x = [x].
Proof.
  induction x as [|c x IH]; intros H; [reflexivity|].
  unfold no_nl in H. cbn [forallb] in H. apply andb_prop in H as [Hc H].
  apply negb_true_iff in Hc. cbn [split_lines]. rewrite Hc, IH by exact H. reflexivity.
Qed.

Lemma lines_ok_app_nl (x y : list ascii) : lines_ok (x ++ nl :: y) = lines_ok x && lines_ok y.
Proof. unfold lines_ok. rewrite split_lines_app_nl, forallb_app. reflexivity. Qed.

Lemma lines_ok_nl (y : list ascii) : lines_ok (nl :: y) = lines_ok y.
Proof. exact (lines_ok_app_nl [] y). Qed.

Lemma lines_ok_no_nl (x : list ascii) : no_nl x = true -> lines_ok x = negb (Str.ends_space x).
Proof.
  intros H. unfold lines_ok. rewrite split_lines_of_no_nl by exact H.
  cbn [forallb]. apply andb_true_r.
Qed.

Lemma lines_ok_nls (m : nat) (y : list ascii) : lines_ok (nls m ++ y) = lines_ok y.
Proof.
  induction m as [|m IH]; [reflexivity|].
  change (nls (S m) ++ y) with (nl :: nls m ++ y). rewrite lines_ok_nl. exact IH.
Qed.

Lemma lines_ok_nls_any (pre : list ascii) (n k : nat) (l : list ascii) :
  0 < n -> 0 < k ->
  lines_ok (pre ++ nls n ++ l) = lines_ok (pre ++ nls k ++ l).
Proof.
  intros Hn Hk. destruct n as [|n]; [lia|]. destruct k as [|k]; [lia|].
  change (nls (S n) ++ l) with (nl :: nls n ++ l). change (nls (S k) ++ l) with (nl :: nls k ++ l).
  rewrite !lines_ok_app_nl, !lines_ok_nls. reflexivity.
Qed.

Lemma nls_snoc (n : nat) (r : list ascii) : nls n ++ nl :: r = nls (S n) ++ r.
Proof.
  induction n as [|n IH]; [reflexivity|]. simpl. f_equal. exact IH.
Qed.

Lemma cap_pos (n : nat) : 0 < n -> 0 < (if 3 <=? n then 2 else n).
Proof. intros H. destruct (3 <=? n); lia. Qed.

Lemma collapse_lines_ok (l : list ascii) :
  forall n pre, lines_ok (pre ++ nls n ++ l) = true ->
  lines_ok (pre ++ collapse n l) = true.
Proof.
  induction l as [|c r IH]; intros n pre H.
  - change (collapse n []) with (nls (if 3 <=? n then 2 else n)).
    destruct n as [|n]; [exact H|].
    rewrite <- (app_nil_r (nls _)).
    rewrite (lines_ok_nls_any pre _ (S n)); [exact H| |lia]. exact (cap_pos (S n) ltac:(lia)).
  - change (collapse n (c :: r)) with
      (if is_nl c then collapse (S n) r
       else nls (if 3 <=? n then 2 else n) ++ c :: collapse 0 r).
    destruct (is_nl c) eqn:Hc.
    + apply is_nl_true in Hc. subst c. apply IH. rewrite <- nls_snoc. exact H.
    + replace (pre ++ nls (if 3 <=? n then 2 else n) ++ c :: collapse 0 r)
        with ((pre ++ nls (if 3 <=? n then 2 else n) ++ [c]) ++ collapse 0 r)
        by (rewrite <- !app_assoc; reflexivity).
      apply IH. change (nls 0) with (@nil ascii). rewrite app_nil_l, <- !app_assoc.
      simpl app. destruct n as [|n]; [exact H|].
      rewrite (lines_ok_nls_any pre _ (S n)); [exact H| |lia]. exact (cap_pos (S n) ltac:(lia)).
Qed.

Lemma join_lines_ok (ls : list (list ascii)) :
  (forall x, In x ls -> no_nl x = true /\ Str.ends_space x = false) ->
  lines_ok (join_lines ls) = true.
Proof.
  induction ls as [|x [|y r] IH]; intros H.
  - reflexivity.
  - destruct (H x (or_introl eq_refl)) as [Hx He]. cbn [join_lines].
    rewrite lines_ok_no_nl, He by exact Hx. reflexivity.
  - change (join_lines (x :: y :: r)) with (x ++ nl :: join_lines (y :: r)).
    rewrite lines_ok_app_nl. destruct (H x (or_introl eq_refl)) as [Hx He].
    rewrite lines_ok_no_nl, He by exact Hx. apply IH.
    intros z Hz. apply H. right. exact Hz.
Qed.

Lemma lines_ok_cons (c : ascii) (z : list ascii) :
  is_nl c = false -> lines_ok (c :: z) = true -> lines_ok z = true.
Proof.
  unfold lines_ok. intros Hc. destruct (split_lines_cons z) as (p & ps & E).
  cbn [split_lines]. rewrite Hc, E. cbn [forallb].
  intros H. apply andb_prop in H as [H1 H2]. rewrite H2, andb_true_r.
  destruct (Str.ends_space p) eqn:Ep; [|reflexivity].
  assert (Ec := ends_space_app [c] p Ep). cbn [app] in Ec. rewrite Ec in H1. discriminate.
Qed.

Lemma lines_ok_suffix (p s : list ascii) : lines_ok (p ++ s) = true -> lines_ok s = true.
Proof.
  induction p as [|c p IH]; [tauto|]. intros H. apply IH.
  destruct (is_nl c) eqn:Hc.
  - apply is_nl_true in Hc. subst c. cbn [app] in H. rewrite lines_ok_nl in H. exact H.
  - exact (lines_ok_cons c (p ++ s) Hc H).
Qed.

Lemma last_line (q : list ascii) :
  no_nl q = true \/ exists x y, q = x ++ nl :: y /\ no_nl y = true.
Proof.
  induction q as [|c q IH]; [left; reflexivity|].
  destruct IH as [H|(x & y & -> & Hy)].
  - destruct (is_nl c) eqn:Hc.
    + right. exists [], q. apply is_nl_true in Hc. subst c. split; [reflexivity|exact H].
    + left. unfold no_nl in *. cbn [forallb]. rewrite Hc, H. reflexivity.
  - right. exists (c :: x), y. split; [reflexivity|exact Hy].
Qed.

Lemma lines_ok_prefix (q t : list ascii) :
  lines_ok (q ++ t) = true -> Str.ends_space q = false -> lines_ok q = true.
Proof.
  intros H He. destruct (last_line q) as [Hq|(x & y & -> & Hy)].
  - rewrite lines_ok_no_nl, He by exact Hq. reflexivity.
  - rewrite <- app_assoc in H. cbn [app] in H. rewrite lines_ok_app_nl in H |- *.
    apply andb_prop in H as [H1 _]. rewrite H1, lines_ok_no_nl by exact Hy.
    destruct (Str.ends_space y) eqn:Ey; [|reflexivity].
    assert (E : x ++ nl :: y = (x ++ [nl]) ++ y) by (rewrite <- app_assoc; reflexivity).
    rewrite E, (ends_space_app (x ++ [nl]) y Ey) in He. discriminate.
Qed.

Lemma split_lines_no_nl (l : list ascii) : forall x, In x (split_lines l) -> no_nl x = true.
Proof.
  induction l as [|c l IH]; simpl; intros x Hx.
  - destruct Hx as [<-|[]]. reflexivity.
  - destruct (is_nl c) eqn:Hc.
    + destruct Hx as [<-|Hx]; [reflexivity|]. apply IH, Hx.
    + destruct (split_lines l) as [|p ps] eqn:Hs.
      * destruct Hx as [<-|[]]. unfold no_nl. simpl. rewrite Hc. reflexivity.
      * destruct Hx as [<-|Hx].
        -- unfold no_nl. simpl. rewrite Hc. apply IH. left. reflexivity.
        -- apply IH. right. exact Hx.
Qed.

Lemma nl_runs_mono (l : list ascii) :
  forall k k', k' <= k -> nl_runs_ok k l = true -> nl_runs_ok k' l = true.
Proof.
  induction l as [|c l IH]; intros k k' Hle H; [reflexivity|]. simpl in *.
  destruct (is_nl c); [|exact H].
  apply andb_prop in H. destruct H as [H1 H2]. apply Nat.ltb_lt in H1.
  apply andb_true_intro. split; [apply Nat.ltb_lt; lia|]. apply (IH (S k)); [lia|exact H2].
Qed.

Lemma nl_runs_prefix (a b : list ascii) :
  forall k, nl_runs_ok k (a ++ b) = true -> nl_runs_ok k a = true.
Proof.
  induction a as [|c a IH]; intros k H; [reflexivity|]. simpl in *.
  destruct (is_nl c).
  - apply andb_prop in H. destruct H as [H1 H2]. rewrite H1. apply IH, H2.
  - apply IH, H.
Qed.

Lemma nl_runs_suffix (a b : list ascii) :
  forall k, nl_runs_ok k (a ++ b) = true -> nl_runs_ok 0 b = true.
Proof.
  induction a as [|c a IH]; intros k H.
  - apply (nl_runs_mono b k 0); [lia|exact H].
  - simpl in H. destruct (is_nl c).
    + apply andb_prop in H. apply (IH (S k)), H.
    + apply (IH 0), H.
Qed.

Lemma collapse_runs (l : list ascii) : forall n, nl_runs_ok 0 (collapse n l) = true.
Proof.
  induction l as [|c r IH]; intros n; simpl collapse.
  - destruct n as [|[|[|n]]]; reflexivity.
  - destruct (is_nl c) eqn:Hc; [apply IH|].
    destruct n as [|[|[|n]]]; simpl; rewrite Hc; apply IH.
Qed.

Lemma strip_sub (m : list ascii) : exists p t, m = p ++ strip m ++ t.
Proof.
  destruct (lstrip_suffix m) as [p Hp]. destruct (rstrip_prefix (lstrip m)) as [t Ht].
  exists p, t. unfold strip. rewrite <- Ht. exact Hp.
Qed.

Lemma strip_lines_ok (m : list ascii) : lines_ok m = true -> lines_ok (strip m) = true.
Proof.
  intros H. unfold strip. destruct (lstrip_suffix m) as [p Hp].
  assert (H1 : lines_ok (lstrip m) = true)
    by (apply (lines_ok_suffix p); rewrite <- Hp; exact H).
  destruct (rstrip_prefix (lstrip m)) as [t Ht].
  apply (lines_ok_prefix _ t); [rewrite <- Ht; exact H1|apply rstrip_ends].
Qed.

Lemma strip_starts (m : list ascii) : Str.starts_space (strip m) = false.
Proof.
  unfold strip. destruct (rstrip_prefix (lstrip m)) as [t Ht].
  destruct (Str.starts_space (rstrip (lstrip m))) eqn:E; [|reflexivity].
  apply (starts_space_app _ t) in E. rewrite <- Ht, lstrip_starts in E. discriminate.
Qed.

Lemma strip_ends (m : list ascii) : Str.ends_space (strip m) = false.
Proof. apply rstrip_ends. Qed.

End CleanProofs.

(** [_clean_markdown] never leaves three newlines in a row: at most one
    blank line separates two blocks of text. *)
Theorem clean_markdown_no_triple_newline (markdown : string) :
  Clean.nl_runs_ok 0 (list_ascii_of_string (clean_markdown markdown)) = true.
Proof.
  unfold clean_markdown. rewrite list_ascii_of_string_of_list_ascii.
  unfold Clean.clean_chars.
  set (l3 := Clean.collapse 0 _).
  destruct (CleanProofs.strip_sub l3) as [p [t Hpt]].
  assert (H : Clean.nl_runs_ok 0 l3 = true) by apply CleanProofs.collapse_runs.
  rewrite Hpt in H. apply CleanProofs.nl_runs_suffix in H.
  apply (CleanProofs.nl_runs_prefix _ t). exact H.
Qed.

(** In the text [_clean_markdown] returns, no line ends in white space,
    and the text neither starts nor ends with white space; white space is
    that of [str.isspace], U+00A0, U+2000 to U+200A, U+3000 and the others
    included, read from the UTF-8 bytes of the text. *)
Theorem clean_markdown_no_trailing_ws (markdown : string) :
  let out := list_ascii_of_string (clean_markdown markdown) in
  forallb (fun line => negb (Str.ends_space line)) (Clean.split_lines out) = true /\
  Str.starts_space out = false /\ Str.ends_space out = false.
Proof.
  unfold clean_markdown. cbv zeta. rewrite list_ascii_of_string_of_list_ascii.
  unfold Clean.clean_chars.
  split; [|split; [apply CleanProofs.strip_starts|apply CleanProofs.strip_ends]].
  match goal with |- forallb _ (Clean.split_lines ?o) = true => change (Clean.lines_ok o = true) end.
  apply CleanProofs.strip_lines_ok.
  apply (CleanProofs.collapse_lines_ok _ 0 []). cbn [app Clean.nls repeat].
  apply CleanProofs.join_lines_ok. intros x Hx. apply in_map_iff in Hx as (y & <- & Hy).
  split; [apply CleanProofs.rstrip_no_nl, (CleanProofs.split_lines_no_nl _ y Hy)|].
  apply CleanProofs.rstrip_ends.
Qed.

(** Every result counted as failed has an error and none counted as
    successful has one, so the two counts never exceed the number of
    results. *)
Theorem successful_failed_le_total (results : list PageResult) :
  successful results + failed results <= length results.
Proof.
  unfold successful, failed. induction results as [|r rs IH]; simpl; [lia|].
  destruct (truthy (r_error r)); simpl; rewrite ?andb_false_r;
    destruct (truthy (r_content r)); simpl; lia.
Qed.

(* ------------------------------------------------------------------ *)
(** ** [WebCrawler.crawl]: the requests it makes *)

Section CrawlRequests.

Variable fetch : string -> option Page.
Variable max_depth : Z.
Variable max_pages : Z.

Lemma fetch_inv_append (st : CState) (l : string) (d : nat) :
  fetch_inv fetch st -> ~ In l (visited st) ->
  fetch_inv fetch
    {| queue := queue st ++ [(l, d)]; visited := visited st ++ [l];
       discovered := discovered st; fetched := fetched st;
       enqueued := enqueued st ++ [l] |}.
Proof.
  intros [H1 [H2 H3]] Hl. unfold fetch_inv; cbn [queue visited discovered fetched].
  split; [|split].
  - rewrite map_app, app_assoc. apply NoDup_app; [exact H1|constructor; [intros []|constructor]|].
    intros a Ha [<-|[]]. apply Hl, H2, Ha.
  - intros x Hx. rewrite map_app, app_assoc in Hx. apply in_app_or in Hx.
    apply in_or_app. destruct Hx as [Hx|Hx]; [left; apply H2, Hx|right; exact Hx].
  - exact H3.
Qed.

Lemma enqueue_links_fetch_inv (links : list string) (d : nat) :
  forall st, fetch_inv fetch st -> fetch_inv fetch (enqueue_links links d st).
Proof.
  induction links as [|l r IH]; intros st Hinv; simpl; [exact Hinv|].
  destruct (str_mem l (visited st)) eqn:Hm.
  - apply IH, Hinv.
  - apply IH, fetch_inv_append; [exact Hinv|apply str_mem_false, Hm].
Qed.

Lemma crawl_step_fetch_inv (st : CState) :
  fetch_inv fetch st -> fetch_inv fetch (crawl_step fetch max_depth st).
Proof.
  intros Hinv. pose proof Hinv as [H1 [H2 H3]].
  unfold crawl_step. destruct (queue st) as [|[u d] q] eqn:Hq; [exact Hinv|].
  cbn [map fst] in H1, H2.
  (* [u] requested and not discovered *)
  assert (Hreq : fetch_inv fetch {| queue := q; visited := visited st;
                    discovered := discovered st; fetched := fetched st ++ [u];
                    enqueued := enqueued st |}).
  { unfold fetch_inv; cbn [queue visited discovered fetched].
    rewrite <- app_assoc. split; [exact H1|split; [exact H2|]].
    intros x Hx. destruct (H3 x Hx) as [Hin Hpg]. split; [|exact Hpg].
    apply in_or_app. left. exact Hin. }
  destruct (max_depth <? Z.of_nat d)%Z.
  { unfold with_queue, fetch_inv; cbn [queue visited discovered fetched].
    split; [apply (NoDup_remove_1 _ _ u H1)|split; [|exact H3]].
    intros x Hx. apply H2. apply in_app_or in Hx. apply in_or_app.
    destruct Hx as [Hx|Hx]; [left; exact Hx|right; right; exact Hx]. }
  destruct (fetch u) as [pg|] eqn:Hf; [|exact Hreq].
  destruct (page_ok pg) eqn:Hok; [|exact Hreq].
  (* [u] requested and discovered *)
  assert (Hdisc : fetch_inv fetch {| queue := q; visited := visited st;
                    discovered := discovered st ++ [u]; fetched := fetched st ++ [u];
                    enqueued := enqueued st |}).
  { destruct Hreq as [R1 [R2 R3]].
    unfold fetch_inv; cbn [queue visited discovered fetched] in *.
    split; [exact R1|split; [exact R2|]].
    intros x Hx. apply in_app_or in Hx. destruct Hx as [Hx|[<-|[]]]; [apply R3, Hx|].
    split; [apply in_or_app; right; left; reflexivity|exists pg; split; assumption]. }
  destruct (Z.of_nat d <? max_depth)%Z; [|exact Hdisc].
  destruct (page_links pg) as [links|]; [|exact Hdisc].
  apply enqueue_links_fetch_inv, Hdisc.
Qed.

Lemma crawl_init_fetch_inv (start_url : string) : fetch_inv fetch (crawl_init start_url).
Proof.
  unfold fetch_inv, crawl_init; cbn [queue visited discovered fetched map fst app].
  split; [|split].
  - constructor; [intros []|constructor].
  - intros x Hx. exact Hx.
  - intros u [].
Qed.

Lemma crawl_run_fetch_inv (n : nat) (start_url : string) (st' : CState) :
  crawl_loop fetch max_depth max_pages n (crawl_init start_url) = Some st' ->
  fetch_inv fetch st'.
Proof.
  intros Hrun.
  exact (proj1 (crawl_loop_invariant fetch max_depth max_pages (fetch_inv fetch)
          (fun st Hst _ => crawl_step_fetch_inv st Hst) n _ st'
          (crawl_init_fetch_inv start_url) Hrun)).
Qed.

(** A crawl requests every URL at most once: the list of URLs passed to
    [session.get] has no repetition. *)
Theorem crawl_requests_each_url_once (n : nat) (start_url : string) (st' : CState) :
  crawl_loop fetch max_depth max_pages n (crawl_init start_url) = Some st' ->
  NoDup (fetched st').
Proof.
  intros Hrun. destruct (crawl_run_fetch_inv n start_url st' Hrun) as [H1 _].
  exact (NoDup_app_remove_r _ _ H1).
Qed.

(** Every URL a crawl returns was requested and answered with a 200
    [text/html] page. *)
Theorem crawl_discovered_answered_ok (n : nat) (start_url : string) (st' : CState) (u : string) :
  crawl_loop fetch max_depth max_pages n (crawl_init start_url) = Some st' ->
  In u (discovered st') ->
  In u (fetched st') /\ exists pg, fetch u = Some pg /\ page_ok pg = true.
Proof.
  intros Hrun Hu. destruct (crawl_run_fetch_inv n start_url st' Hrun) as [_ [_ H3]].
  apply H3, Hu.
Qed.

End CrawlRequests.

Lemma crawl_requests_each_url_once_witness :
  crawl_loop small_site 3 10 10 (crawl_init "https://s/") = Some small_site_final /\
  NoDup (fetched small_site_final).
Proof.
  split; [vm_compute; reflexivity|].
  apply (crawl_requests_each_url_once small_site 3 10 10 "https://s/").
  vm_compute. reflexivity.
Defined.

Lemma crawl_discovered_answered_ok_witness :
  crawl_loop small_site 3 10 10 (crawl_init "https://s/") = Some small_site_final /\
  In "https://s/a" (discovered small_site_final) /\
  (In "https://s/a" (fetched small_site_final) /\
   exists pg, small_site "https://s/a" = Some pg /\ page_ok pg = true).
Proof.
  split; [vm_compute; reflexivity|]. split; [vm_compute; tauto|].
  apply (crawl_discovered_answered_ok small_site 3 10 10 "https://s/" small_site_final).
  - vm_compute. reflexivity.
  - vm_compute. tauto.
Defined.

(* ------------------------------------------------------------------ *)
(** ** [parse_sitemap] reads back what [generate_sitemap] writes *)

Module SitemapRoundTrip.
Import Xml SitemapText.
Local Open Scope list_scope.

Lemma p_content_text (cs : list ascii) :
  forall f ns rest txt, text_ok cs rest = true ->
  p_content (length cs + f) ns (cs ++ rest) txt [] = p_content f ns rest (rev cs ++ txt) [].
Proof.
  induction cs as [|c cs IH]; intros f ns rest txt H; [reflexivity|].
  cbn [text_ok] in H. apply andb_prop in H as [Hc H]. apply andb_prop in Hc as [Hc Hd].
  apply negb_true_iff in Hd. unfold xml_text_char in Hc.
  apply andb_prop in Hc as [Hc Hx]. apply andb_prop in Hc as [Hlt Hamp].
  apply negb_true_iff in Hlt, Hamp.
  simpl length. simpl app. change (S (length cs) + f) with (S (length cs + f)). cbn [p_content].
  rewrite Hlt, Hamp, Hd, Hx. cbn [negb].
  rewrite IH by exact H. rewrite <- app_assoc. reflexivity.
Qed.

Lemma p_content_text_kids (cs : list ascii) :
  forall f ns rest txt k ks, text_ok cs rest = true ->
  p_content (length cs + f) ns (cs ++ rest) txt (k :: ks) = p_content f ns rest txt (k :: ks).
Proof.
  induction cs as [|c cs IH]; intros f ns rest txt k ks H; [reflexivity|].
  cbn [text_ok] in H. apply andb_prop in H as [Hc H]. apply andb_prop in Hc as [Hc Hd].
  apply negb_true_iff in Hd. unfold xml_text_char in Hc.
  apply andb_prop in Hc as [Hc Hx]. apply andb_prop in Hc as [Hlt Hamp].
  apply negb_true_iff in Hlt, Hamp.
  simpl length. simpl app. change (S (length cs) + f) with (S (length cs + f)).
  cbn [p_content]. rewrite Hlt, Hamp, Hd, Hx. cbn [negb].
  apply IH, H.
Qed.

Lemma p_content_text_le (cs : list ascii) F ns rest txt :
  text_ok cs rest = true -> length cs <= F ->
  p_content F ns (cs ++ rest) txt [] = p_content (F - length cs) ns rest (rev cs ++ txt) [].
Proof.
  intros H Hle. replace F with (length cs + (F - length cs)) at 1 by lia.
  apply p_content_text, H.
Qed.

Lemma p_content_text_kids_le (cs : list ascii) F ns rest txt k ks :
  text_ok cs rest = true -> length cs <= F ->
  p_content F ns (cs ++ rest) txt (k :: ks) = p_content (F - length cs) ns rest txt (k :: ks).
Proof.
  intros H Hle. replace F with (length cs + (F - length cs)) at 1 by lia.
  apply p_content_text_kids, H.
Qed.

Lemma cdata_end_lt (x z : list ascii) : cdata_end (x ++ "<"%char :: z) = cdata_end x.
Proof. destruct x as [|a [|b [|c x]]]; reflexivity. Qed.

(** Text free of [<], [&] and [']]>'] followed by a tag is character data. *)
Lemma text_ok_lt (U z : list ascii) :
  forallb xml_text_char U && no_cdata_end U = true -> text_ok U ("<"%char :: z) = true.
Proof.
  induction U as [|c U IH]; intros H; [reflexivity|].
  cbn [forallb no_cdata_end] in H.
  apply andb_prop in H as [H1 H2]. apply andb_prop in H1 as [Hc HU].
  apply andb_prop in H2 as [Hd HN].
  cbn [text_ok]. rewrite Hc. cbn [andb].
  replace (c :: U ++ "<"%char :: z) with ((c :: U) ++ "<"%char :: z) by reflexivity.
  rewrite cdata_end_lt, Hd. cbn [andb]. apply IH. rewrite HU, HN. reflexivity.
Qed.

Lemma p_content_child F ns c2 s' txt kids e r :
  1 <= F -> Ascii.eqb c2 "/" = false -> (Ascii.eqb c2 "!" || Ascii.eqb c2 "?") = false ->
  p_element (F - 1) ns ("<"%char :: c2 :: s') = Ok (e, r) ->
  p_content F ns ("<"%char :: c2 :: s') txt kids = p_content (F - 1) ns r txt (e :: kids).
Proof.
  intros HF H1 H2 He. destruct F as [|G]; [lia|]. simpl Nat.sub in *. rewrite Nat.sub_0_r in *.
  cbn [p_content]. rewrite Ascii.eqb_refl, H1, H2, He. reflexivity.
Qed.

Lemma p_content_close F ns r txt kids :
  1 <= F -> p_content F ns ("<"%char :: "/"%char :: r) txt kids = Ok (rev txt, rev kids, r).
Proof. intros HF. destruct F; [lia|]. reflexivity. Qed.

Lemma p_element_gen (name : string) (X : list ascii) (F : nat) (ns : string) rest txt kids :
  (forall r, p_name (list_ascii_of_string name ++ ">"%char :: r) = Ok (name, ">"%char :: r)) ->
  has_colon name = false ->
  (forall r, p_close name (list_ascii_of_string name ++ ">"%char :: r) = Ok r) ->
  X <> [] -> 1 <= F ->
  p_content (F - 1) ns X [] [] = Ok (txt, kids, list_ascii_of_string name ++ ">"%char :: rest) ->
  p_element F ns ("<"%char :: list_ascii_of_string name ++ ">"%char :: X)
  = Ok (Elem (qualify ns name)
          (match txt with [] => None | _ => Some (string_of_list_ascii txt) end) kids, rest).
Proof.
  intros Hn Hc Hcl HX HF Hcont. destruct F as [|G]; [lia|]. simpl Nat.sub in Hcont.
  rewrite Nat.sub_0_r in Hcont.
  cbn [p_element]. rewrite Hn. cbn [bind]. rewrite Hc.
  assert (Hgt : is_ws ">" = false) by reflexivity.
  cbn [p_attrs skip_ws]. rewrite Hgt. cbn - [p_content].
  destruct X as [|c2 r3]; [contradiction|].
  rewrite Hcont. cbn [bind]. rewrite Hcl. reflexivity.
Qed.

Lemma leaf_le (name : string) (U : list ascii) (F : nat) (ns : string) (rest : list ascii) :
  (forall r, p_name (list_ascii_of_string name ++ ">"%char :: r) = Ok (name, ">"%char :: r)) ->
  has_colon name = false ->
  (forall r, p_close name (list_ascii_of_string name ++ ">"%char :: r) = Ok r) ->
  forallb xml_text_char U && no_cdata_end U = true -> length U + 2 <= F ->
  p_element F ns
    ("<"%char :: list_ascii_of_string name ++ ">"%char :: U ++
     "<"%char :: "/"%char :: list_ascii_of_string name ++ ">"%char :: rest)
  = Ok (Elem (qualify ns name)
          (match U with [] => None | _ => Some (string_of_list_ascii U) end) [], rest).
Proof.
  intros Hn Hc Hcl HU HF.
  assert (Hc2 : p_content (F - 1) ns (U ++ "<"%char :: "/"%char ::
                   list_ascii_of_string name ++ ">"%char :: rest) [] []
                = Ok (U, [], list_ascii_of_string name ++ ">"%char :: rest)).
  { rewrite p_content_text_le by (apply text_ok_lt, HU || lia). rewrite p_content_close by lia.
    rewrite app_nil_r, rev_involutive. reflexivity. }
  apply p_element_gen; [assumption|assumption|assumption|destruct U; discriminate|lia|exact Hc2].
Qed.

Lemma content_leaf (name : string) (U : list ascii) (F : nat) (ns : string) rest txt kids :
  (forall r, p_name (list_ascii_of_string name ++ ">"%char :: r) = Ok (name, ">"%char :: r)) ->
  has_colon name = false ->
  (forall r, p_close name (list_ascii_of_string name ++ ">"%char :: r) = Ok r) ->
  (exists c0 nm, list_ascii_of_string name = c0 :: nm /\ Ascii.eqb c0 "/" = false /\
                 (Ascii.eqb c0 "!" || Ascii.eqb c0 "?") = false) ->
  forallb xml_text_char U && no_cdata_end U = true -> length U + 3 <= F ->
  p_content F ns
    ("<"%char :: list_ascii_of_string name ++ ">"%char :: U ++
     "<"%char :: "/"%char :: list_ascii_of_string name ++ ">"%char :: rest) txt kids
  = p_content (F - 1) ns rest txt
      (Elem (qualify ns name)
          (match U with [] => None | _ => Some (string_of_list_ascii U) end) [] :: kids).
Proof.
  intros Hn Hc Hcl (c0 & nm & Heq & H1 & H2) HU HF.
  assert (He := leaf_le name U (F - 1) ns rest Hn Hc Hcl HU ltac:(lia)).
  rewrite Heq in He |- *.
  apply p_content_child; [lia|exact H1|exact H2|exact He].
Qed.

Lemma url_elem_le U T F ns rest :
  forallb xml_text_char U && no_cdata_end U = true ->
  forallb xml_text_char T && no_cdata_end T = true ->
  length (url_chars U T rest) <= F ->
  p_element F ns (url_chars U T rest) = Ok (url_elem ns U T, rest).
Proof.
  intros HU HT HF. unfold url_chars, las in *.
  unfold ws1, ws2 in HF. simpl length in HF. repeat (rewrite length_app in HF; simpl length in HF).
  unfold url_elem.
  eapply (p_element_gen "url" _ F ns rest ws1);
    [intros r; reflexivity|reflexivity|intros r; reflexivity|simpl; discriminate|lia|].
  rewrite (p_content_text_le ws1) by rt_side.
  rewrite (content_leaf "loc") by rt_side.
  rewrite (p_content_text_kids_le ws1) by rt_side.
  rewrite (content_leaf "lastmod") by rt_side.
  rewrite (p_content_text_kids_le ws1) by rt_side.
  rewrite (content_leaf "changefreq") by rt_side.
  rewrite (p_content_text_kids_le ws1) by rt_side.
  rewrite (content_leaf "priority") by rt_side.
  rewrite (p_content_text_kids_le ws2) by rt_side.
  rewrite p_content_close by rt_side.
  reflexivity.
Qed.

Lemma content_url U T F ns rest txt kids :
  forallb xml_text_char U && no_cdata_end U = true ->
  forallb xml_text_char T && no_cdata_end T = true ->
  length (url_chars U T rest) + 1 <= F ->
  p_content F ns (url_chars U T rest) txt kids = p_content (F - 1) ns rest txt (url_elem ns U T :: kids).
Proof.
  intros HU HT HF.
  assert (He := url_elem_le U T (F - 1) ns rest HU HT ltac:(lia)).
  unfold url_chars in He |- *.
  apply p_content_child; [lia|reflexivity|reflexivity|exact He].
Qed.

Lemma las_app (a b : string) : las (a ++ b)%string = (las a ++ las b)%list.
Proof. induction a as [|c a IH]; simpl; [reflexivity|]. unfold las in *. rewrite IH. reflexivity. Qed.

Lemma entry_chars today u rest :
  las (sitemap_entry today u) ++ rest = " "%char :: " "%char :: url_chars (las u) (las today) (Str.nl :: rest).
Proof.
  unfold sitemap_entry. rewrite !las_app. rewrite <- !app_assoc. reflexivity.
Qed.

Lemma las_concat today (us : list string) :
  las (String.concat "" (map (sitemap_entry today) us)) = flat_map (fun u => las (sitemap_entry today u)) us.
Proof.
  induction us as [|u [|v us] IH]; [reflexivity|simpl; rewrite app_nil_r; reflexivity|].
  change (String.concat "" (map (sitemap_entry today) (u :: v :: us)))
    with (sitemap_entry today u ++ "" ++ String.concat "" (map (sitemap_entry today) (v :: us)))%string.
  rewrite las_app. change (las ("" ++ ?X)%string) with (las X). rewrite IH. reflexivity.
Qed.

Lemma url_chars_length U T rest :
  length (url_chars U T rest) = length U + length T + length rest + 119.
Proof.
  unfold url_chars, ws1, ws2, las. cbn [list_ascii_of_string length app].
  rewrite !length_app. cbn [length]. rewrite !length_app. cbn [length]. lia.
Qed.

Lemma entries_kids today (us : list string) ns :
  forallb xml_text_char (las today) && no_cdata_end (las today) = true ->
  (forall u, In u us -> forallb xml_text_char (las u) && no_cdata_end (las u) = true) ->
  forall F txt k ks,
  S (length (flat_map (fun u => las (sitemap_entry today u)) us ++ las "</urlset>")) <= F ->
  p_content F ns (flat_map (fun u => las (sitemap_entry today u)) us ++ las "</urlset>") txt (k :: ks)
  = Ok (rev txt, rev (k :: ks) ++ map (fun u => url_elem ns (las u) (las today)) us, las "urlset>").
Proof.
  intros HT. induction us as [|u us IH]; intros Hus F txt k ks HF.
  - simpl in HF |- *. rewrite p_content_close by lia. rewrite app_nil_r. reflexivity.
  - cbn [flat_map] in HF |- *. rewrite <- app_assoc in HF |- *. rewrite entry_chars in HF |- *.
    assert (HU : forallb xml_text_char (las u) && no_cdata_end (las u) = true)
      by (apply Hus; left; reflexivity).
    change (" "%char :: " "%char :: ?X) with ([" "%char; " "%char] ++ X).
    cbn [length] in HF. rewrite url_chars_length in HF. cbn [length] in HF.
    rewrite (p_content_text_kids_le [" "%char; " "%char]) by (reflexivity || (cbn [length]; lia)).
    rewrite content_url by (assumption || (rewrite url_chars_length; cbn [length]; lia)).
    change (Str.nl :: ?X) with ([Str.nl] ++ X).
    rewrite (p_content_text_kids_le [Str.nl]) by (reflexivity || (cbn [length]; lia)).
    rewrite IH by first [ intros ? ?; apply Hus; right; assumption | cbn [length]; lia ].
    cbn [rev map]. rewrite <- !app_assoc. reflexivity.
Qed.

Lemma urlset_content today (us : list string) ns F :
  forallb xml_text_char (las today) && no_cdata_end (las today) = true ->
  (forall u, In u us -> forallb xml_text_char (las u) && no_cdata_end (las u) = true) ->
  S (S (length (sitemap_body today us))) <= F ->
  p_content F ns (Str.nl :: sitemap_body today us) [] []
  = Ok (match us with [] => [Str.nl] | _ => [Str.nl; " "; " "]%char end,
        map (fun u => url_elem ns (las u) (las today)) us, las "urlset>").
Proof.
  intros HT Hus HF. unfold sitemap_body in *.
  destruct us as [|u us].
  - cbn [flat_map app] in HF |- *.
    change (Str.nl :: ?X) with ([Str.nl] ++ X).
    rewrite p_content_text_le by (reflexivity || (cbn [length] in *; lia)).
    change (las "</urlset>") with ("<"%char :: "/"%char :: las "urlset>").
    rewrite p_content_close by (cbn [length] in *; lia). reflexivity.
  - cbn [flat_map] in HF |- *. rewrite <- app_assoc in HF |- *. rewrite entry_chars in HF |- *.
    assert (HU : forallb xml_text_char (las u) && no_cdata_end (las u) = true)
      by (apply Hus; left; reflexivity).
    change (Str.nl :: " "%char :: " "%char :: ?X) with ([Str.nl; " "%char; " "%char] ++ X).
    cbn [length] in HF. rewrite url_chars_length in HF. cbn [length] in HF.
    rewrite (p_content_text_le [Str.nl; " "%char; " "%char]) by (reflexivity || (cbn [length]; lia)).
    rewrite content_url by (assumption || (rewrite url_chars_length; cbn [length]; lia)).
    change (Str.nl :: ?X) with ([Str.nl] ++ X).
    rewrite (p_content_text_kids_le [Str.nl]) by (reflexivity || (cbn [length app]; lia)).
    rewrite entries_kids by first [ assumption | intros ? ?; apply Hus; right; assumption | cbn [length app]; lia ].
    reflexivity.
Qed.

Lemma eqb_n_Sn n : Nat.eqb n (S n) = false.
Proof. apply Nat.eqb_neq. lia. Qed.

Lemma urlset_name X : p_name (las "urlset" ++ las xmlns_attr ++ X) = Ok ("urlset", las xmlns_attr ++ X).
Proof. reflexivity. Qed.

Lemma urlset_attrs X :
  p_attrs (S (length (las xmlns_attr ++ ">"%char :: X))) (las xmlns_attr ++ ">"%char :: X)
  = Ok ([("xmlns", sitemap_ns0)], ">"%char :: X).
Proof. cbn. rewrite eqb_n_Sn. cbn. reflexivity. Qed.

Lemma urlset_elem F B txt kids :
  p_content F sitemap_ns0 (Str.nl :: B) [] [] = Ok (txt, kids, las "urlset>") ->
  p_element (S F) "" ("<"%char :: las "urlset" ++ las xmlns_attr ++ ">"%char :: Str.nl :: B)
  = Ok (Elem (qualify sitemap_ns0 "urlset")
          (match txt with [] => None | _ => Some (string_of_list_ascii txt) end) kids, []).
Proof.
  intros H. cbn [p_element]. rewrite Ascii.eqb_refl. cbn [negb].
  rewrite urlset_name. cbn [bind].
  assert (Hc : has_colon "urlset" = false) by reflexivity. rewrite Hc.
  rewrite urlset_attrs. cbn [bind].
  assert (Hx : assoc "xmlns" [("xmlns", sitemap_ns0)] = Some sitemap_ns0) by reflexivity.
  rewrite Hx. cbn - [p_content sitemap_ns0 Str.nl las]. rewrite H. reflexivity.
Qed.

Lemma xml_chars_ok_app_le : forall n (a b : list ascii), length a <= n ->
  xml_chars_ok a = true -> xml_chars_ok (a ++ b) = xml_chars_ok b.
Proof.
  induction n as [|n IH]; intros a b Hl H.
  - destruct a; [reflexivity|cbn [length] in Hl; lia].
  - destruct a as [|h r]; [reflexivity|]. cbn [length] in Hl. revert H.
    cbn [xml_chars_ok app].
    destruct (Nat.ltb (nat_of_ascii h) 128).
    { intros H. apply andb_prop in H as [H1 H2]. rewrite H1. apply IH; [lia|exact H2]. }
    destruct (Nat.leb 194 (nat_of_ascii h) && Nat.leb (nat_of_ascii h) 223).
    { destruct r as [|b1 r2]; [discriminate|]. cbn [app length] in *.
      intros H. apply andb_prop in H as [H1 H2]. rewrite H1. apply IH; [lia|exact H2]. }
    destruct (Nat.leb 224 (nat_of_ascii h) && Nat.leb (nat_of_ascii h) 239).
    { destruct r as [|b1 [|b2 r3]]; try discriminate. cbn [app length] in *.
      intros H. apply andb_prop in H as [H1 H2]. rewrite H1. apply IH; [lia|exact H2]. }
    destruct (Nat.leb 240 (nat_of_ascii h) && Nat.leb (nat_of_ascii h) 244); [|discriminate].
    destruct r as [|b1 [|b2 [|b3 r4]]]; try discriminate. cbn [app length] in *.
    intros H. apply andb_prop in H as [H1 H2]. rewrite H1. apply IH; [lia|exact H2].
Qed.

Lemma xml_chars_ok_app (a b : list ascii) :
  xml_chars_ok a = true -> xml_chars_ok b = true -> xml_chars_ok (a ++ b) = true.
Proof. intros Ha Hb. rewrite (xml_chars_ok_app_le (length a) a b (le_n _) Ha). exact Hb. Qed.

Lemma parse_document_elem text s1 c r e :
  xml_chars_ok (list_ascii_of_string text) = true ->
  String.prefix "<?xml" text = true ->
  skip_decl (list_ascii_of_string text) = Ok s1 ->
  skip_ws s1 = "<"%char :: c :: r ->
  (Ascii.eqb c "!" || Ascii.eqb c "?") = false ->
  p_element (S (length ("<"%char :: c :: r))) "" ("<"%char :: c :: r) = Ok (e, []) ->
  parse_document text = Ok e.
Proof.
  intros H0 H1 H2 H3 H4 H5. unfold parse_document. cbv zeta.
  rewrite H0. cbn [negb]. rewrite H1, H2. cbn [bind]. rewrite H3. cbv beta iota. rewrite H4. cbn [bind].
  rewrite H5. reflexivity.
Qed.

Lemma header_prefix Y : String.prefix "<?xml" (combined_header ++ Y) = true.
Proof. reflexivity. Qed.

Lemma header_decl Z :
  skip_decl (las combined_header ++ Z)
  = Ok (Str.nl :: "<"%char :: las "urlset" ++ las xmlns_attr ++ ">"%char :: Str.nl :: Z).
Proof. reflexivity. Qed.

Lemma body_chars_ok today (us : list string) :
  xml_chars_ok (las today) = true -> (forall u, In u us -> xml_chars_ok (las u) = true) ->
  xml_chars_ok (sitemap_body today us) = true.
Proof.
  intros HT. unfold sitemap_body. induction us as [|u us IH]; intros Hus; [reflexivity|].
  cbn [flat_map]. rewrite <- app_assoc. apply xml_chars_ok_app.
  - assert (HU : xml_chars_ok (las u) = true) by (apply Hus; left; reflexivity).
    unfold sitemap_entry. rewrite !las_app.
    repeat (apply xml_chars_ok_app; [first [exact HT|exact HU|reflexivity]|]).
    reflexivity.
  - apply IH. intros v Hv. apply Hus. right. exact Hv.
Qed.

Lemma parse_generated today (us : list string) :
  forallb xml_text_char (las today) && no_cdata_end (las today) = true ->
  (forall u, In u us -> forallb xml_text_char (las u) && no_cdata_end (las u) = true) ->
  xml_chars_ok (las today) = true -> (forall u, In u us -> xml_chars_ok (las u) = true) ->
  parse_document (generate_sitemap today us)
  = Ok (Elem (qualify sitemap_ns0 "urlset")
          (Some (string_of_list_ascii (match us with [] => [Str.nl] | _ => [Str.nl; " "; " "]%char end)))
          (map (fun u => url_elem sitemap_ns0 (las u) (las today)) us)).
Proof.
  intros HT Hus HTc Husc.
  assert (Hg : generate_sitemap today us
               = (combined_header ++ String.concat "" (map (sitemap_entry today) us) ++ "</urlset>")%string)
    by reflexivity.
  rewrite Hg.
  assert (Hl : las (combined_header ++ String.concat "" (map (sitemap_entry today) us) ++ "</urlset>")
               = las combined_header ++ sitemap_body today us)
    by (rewrite !las_app, las_concat; reflexivity).
  eapply parse_document_elem.
  - change (list_ascii_of_string ?x) with (las x). rewrite Hl.
    apply xml_chars_ok_app; [reflexivity|]. apply body_chars_ok; assumption.
  - apply header_prefix.
  - change (list_ascii_of_string ?x) with (las x). rewrite Hl. apply header_decl.
  - reflexivity.
  - reflexivity.
  - change ("<"%char :: "u"%char :: ?R) with ("<"%char :: las "urlset" ++ las xmlns_attr ++ ">"%char :: Str.nl :: sitemap_body today us).
    erewrite (urlset_elem _ _ (match us with [] => [Str.nl] | _ => [Str.nl; " "; " "]%char end)
                (map (fun u => url_elem sitemap_ns0 (las u) (las today)) us));
      [destruct us; reflexivity|].
    apply urlset_content; [assumption|assumption|].
    cbn [length]. rewrite !length_app. cbn [length]. lia.
Qed.

Lemma iter_elem t x cs : iter (Elem t x cs) = Elem t x cs :: flat_map iter cs.
Proof.
  cbn [iter]. f_equal.
  all: induction cs as [|c cs IH]; [reflexivity|cbn [flat_map]; rewrite <- IH; reflexivity].
Qed.

Lemma str_mem_false_of_not_in s l : ~ In s l -> str_mem s l = false.
Proof.
  unfold str_mem. intros H. apply not_true_iff_false. rewrite existsb_exists.
  intros (x & Hx & Heq). apply String.eqb_eq in Heq. subst. contradiction.
Qed.

Lemma text_of_las u : u <> "" -> text_of (las u) = Some u.
Proof.
  intros Hu. unfold text_of.
  destruct (las u) as [|a l] eqn:E.
  - destruct u; [congruence|discriminate].
  - rewrite <- E. unfold las. rewrite string_of_list_ascii_of_string. reflexivity.
Qed.

Lemma collect_url_step u T acc seen rest :
  u <> "" -> sitemap_inline_normalize (Str.strip u) = Some u -> str_mem u seen = false ->
  collect_urls (iter (url_elem sitemap_ns0 (las u) T) ++ rest) acc seen
  = collect_urls rest (acc ++ [u]) (u :: seen).
Proof.
  intros Hu Hn Hm.
  unfold url_elem. rewrite iter_elem. cbn [flat_map iter app].
  cbn [collect_urls elem_tag elem_children elem_text first_loc].
  assert (E1 : String.eqb (local_tag (qualify sitemap_ns0 "url")) "url" = true) by reflexivity.
  assert (E2 : String.eqb (local_tag (qualify sitemap_ns0 "loc")) "loc" = true) by reflexivity.
  assert (E3 : String.eqb (local_tag (qualify sitemap_ns0 "loc")) "url" = false) by reflexivity.
  assert (E4 : String.eqb (local_tag (qualify sitemap_ns0 "lastmod")) "url" = false) by reflexivity.
  assert (E5 : String.eqb (local_tag (qualify sitemap_ns0 "changefreq")) "url" = false) by reflexivity.
  assert (E6 : String.eqb (local_tag (qualify sitemap_ns0 "priority")) "url" = false) by reflexivity.
  assert (E7 : truthy_text (Some u) = Some u)
    by (unfold truthy_text; apply String.eqb_neq in Hu; rewrite Hu; reflexivity).
  rewrite E1, text_of_las, E7, E2, Hn, Hm, E3, E4, E5, E6 by exact Hu. reflexivity.
Qed.

Lemma collect_urls_generated T (us : list string) :
  forall acc seen,
  (forall u, In u us -> u <> "" /\ sitemap_inline_normalize (Str.strip u) = Some u) ->
  NoDup us -> (forall u, In u us -> ~ In u seen) ->
  collect_urls (flat_map iter (map (fun u => url_elem sitemap_ns0 (las u) T) us)) acc seen
  = Ok (acc ++ us).
Proof.
  induction us as [|u us IH]; intros acc seen Hus Hnd Hseen.
  - rewrite app_nil_r. reflexivity.
  - inversion Hnd as [|? ? Hnin Hnd']; subst.
    cbn [map flat_map]. destruct (Hus u (or_introl eq_refl)) as [Hu Hn].
    rewrite collect_url_step by (assumption || (apply str_mem_false_of_not_in, Hseen; left; reflexivity)).
    rewrite IH.
    + rewrite <- app_assoc. reflexivity.
    + intros v Hv. apply Hus. right. exact Hv.
    + exact Hnd'.
    + intros v Hv [Heq|Hin]; [subst; contradiction|].
      exact (Hseen v (or_intror Hv) Hin).
Qed.

Lemma parse_sitemap_generated (today : string) (urls : list string) :
  xml_text_safe today = true ->
  (forall u, In u urls ->
     u <> "" /\ xml_text_safe u = true /\ sitemap_inline_normalize (Str.strip u) = Some u) ->
  NoDup urls ->
  parse_sitemap (Some (generate_sitemap today urls)) = Ok urls.
Proof.
  intros HT Hus Hnd. unfold parse_sitemap.
  rewrite parse_generated.
  - cbn [bind]. rewrite iter_elem.
    assert (Hroot : String.eqb (local_tag (qualify sitemap_ns0 "urlset")) "url" = false)
      by reflexivity.
    cbn [collect_urls elem_tag]. rewrite Hroot.
    apply collect_urls_generated.
    + intros u Hu. destruct (Hus u Hu) as (H1 & _ & H3). split; assumption.
    + exact Hnd.
    + intros u _ [].
  - unfold xml_text_safe in HT. apply andb_prop in HT. apply HT.
  - intros u Hu. destruct (Hus u Hu) as (_ & H2 & _).
    unfold xml_text_safe in H2. apply andb_prop in H2. apply H2.
  - unfold xml_text_safe in HT. apply andb_prop in HT. apply HT.
  - intros u Hu. destruct (Hus u Hu) as (_ & H2 & _).
    unfold xml_text_safe in H2. apply andb_prop in H2. apply H2.
Qed.

End SitemapRoundTrip.



(* ------------------------------------------------------------------ *)
(** ** [process_website]: the limit and the URLs it extracts *)

Lemma NoDup_snoc (l : list string) (x : string) : NoDup l -> ~ In x l -> NoDup (l ++ [x])%list.
Proof.
  intros Hl Hx. apply NoDup_app; [exact Hl|constructor; [intros []|constructor]|].
  intros a Ha [<-|[]]. contradiction.
Qed.

Lemma NoDup_firstn_str (k : nat) (l : list string) : NoDup l -> NoDup (firstn k l).
Proof.
  intros H. rewrite <- (firstn_skipn k l) in H. exact (NoDup_app_remove_r _ _ H).
Qed.

Lemma collect_urls_nodup (es : list elem) :
  forall urls seen out, NoDup urls -> (forall x, In x urls -> In x seen) ->
  collect_urls es urls seen = Ok out -> NoDup out.
Proof.
  induction es as [|e es IH]; intros urls seen out Hnd Hsub Hc.
  - cbn [collect_urls] in Hc. congruence.
  - cbn [collect_urls] in Hc.
    destruct (String.eqb (local_tag (elem_tag e)) "url"); [|exact (IH _ _ _ Hnd Hsub Hc)].
    destruct (first_loc (elem_children e)) as [t|]; [|exact (IH _ _ _ Hnd Hsub Hc)].
    destruct (sitemap_inline_normalize (Str.strip t)) as [n|]; [|discriminate].
    destruct (str_mem n seen) eqn:Hm; [exact (IH _ _ _ Hnd Hsub Hc)|].
    apply (IH _ _ _ (NoDup_snoc urls n Hnd (fun Hin => str_mem_false n seen Hm (Hsub n Hin)))) in Hc;
      [exact Hc|].
    intros x Hx. apply in_app_or in Hx as [Hx|[<-|[]]]; [right; apply Hsub, Hx|left; reflexivity].
Qed.

Lemma parse_sitemap_nodup (file : option string) (urls : list string) :
  parse_sitemap file = Ok urls -> NoDup urls.
Proof.
  unfold parse_sitemap. destruct file as [content|]; [|discriminate].
  destruct (Xml.parse_document content) as [root| |]; cbn [bind]; try discriminate.
  apply collect_urls_nodup; [constructor|intros x []].
Qed.

Lemma apply_limit_nodup (limit : option Z) (l : list string) :
  NoDup l -> NoDup (apply_limit limit l).
Proof.
  intros H. unfold apply_limit, py_slice_to.
  destruct limit as [n|]; [|exact H].
  destruct (Z.eqb n 0); [exact H|].
  destruct (0 <=? n)%Z; apply NoDup_firstn_str, H.
Qed.

Lemma extract_from_urls limit text source prompted crawled r :
  extract_from limit text source prompted crawled = Ok r ->
  exists urls, parse_sitemap (Some text) = Ok urls /\ run_urls r = apply_limit limit urls.
Proof.
  unfold extract_from. destruct (parse_sitemap (Some text)) as [urls| |]; cbn [bind];
    try discriminate.
  intros H. injection H as <-. exists urls. split; reflexivity.
Qed.

(** The run of [process_website] with a limit is the run without one,
    with its URL list cut by [apply_limit]. *)
Lemma process_website_limit_split (env : Env) (limit : option Z) :
  process_website env limit =
  (r <- process_website env None ;;
   Ok {| run_urls := apply_limit limit (run_urls r); run_source := run_source r;
         run_prompted := run_prompted r; run_crawled := run_crawled r |}).
Proof.
  assert (HE : forall text source prompted crawled,
    extract_from limit text source prompted crawled =
    (r <- extract_from None text source prompted crawled ;;
     Ok {| run_urls := apply_limit limit (run_urls r); run_source := run_source r;
           run_prompted := run_prompted r; run_crawled := run_crawled r |})).
  { intros. unfold extract_from. destruct (parse_sitemap (Some text)); reflexivity. }
  unfold process_website.
  destruct (env_find env) as [u|].
  - destruct (download_sitemap (env_get env) u); cbn [bind]; [apply HE|reflexivity|reflexivity].
  - destruct (env_inputs env) as [|c rest]; [reflexivity|].
    destruct (String.eqb (Str.strip c) "1").
    + destruct (env_crawl env); [reflexivity|apply HE].
    + destruct (String.eqb (Str.strip c) "2"); [|reflexivity].
      destruct rest as [|m rest]; [reflexivity|].
      destruct (String.eqb (Str.strip m) ""); [reflexivity|].
      destruct (download_sitemap (env_get env) (Str.strip m)); cbn [bind];
        [apply HE|reflexivity|reflexivity].
Qed.

(** [process_website] never extracts the same URL twice: the list it runs
    the extraction on has no duplicates, whatever the limit. *)
Theorem process_website_no_duplicate_urls (env : Env) (limit : option Z) (r : Run) :
  process_website env limit = Ok r -> NoDup (run_urls r).
Proof.
  rewrite process_website_limit_split.
  destruct (process_website env None) as [r0| |] eqn:E; cbn [bind]; try discriminate.
  intros H. injection H as <-. cbn [run_urls]. apply apply_limit_nodup.
  unfold process_website in E.
  assert (HX : forall text source prompted crawled,
    extract_from None text source prompted crawled = Ok r0 -> NoDup (run_urls r0)).
  { intros text source prompted crawled Hx.
    destruct (extract_from_urls _ _ _ _ _ _ Hx) as (urls & Hp & ->).
    exact (parse_sitemap_nodup _ _ Hp). }
  destruct (env_find env) as [u|].
  - destruct (download_sitemap (env_get env) u); cbn [bind] in E; try discriminate. exact (HX _ _ _ _ E).
  - destruct (env_inputs env) as [|c rest]; [discriminate|].
    destruct (String.eqb (Str.strip c) "1").
    + destruct (env_crawl env); [discriminate|exact (HX _ _ _ _ E)].
    + destruct (String.eqb (Str.strip c) "2"); [|discriminate].
      destruct rest as [|m rest]; [discriminate|].
      destruct (String.eqb (Str.strip m) ""); [discriminate|].
      destruct (download_sitemap (env_get env) (Str.strip m)); cbn [bind] in E; try discriminate.
      exact (HX _ _ _ _ E).
Qed.

Lemma process_website_no_duplicate_urls_witness :
  process_website (found_env test_parse_sitemap_doc) (Some 5%Z)
    = Ok {| run_urls := ["https://example.com/"; "https://example.com/about"];
            run_source := "found"; run_prompted := false; run_crawled := false |} /\
  NoDup ["https://example.com/"; "https://example.com/about"].
Proof.
  split; [vm_compute; reflexivity|].
  apply (process_website_no_duplicate_urls (found_env test_parse_sitemap_doc) (Some 5%Z)
           {| run_urls := ["https://example.com/"; "https://example.com/about"];
              run_source := "found"; run_prompted := false; run_crawled := false |}).
  vm_compute. reflexivity.
Defined.

(** When no sitemap is found and the answer to the prompt is [1], a run
    that succeeds extracts the crawled pages, in the order of the crawl and
    cut by the limit, provided their URLs and the date are plain XML text
    and the URLs are non-empty, distinct and in the form the inline
    normalization of [parse_sitemap] gives. *)
Theorem process_website_crawled_urls (env : Env) (limit : option Z) (c : string)
    (rest : list string) (r : Run) :
  env_find env = None -> env_inputs env = c :: rest -> Str.strip c = "1" ->
  xml_text_safe (env_today env) = true ->
  (forall u, In u (env_crawl env) ->
     u <> "" /\ xml_text_safe u = true /\ sitemap_inline_normalize (Str.strip u) = Some u) ->
  NoDup (env_crawl env) ->
  process_website env limit = Ok r ->
  r = {| run_urls := apply_limit limit (env_crawl env); run_source := "generated";
         run_prompted := true; run_crawled := true |}.
Proof.
  intros Hf Hi Hc HT Hus Hnd. unfold process_website.
  rewrite Hf, Hi, Hc. cbn [String.eqb Ascii.eqb Bool.eqb].
  destruct (env_crawl env) as [|d ds] eqn:E; [discriminate|].
  unfold extract_from.
  rewrite (SitemapRoundTrip.parse_sitemap_generated (env_today env) (d :: ds) HT Hus Hnd).
  cbn [bind]. intros H. injection H as <-. reflexivity.
Qed.

Lemma process_website_crawled_urls_witness :
  process_website crawl_choice_env (Some 2%Z)
  = Ok {| run_urls := ["https://example.com/"; "https://example.com/docs"];
          run_source := "generated"; run_prompted := true; run_crawled := true |} /\
  {| run_urls := ["https://example.com/"; "https://example.com/docs"];
     run_source := "generated"; run_prompted := true; run_crawled := true |}
  = {| run_urls := apply_limit (Some 2%Z) (env_crawl crawl_choice_env); run_source := "generated";
       run_prompted := true; run_crawled := true |}.
Proof.
  split; [vm_compute; reflexivity|].
  apply (process_website_crawled_urls crawl_choice_env (Some 2%Z) " 1 " []).
  - reflexivity.
  - reflexivity.
  - vm_compute. reflexivity.
  - vm_compute. reflexivity.
  - intros u [<-|[<-|[<-|[]]]]; (split; [discriminate|split; vm_compute; reflexivity]).
  - repeat constructor; simpl; intuition discriminate.
  - vm_compute. reflexivity.
Defined.

(* ------------------------------------------------------------------ *)
(** ** [_save_to_separate_files] never overwrites a file *)

Module SaveFilesProof.
Import Os SaveFiles.

Lemma append_nil_r (s : string) : s ++ "" = s.
Proof. induction s as [|a s IH]; simpl; [reflexivity | now rewrite IH]. Qed.

Lemma append_assoc (x y z : string) : x ++ (y ++ z) = (x ++ y) ++ z.
Proof. induction x as [|a x IH]; simpl; [reflexivity | now rewrite IH]. Qed.

Lemma substring_0_all (s : string) : substring 0 (String.length s) s = s.
Proof. induction s as [|a s IH]; simpl; [reflexivity | now rewrite IH]. Qed.

Lemma take_drop (n : nat) (s : string) : Str.take n s ++ Str.drop n s = s.
Proof.
  unfold Str.take, Str.drop. revert n.
  induction s as [|a s IH]; intros [|n]; simpl; try reflexivity.
  - now rewrite substring_0_all.
  - now rewrite IH.
Qed.

Lemma drop_0 (s : string) : Str.drop 0 s = s.
Proof. unfold Str.drop. rewrite Nat.sub_0_r. apply substring_0_all. Qed.

Lemma drop_app (n : nat) (x y : string) :
  String.length x <= n -> Str.drop n (x ++ y) = Str.drop (n - String.length x) y.
Proof.
  unfold Str.drop. revert n. induction x as [|a x IH]; intros n Hn; simpl.
  - now rewrite Nat.sub_0_r.
  - destruct n as [|n]; simpl in Hn; [lia|]. simpl. rewrite <- IH by lia.
    reflexivity.
Qed.

Lemma take_app_length (x y : string) : Str.take (String.length x) (x ++ y) = x.
Proof.
  unfold Str.take. induction x as [|a x IH]; simpl.
  - destruct y; reflexivity.
  - now rewrite IH.
Qed.

Lemma has_take (c : ascii) (n : nat) (s : string) :
  Str.has c s = false -> Str.has c (Str.take n s) = false.
Proof.
  intros H. rewrite <- (take_drop n s) in H. rewrite has_app in H.
  now apply orb_false_elim in H.
Qed.

Lemma has_drop (c : ascii) (n : nat) (s : string) :
  Str.has c s = false -> Str.has c (Str.drop n s) = false.
Proof.
  intros H. rewrite <- (take_drop n s) in H. rewrite has_app in H.
  now apply orb_false_elim in H.
Qed.

Lemma split_on_nonempty (c : ascii) (s : string) : Str2.split_on c s <> [].
Proof.
  destruct s as [|a s]; simpl; [discriminate|].
  destruct (Ascii.eqb a c); [discriminate|]. destruct (Str2.split_on c s); discriminate.
Qed.

Lemma split_on_app (c : ascii) (a b : string) :
  Str2.split_on c (a ++ String c b) = (Str2.split_on c a ++ Str2.split_on c b)%list.
Proof.
  induction a as [|d a IH]; simpl.
  - now rewrite Ascii.eqb_refl.
  - rewrite IH. destruct (Ascii.eqb d c); [reflexivity|].
    destruct (Str2.split_on c a) as [|p ps] eqn:E.
    + exfalso. exact (split_on_nonempty c a E).
    + reflexivity.
Qed.

Lemma split_on_nohas (c : ascii) (s : string) :
  Str.has c s = false -> Str2.split_on c s = [s].
Proof.
  induction s as [|d s IH]; simpl; [reflexivity|]. intros H.
  apply orb_false_elim in H as [H1 H2]. rewrite IH by exact H2.
  rewrite Ascii.eqb_sym, H1. reflexivity.
Qed.

Lemma split_on_in_nohas (c : ascii) (s x : string) :
  In x (Str2.split_on c s) -> Str.has c x = false.
Proof.
  revert x. induction s as [|d s IH]; simpl; intros x Hx.
  - destruct Hx as [<-|[]]. reflexivity.
  - destruct (Ascii.eqb d c) eqn:E.
    + destruct Hx as [<-|Hx]; [reflexivity|]. now apply IH.
    + destruct (Str2.split_on c s) as [|p ps] eqn:Es.
      * exfalso. exact (split_on_nonempty c s Es).
      * destruct Hx as [<-|Hx].
        -- simpl. rewrite Ascii.eqb_sym, E. apply IH. now left.
        -- apply IH. now right.
Qed.

Lemma comps_app_slash (a b : string) : comps (a ++ String "/" b) = (comps a ++ comps b)%list.
Proof. unfold comps. now rewrite split_on_app, filter_app. Qed.

Lemma comps_nohas (s : string) :
  s <> "" -> Str.has "/" s = false -> comps s = [s].
Proof.
  intros Hne H. unfold comps. rewrite split_on_nohas by exact H. simpl.
  destruct (String.eqb s "") eqn:E; [apply String.eqb_eq in E; contradiction|]. reflexivity.
Qed.

Lemma comps_empty : comps "" = [].
Proof. reflexivity. Qed.

Lemma comps_slash_end (a : string) : comps (a ++ "/") = comps a.
Proof. rewrite comps_app_slash, comps_empty. apply app_nil_r. Qed.

Definition all_slash (w : string) : bool := Str.all (fun x => Ascii.eqb x "/") w.

Lemma comps_app_all_slash (x w : string) : all_slash w = true -> comps (x ++ w) = comps x.
Proof.
  revert x. induction w as [|a w IH]; intros x H.
  - now rewrite append_nil_r.
  - simpl in H. apply andb_prop in H as [Ha Hw]. apply Ascii.eqb_eq in Ha. subst a.
    replace (x ++ String "/" w) with ((x ++ "/") ++ w)
      by (now rewrite <- append_assoc).
    rewrite IH by exact Hw. apply comps_slash_end.
Qed.

Lemma rstrip_spec (c : ascii) (s : string) :
  exists w, s = Str.rstrip c s ++ w /\ Str.all (fun x => Ascii.eqb x c) w = true.
Proof.
  induction s as [|d r IH]; simpl.
  - exists "". split; reflexivity.
  - destruct IH as [w [Hr Hw]].
    destruct (Str.rstrip c r) as [|e r'] eqn:E.
    + simpl in Hr. subst r. destruct (Ascii.eqb c d) eqn:Ecd.
      * apply Ascii.eqb_eq in Ecd. subst d. exists (String c w). simpl.
        rewrite Ascii.eqb_refl. split; [reflexivity | exact Hw].
      * exists w. split; [reflexivity | exact Hw].
    + exists w. simpl. rewrite Hr at 1. split; [reflexivity | exact Hw].
Qed.

Lemma startswith_cons (a : ascii) (r : string) :
  Str.startswith "/" (String a r) = Ascii.eqb "/" a.
Proof.
  unfold Str.startswith.
  change (String.prefix "/" (String a r))
    with (if Ascii.ascii_dec "/" a then String.prefix "" r else false).
  destruct (Ascii.ascii_dec "/" a) as [E|E].
  - subst a. destruct r; reflexivity.
  - symmetry. now apply Ascii.eqb_neq.
Qed.

Lemma startswith_slash_app (x y : string) :
  x <> "" -> Str.startswith "/" (x ++ y) = Str.startswith "/" x.
Proof.
  intros H. destruct x as [|a x]; [contradiction|]. simpl (String a x ++ y).
  now rewrite !startswith_cons.
Qed.

Lemma startswith_nohas (w : string) : Str.has "/" w = false -> Str.startswith "/" w = false.
Proof.
  destruct w as [|a w]; [reflexivity|]. intros H. cbn [Str.has] in H.
  apply orb_false_elim in H as [H _]. rewrite startswith_cons.
  rewrite Ascii.eqb_sym. exact H.
Qed.

Lemma rfind_none (c : ascii) (s : string) : Str.rfind c s = None -> Str.has c s = false.
Proof.
  induction s as [|d r IH]; simpl; [reflexivity|].
  destruct (Str.rfind c r); [discriminate|].
  destruct (Ascii.eqb c d); [discriminate|]. intros _. now rewrite IH.
Qed.

Lemma rfind_some (c : ascii) (s : string) (j : nat) :
  Str.rfind c s = Some j ->
  exists x y, s = x ++ String c y /\ Str.take (S j) s = x ++ String c "" /\
              Str.drop (S j) s = y /\ Str.has c y = false.
Proof.
  revert j. induction s as [|d r IH]; simpl; intros j H; [discriminate|].
  destruct (Str.rfind c r) as [i|] eqn:R.
  - injection H as <-. destruct (IH i eq_refl) as [x [y [Hr [Ht [Hd Hy]]]]].
    exists (String d x), y. split; [simpl; now rewrite Hr at 1|].
    split; [|split; [|exact Hy]].
    + unfold Str.take in *. simpl. now rewrite Ht.
    + unfold Str.drop in *. simpl. exact Hd.
  - destruct (Ascii.eqb c d) eqn:E; [|discriminate]. injection H as <-.
    apply Ascii.eqb_eq in E. subst d. exists "", r.
    split; [reflexivity|]. split; [unfold Str.take; simpl; destruct r; reflexivity|].
    split; [unfold Str.drop; simpl; rewrite Nat.sub_0_r; apply substring_0_all|].
    now apply rfind_none.
Qed.

Lemma string_app_neq_empty_r (x y : string) : y <> "" -> x ++ y <> "".
Proof. destruct x; simpl; [auto | discriminate]. Qed.

(** [os.path.split] splits off the last component. *)
Lemma path_split_comps (p h tl : string) :
  path_split p = (h, tl) -> tl <> "" -> h <> "" ->
  comps p = (comps h ++ [tl])%list /\ Str.startswith "/" p = Str.startswith "/" h /\
  Str.has "/" tl = false.
Proof.
  unfold path_split. intros Hs Htl Hh.
  destruct (Str.rfind "/" p) as [j|] eqn:R.
  - destruct (rfind_some _ _ _ R) as [x [y [Hp [Ht [Hd Hy]]]]].
    rewrite Ht, Hd in Hs. injection Hs as Hh' Htl'. subst tl.
    assert (Hc : comps p = (comps x ++ [y])%list)
      by (rewrite Hp, comps_app_slash, (comps_nohas y) by assumption; reflexivity).
    destruct (negb (String.eqb (x ++ String "/" "") "") &&
              negb (Str.all (fun c => Ascii.eqb c "/") (x ++ String "/" ""))) eqn:B;
      subst h.
    + destruct (rstrip_spec "/" (x ++ String "/" "")) as [w [Hw Hwa]].
      split; [|split; [|exact Hy]].
      * rewrite Hc. f_equal. rewrite <- (comps_app_all_slash (Str.rstrip "/" (x ++ String "/" "")) w Hwa), <- Hw.
        symmetry. apply comps_slash_end.
      * rewrite Hp. replace (x ++ String "/" y) with ((x ++ String "/" "") ++ y)
          by (now rewrite <- append_assoc).
        rewrite Hw at 1; rewrite <- append_assoc. now apply startswith_slash_app.
    + split; [|split; [|exact Hy]].
      * rewrite Hc. f_equal. symmetry. apply comps_slash_end.
      * rewrite Hp. replace (x ++ String "/" y) with ((x ++ String "/" "") ++ y)
          by (now rewrite <- append_assoc).
        now apply startswith_slash_app.
  - replace (Str.take 0 p) with "" in Hs by (destruct p; reflexivity).
    injection Hs as Hh1 Hh2. subst h. exfalso; exact (Hh eq_refl).
Qed.

(** A path with a trailing slash: [os.path.split] strips the slashes. *)
Lemma path_split_trailing (p h : string) :
  path_split p = (h, "") -> p <> "" ->
  h <> "" /\ comps h = comps p /\ Str.startswith "/" h = Str.startswith "/" p.
Proof.
  unfold path_split. intros Hs Hp0.
  destruct (Str.rfind "/" p) as [j|] eqn:R.
  - destruct (rfind_some _ _ _ R) as [x [y [Hp [Ht [Hd Hy]]]]].
    rewrite Ht, Hd in Hs. injection Hs as Hh' Htl'. subst y.
    assert (Hc : comps p = comps x) by (rewrite Hp; apply comps_slash_end).
    destruct (negb (String.eqb (x ++ String "/" "") "") &&
              negb (Str.all (fun c => Ascii.eqb c "/") (x ++ String "/" ""))) eqn:B;
      subst h.
    + destruct (rstrip_spec "/" (x ++ String "/" "")) as [w [Hw Hwa]].
      assert (Hne : Str.rstrip "/" (x ++ String "/" "") <> "").
      { intros E. rewrite E in Hw. simpl in Hw. rewrite <- Hw in Hwa.
        rewrite Hwa in B. apply andb_prop in B as [_ B]. discriminate. }
      split; [exact Hne|]. split.
      * rewrite Hc. rewrite <- (comps_app_all_slash (Str.rstrip "/" (x ++ String "/" "")) w Hwa), <- Hw.
        apply comps_slash_end.
      * rewrite Hp. rewrite Hw at 2. rewrite startswith_slash_app by exact Hne.
        reflexivity.
    + split; [destruct x; discriminate|]. split.
      * rewrite Hc. apply comps_slash_end.
      * now rewrite Hp.
  - replace (Str.take 0 p) with "" in Hs by (destruct p; reflexivity).
    injection Hs as _ Htl.
    rewrite drop_0 in Htl. contradiction.
Qed.



Lemma key_eqb_true (a b : key) : key_eqb a b = true -> a = b.
Proof. unfold key_eqb. destruct (list_eq_dec string_dec a b); congruence. Qed.

Lemma key_eqb_refl (a : key) : key_eqb a a = true.
Proof. unfold key_eqb. destruct (list_eq_dec string_dec a a); congruence. Qed.

Lemma lookup_cons (k k' : key) (n : node) (t : fs) :
  k' <> [] -> lookup ((k, n) :: t) k' = if key_eqb k k' then Some n else lookup t k'.
Proof.
  intros H. destruct k' as [|c k']; [contradiction|]. simpl.
  destruct (key_eqb k (c :: k')); reflexivity.
Qed.

Lemma lookup_none_nonempty (t : fs) (k : key) : lookup t k = None -> k <> [].
Proof. destruct k; [discriminate | intros _; discriminate]. Qed.

Lemma grows_refl (t : fs) : grows t t.
Proof. intros k n H. exact H. Qed.

Lemma grows_trans (t1 t2 t3 : fs) : grows t1 t2 -> grows t2 t3 -> grows t1 t3.
Proof. intros H1 H2 k n H. auto. Qed.

Lemma dgrow_refl (t : fs) : dgrow t t.
Proof. split; [apply grows_refl | intros k H; now left]. Qed.

Lemma dgrow_trans (t1 t2 t3 : fs) : dgrow t1 t2 -> dgrow t2 t3 -> dgrow t1 t3.
Proof.
  intros [G1 D1] [G2 D2]. split; [eapply grows_trans; eauto|].
  intros k H. destruct (D1 k H) as [H'|H']; [now apply D2 | right; now apply G2].
Qed.

Lemma grows_fresh (t : fs) (k : key) (n : node) :
  lookup t k = None -> grows t ((k, n) :: t).
Proof.
  intros Hk k' n' H. destruct k' as [|c k'']; [exact H|].
  rewrite lookup_cons by discriminate.
  destruct (key_eqb k (c :: k'')) eqn:E; [|exact H].
  apply key_eqb_true in E. subst k. congruence.
Qed.

Lemma lookup_fresh_same (t : fs) (k : key) (n : node) :
  lookup t k = None -> lookup ((k, n) :: t) k = Some n.
Proof.
  intros H. rewrite lookup_cons by exact (lookup_none_nonempty t k H).
  now rewrite key_eqb_refl.
Qed.

Lemma dgrow_fresh_dir (t : fs) (k : key) : lookup t k = None -> dgrow t ((k, Dir) :: t).
Proof.
  intros Hk. split; [now apply grows_fresh|]. intros k' Hk'.
  rewrite lookup_cons by exact (lookup_none_nonempty t k' Hk').
  destruct (key_eqb k k'); [now right | now left].
Qed.

Lemma grows_none (t t' : fs) (k : key) : grows t t' -> lookup t' k = None -> lookup t k = None.
Proof.
  intros G H. destruct (lookup t k) as [n|] eqn:E; [|reflexivity].
  rewrite (G _ _ E) in H. discriminate.
Qed.

Lemma walk_errs (t : fs) (cur : key) (cs : list string) (e : pyerr) :
  walk t cur cs = RErr e -> e = NotADirectoryError \/ e = FileNotFoundError.
Proof.
  revert cur. induction cs as [|c cs IH]; simpl; intros cur H; [discriminate|].
  destruct (lookup t cur) as [[|x]|].
  - exact (IH _ H).
  - injection H as <-. now left.
  - injection H as <-. now right.
Qed.

Lemma walk_not_out (t : fs) (cur : key) (cs : list string) : walk t cur cs <> ROut.
Proof.
  revert cur. induction cs as [|c cs IH]; simpl; intros cur; [discriminate|].
  destruct (lookup t cur) as [[|x]|]; [apply IH | discriminate | discriminate].
Qed.

Lemma walk_grows (t t' : fs) (cur : key) (cs : list string) (r : res key) :
  grows t t' -> walk t cur cs = r -> r <> RErr FileNotFoundError -> walk t' cur cs = r.
Proof.
  intros G. revert cur. induction cs as [|c cs IH]; simpl; intros cur H Hr; [exact H|].
  destruct (lookup t cur) as [[|x]|] eqn:L.
  - rewrite (G _ _ L). now apply IH.
  - rewrite (G _ _ L). exact H.
  - subst r. contradiction.
Qed.

Lemma walk_app (t : fs) (cur : key) (cs1 cs2 : list string) :
  walk t cur (cs1 ++ cs2) =
  match walk t cur cs1 with ROk k => walk t k cs2 | RErr e => RErr e | ROut => ROut end.
Proof.
  revert cur. induction cs1 as [|c cs IH]; simpl; intros cur; [reflexivity|].
  destruct (lookup t cur) as [[|x]|]; [apply IH | reflexivity | reflexivity].
Qed.

Lemma walk_one (t : fs) (k : key) (c : string) :
  walk t k [c] = match lookup t k with
                 | Some Dir => ROk (step k c)
                 | Some (File _) => RErr NotADirectoryError
                 | None => RErr FileNotFoundError
                 end.
Proof. reflexivity. Qed.

Section WithCwd.

Variable cwd : key.

Lemma walk_from_grows (t t' : fs) (p : string) (r : res key) :
  grows t t' -> walk_from cwd t p = r -> r <> RErr FileNotFoundError ->
  walk_from cwd t' p = r.
Proof. unfold walk_from. apply walk_grows. Qed.

Lemma present_grows (t t' : fs) (p : string) :
  grows t t' -> present cwd t p -> present cwd t' p.
Proof.
  intros G [H|[k [n [H Hn]]]].
  - left. apply (walk_from_grows t); [exact G | exact H | discriminate].
  - right. exists k, n. split; [apply (walk_from_grows t); [exact G | exact H | discriminate]|].
    now apply G.
Qed.

Lemma resolve_walk (t : fs) (p : string) (k : key) :
  resolve cwd t p = ROk k -> walk_from cwd t p = ROk k.
Proof.
  unfold resolve. destruct (String.eqb p ""); [discriminate|].
  destruct (walk_from cwd t p) as [k0|e|]; [|discriminate|discriminate].
  destruct (lookup t k0) as [[|x]|]; [congruence| |congruence].
  destruct (Str.endswith "/" p); congruence.
Qed.

Lemma resolve_errs (t : fs) (p : string) (e : pyerr) :
  resolve cwd t p = RErr e -> e = NotADirectoryError \/ e = FileNotFoundError.
Proof.
  unfold resolve. destruct (String.eqb p ""); [intros H; injection H as <-; now right|].
  destruct (walk_from cwd t p) as [k0|e0|] eqn:W; [|intros H; injection H as <-; exact (walk_errs _ _ _ _ W)|discriminate].
  destruct (lookup t k0) as [[|x]|]; [discriminate| |discriminate].
  destruct (Str.endswith "/" p); [intros H; injection H as <-; now left | discriminate].
Qed.

Lemma resolve_plain (t : fs) (p : string) :
  p <> "" -> Str.endswith "/" p = false -> resolve cwd t p = walk_from cwd t p.
Proof.
  intros H1 H2. unfold resolve.
  destruct (String.eqb p "") eqn:E; [apply String.eqb_eq in E; contradiction|].
  destruct (walk_from cwd t p) as [k0|e0|]; try reflexivity.
  destruct (lookup t k0) as [[|x]|]; try reflexivity. now rewrite H2.
Qed.

Lemma isdir_present (t : fs) (p : string) : isdir cwd t p = true -> present cwd t p.
Proof.
  unfold isdir. destruct (resolve cwd t p) as [k|e|] eqn:R; try discriminate.
  destruct (lookup t k) as [[|x]|] eqn:L; try discriminate. intros _.
  right. exists k, Dir. split; [now apply resolve_walk | exact L].
Qed.

Lemma mkdir_dgrow (p : string) (t t' : fs) (r : res unit) :
  mkdir cwd p t = (t', r) -> dgrow t t'.
Proof.
  unfold mkdir. destruct (resolve cwd t p) as [k|e|].
  - destruct (lookup t k) eqn:L; intros H; injection H as <- _;
      [apply dgrow_refl | now apply dgrow_fresh_dir].
  - intros H; injection H as <- _; apply dgrow_refl.
  - intros H; injection H as <- _; apply dgrow_refl.
Qed.

Lemma mkdir_present (p : string) (t t' : fs) (r : res unit) :
  mkdir cwd p t = (t', r) -> r = ROk tt \/ r = RErr FileExistsError -> present cwd t' p.
Proof.
  unfold mkdir. destruct (resolve cwd t p) as [k|e|] eqn:R.
  - destruct (lookup t k) as [n|] eqn:L; intros H; injection H as <- <-; intros _.
    + right. exists k, n. split; [now apply resolve_walk | exact L].
    + right. exists k, Dir. split; [|now apply lookup_fresh_same].
      apply (walk_from_grows t); [now apply grows_fresh | now apply resolve_walk | discriminate].
  - intros H; injection H as <- <-. intros [H|H]; [discriminate|].
    injection H as ->. destruct (resolve_errs _ _ _ R) as [E|E]; discriminate.
  - intros H; injection H as <- <-. intros [H|H]; discriminate.
Qed.

Lemma mkdir_exist_ok_dgrow (p : string) (t t' : fs) (r : res unit) :
  mkdir_exist_ok cwd p t = (t', r) -> dgrow t t'.
Proof.
  unfold mkdir_exist_ok. destruct (mkdir cwd p t) as [t1 r1] eqn:Hm.
  apply mkdir_dgrow in Hm.
  destruct r1 as [u|e|]; [| destruct (isdir cwd t1 p) |]; intros H; injection H as <- _; exact Hm.
Qed.

Lemma mkdir_exist_ok_present (p : string) (t t' : fs) (r : res unit) :
  mkdir_exist_ok cwd p t = (t', r) -> r = ROk tt \/ r = RErr FileExistsError ->
  present cwd t' p.
Proof.
  unfold mkdir_exist_ok. destruct (mkdir cwd p t) as [t1 r1] eqn:Hm.
  destruct r1 as [u|e|].
  - intros H; injection H as <- <-. intros _. apply (mkdir_present p t t1 (ROk u) Hm).
    left. now destruct u.
  - destruct (isdir cwd t1 p) eqn:D; intros H; injection H as <- <-.
    + intros _. now apply isdir_present.
    + intros HE. apply (mkdir_present p t t1 (RErr e) Hm).
      destruct HE as [HE|HE]; [discriminate | now right].
  - intros H; injection H as <- <-. intros [HE|HE]; discriminate.
Qed.

Lemma makedirs_dgrow (fuel : nat) (name : string) (t t' : fs) (r : res unit) :
  makedirs cwd fuel name t = (t', r) -> dgrow t t'.
Proof.
  revert name t t' r. induction fuel as [|f IH]; intros name t t' r.
  - simpl. intros H. injection H as <- _. apply dgrow_refl.
  - cbn [makedirs]. destruct (makedirs_split name) as [head tail].
    destruct (negb (String.eqb head "") && negb (String.eqb tail "") &&
              negb (path_exists cwd t head)).
    + destruct (makedirs cwd f head t) as [t1 r1] eqn:Hr. apply IH in Hr.
      destruct r1 as [u|[]|]; try (intros H; injection H as <- _; exact Hr);
        (destruct (String.eqb tail "."); [intros H; injection H as <- _; exact Hr|]);
        intros H; exact (dgrow_trans _ _ _ Hr (mkdir_exist_ok_dgrow _ _ _ _ H)).
    + apply mkdir_exist_ok_dgrow.
Qed.

Lemma makedirs_split_dot (name head : string) :
  makedirs_split name = (head, ".") -> head <> "" ->
  comps name = (comps head ++ ["."])%list /\ Str.startswith "/" name = Str.startswith "/" head.
Proof.
  unfold makedirs_split. destruct (path_split name) as [h tl] eqn:Hs.
  destruct (String.eqb tl "") eqn:Etl.
  - apply String.eqb_eq in Etl. subst tl. intros Hs2 Hh.
    assert (Hn : name <> "").
    { intros ->. vm_compute in Hs. injection Hs as <-. vm_compute in Hs2. discriminate. }
    destruct (path_split_trailing name h Hs Hn) as [Hh0 [Hc Hst]].
    destruct (path_split_comps h head "." Hs2 ltac:(discriminate) Hh) as [Hc2 [Hst2 _]].
    split; congruence.
  - intros H Hh. injection H as -> ->.
    destruct (path_split_comps name head "." Hs ltac:(discriminate) Hh) as [Hc [Hst _]].
    now split.
Qed.

Lemma present_dot (t : fs) (name head : string) :
  comps name = (comps head ++ ["."])%list -> Str.startswith "/" name = Str.startswith "/" head ->
  present cwd t head -> present cwd t name.
Proof.
  intros Hc Hst Hp. unfold present, walk_from in *. rewrite Hc, Hst, walk_app.
  destruct Hp as [H|[k [n [H Hn]]]]; rewrite H; [now left|].
  rewrite walk_one, Hn. destruct n as [|x].
  - right. exists k, Dir. split; [reflexivity | exact Hn].
  - now left.
Qed.

Lemma makedirs_present (fuel : nat) (name : string) (t t' : fs) (r : res unit) :
  makedirs cwd fuel name t = (t', r) -> r = ROk tt \/ r = RErr FileExistsError ->
  present cwd t' name.
Proof.
  revert name t t' r. induction fuel as [|f IH]; intros name t t' r.
  - simpl. intros H. injection H as <- <-. intros [H|H]; discriminate.
  - cbn [makedirs]. destruct (makedirs_split name) as [head tail] eqn:Hsp.
    destruct (negb (String.eqb head "") && negb (String.eqb tail "") &&
              negb (path_exists cwd t head)) eqn:C.
    + apply andb_prop in C as [C _]. apply andb_prop in C as [C _].
      apply negb_true_iff, String.eqb_neq in C.
      destruct (makedirs cwd f head t) as [t1 r1] eqn:Hr.
      assert (Hdot : String.eqb tail "." = true -> (r1 = ROk tt \/ r1 = RErr FileExistsError) ->
                     present cwd t1 name).
      { intros Et Hr1. apply String.eqb_eq in Et. subst tail.
        destruct (makedirs_split_dot name head Hsp C) as [Hc Hst].
        apply (present_dot t1 name head Hc Hst). exact (IH _ _ _ _ Hr Hr1). }
      destruct r1 as [u|[]|];
        try (intros H; injection H as <- <-; intros [HE|HE]; discriminate);
        (destruct (String.eqb tail ".") eqn:Et;
         [intros H; injection H as <- <-; intros _; apply Hdot; [reflexivity|];
          first [left; now destruct u | now right]|]);
        apply mkdir_exist_ok_present.
    + apply mkdir_exist_ok_present.
Qed.

End WithCwd.



Lemma str_length_app (x y : string) : String.length (x ++ y) = String.length x + String.length y.
Proof. induction x as [|a x IH]; simpl; [reflexivity | now rewrite IH]. Qed.

Lemma endswith_slash_split (d : string) :
  Str.endswith "/" d = true -> exists d', d = d' ++ "/".
Proof.
  unfold Str.endswith. intros H. apply andb_prop in H as [_ H].
  apply String.eqb_eq in H. exists (Str.take (String.length d - 1) d).
  rewrite <- H. symmetry. apply take_drop.
Qed.

Lemma endswith_slash_app (x f : string) :
  f <> "" -> Str.has "/" f = false -> Str.endswith "/" (x ++ f) = false.
Proof.
  intros Hf Hh. unfold Str.endswith.
  destruct (String.eqb (Str.drop (String.length (x ++ f) - String.length "/") (x ++ f)) "/") eqn:E;
    [|apply andb_false_r].
  apply String.eqb_eq in E. rewrite drop_app in E.
  - assert (Hd := has_drop "/" (String.length (x ++ f) - String.length "/" - String.length x) f Hh).
    rewrite E in Hd. discriminate.
  - rewrite str_length_app. destruct f; [contradiction|]. simpl. lia.
Qed.

(** A name with no slash that is neither [.] nor [..]. *)
Lemma join_one_shape (d f : string) :
  f <> "" -> Str.has "/" f = false ->
  comps (join_one d f) = (comps d ++ [f])%list /\
  Str.startswith "/" (join_one d f) = Str.startswith "/" d /\
  join_one d f <> "" /\ Str.endswith "/" (join_one d f) = false.
Proof.
  intros Hf Hh. unfold join_one. rewrite (startswith_nohas f Hh).
  destruct (String.eqb d "") eqn:Ed.
  - apply String.eqb_eq in Ed. subst d. simpl.
    split; [exact (comps_nohas f Hf Hh)|]. split; [exact (startswith_nohas f Hh)|].
    split; [exact Hf|]. exact (endswith_slash_app "" f Hf Hh).
  - apply String.eqb_neq in Ed. simpl.
    split; [|split; [|split]].
    + destruct (Str.endswith "/" d) eqn:Es.
      * destruct (endswith_slash_split d Es) as [d' ->].
        rewrite <- append_assoc. simpl. rewrite comps_app_slash, comps_slash_end.
        now rewrite (comps_nohas f Hf Hh).
      * rewrite comps_app_slash. now rewrite (comps_nohas f Hf Hh).
    + destruct (Str.endswith "/" d); now apply startswith_slash_app.
    + destruct (Str.endswith "/" d); apply string_app_neq_empty_r; [exact Hf | discriminate].
    + destruct (Str.endswith "/" d).
      * exact (endswith_slash_app d f Hf Hh).
      * change ("/" ++ f) with (String "/" f).
        replace (d ++ String "/" f) with ((d ++ "/") ++ f) by (now rewrite <- append_assoc).
        exact (endswith_slash_app _ f Hf Hh).
Qed.

Lemma step_plain (k : key) (f : string) :
  f <> "." -> f <> ".." -> step k f = (k ++ [f])%list.
Proof.
  intros H1 H2. unfold step.
  destruct (String.eqb f ".") eqn:E1; [apply String.eqb_eq in E1; contradiction|].
  destruct (String.eqb f "..") eqn:E2; [apply String.eqb_eq in E2; contradiction|].
  reflexivity.
Qed.

Section WithCwd2.

Variable cwd : key.

(** A name joined to a path that is [present] resolves, unless the path
    runs into a regular file. *)
Lemma join_one_walk (t : fs) (d f : string) :
  f <> "" -> Str.has "/" f = false -> f <> "." -> f <> ".." -> present cwd t d ->
  walk_from cwd t (join_one d f) = RErr NotADirectoryError \/
  exists k, walk_from cwd t (join_one d f) = ROk k.
Proof.
  intros Hf Hh H1 H2 Hp. destruct (join_one_shape d f Hf Hh) as [Hc [Hs _]].
  unfold present, walk_from in *. rewrite Hc, Hs, walk_app.
  destruct Hp as [H|[k [n [H Hn]]]]; rewrite H; [now left|].
  rewrite walk_one, Hn. destruct n; [right; eauto | now left].
Qed.

End WithCwd2.

Lemma rfind_sub_md (x : string) :
  rfind_sub ".md" (x ++ ".md") (S (String.length (x ++ ".md") - String.length ".md")) =
  Some (String.length x).
Proof.
  rewrite str_length_app. simpl (String.length ".md").
  replace (String.length x + 3 - 3) with (String.length x) by lia.
  cbn [rfind_sub]. rewrite drop_app by lia. rewrite Nat.sub_diag. reflexivity.
Qed.

Lemma rsplit_head_md (x : string) : rsplit_head ".md" (x ++ ".md") = x.
Proof. unfold rsplit_head. rewrite rfind_sub_md. apply take_app_length. Qed.

Lemma has_string_of_uint (u : Decimal.uint) :
  Str.has "/" (NilEmpty.string_of_uint u) = false.
Proof. induction u; simpl; auto. Qed.

Lemma has_py_str_nat (n : nat) : Str.has "/" (py_str_nat n) = false.
Proof. apply has_string_of_uint. Qed.

Lemma has_rsplit_head (sep s : string) :
  Str.has "/" s = false -> Str.has "/" (rsplit_head sep s) = false.
Proof.
  intros H. unfold rsplit_head.
  destruct (rfind_sub sep s _); [now apply has_take | exact H].
Qed.

(** The names the loop tries: [stem.md], then [stem_1.md], [stem_2.md], ... *)
Lemma candidate_join (d stem : string) (n : nat) :
  Str.has "/" stem = false ->
  rsplit_head ".md" (join_one d (stem ++ ".md")) ++ "_" ++ py_str_nat n ++ ".md" =
  join_one d (stem ++ "_" ++ py_str_nat n ++ ".md").
Proof.
  intros Hs. unfold join_one.
  rewrite !startswith_nohas
    by (rewrite ?has_app, Hs; simpl; rewrite ?has_app, ?has_py_str_nat; reflexivity).
  destruct (String.eqb d "" || Str.endswith "/" d).
  - rewrite (append_assoc d stem ".md"), rsplit_head_md. now rewrite <- append_assoc.
  - rewrite (append_assoc "/" stem), (append_assoc d ("/" ++ stem)), rsplit_head_md.
    now rewrite <- !append_assoc.
Qed.

Lemma md_name (x : string) :
  Str.has "/" x = false ->
  x ++ ".md" <> "" /\ Str.has "/" (x ++ ".md") = false /\ x ++ ".md" <> "." /\ x ++ ".md" <> "..".
Proof.
  intros Hx.
  assert (L : String.length (x ++ ".md") >= 3) by (rewrite str_length_app; simpl; lia).
  split; [intros E; rewrite E in L; simpl in L; lia|].
  split; [rewrite has_app, Hx; reflexivity|].
  split; intros E; rewrite E in L; simpl in L; lia.
Qed.

Section WithText.

Variable cwd : key.
Variable page_text : PageResult -> string.

Lemma free_name_spec (t : fs) (fuel : nat) (original fp x : string) (c : nat) :
  free_name cwd t fuel original fp c = ROk x ->
  path_exists cwd t x = false /\
  (x = fp \/ exists n, x = rsplit_head ".md" original ++ "_" ++ py_str_nat n ++ ".md").
Proof.
  revert fp c. induction fuel as [|f IH]; simpl; intros fp c H; [discriminate|].
  destruct (path_exists cwd t fp) eqn:E.
  - destruct (IH _ _ H) as [Hx [Hx'|[n Hn]]]; (split; [exact Hx | right]).
    + exists c. exact Hx'.
    + exists n. exact Hn.
  - injection H as <-. auto.
Qed.

Lemma last_prop (P : string -> Prop) (l : list string) (d : string) :
  (forall x, In x l -> P x) -> P d -> P (last l d).
Proof.
  induction l as [|a l IH]; intros Hl Hd; [exact Hd|].
  destruct l as [|b l]; [apply Hl; now left|].
  apply IH; [intros x Hx; apply Hl; now right | exact Hd].
Qed.

Lemma page_path_spec (pages_dir url_path : string) (t t1 : fs) (fp : string) :
  present cwd t pages_dir ->
  page_path cwd pages_dir url_path t = (t1, ROk fp) ->
  dgrow t t1 /\
  exists d stem, fp = join_one d (stem ++ ".md") /\ Str.has "/" stem = false /\
                 present cwd t1 d.
Proof.
  intros Hp. unfold page_path.
  destruct (String.eqb (strip_slash url_path) "") eqn:E0.
  - intros H. injection H as <- <-. split; [apply dgrow_refl|].
    exists pages_dir, "index". split; [reflexivity|]. split; [reflexivity | exact Hp].
  - set (parts := Str2.split_on "/" (strip_slash url_path)).
    assert (Hlp : Str.has "/" (last parts "") = false).
    { apply last_prop; [intros x Hx; exact (split_on_in_nohas _ _ _ Hx) | reflexivity]. }
    set (lp := last parts "").
    assert (Hdf : exists stem, Str.has "/" stem = false /\
        (if negb (Str.has "." lp) || (Str.endswith ".html" lp || Str.endswith ".htm" lp) then
          (if Nat.ltb 1 (length parts) then path_join pages_dir (removelast parts) else pages_dir,
           if Str.endswith ".html" lp || Str.endswith ".htm" lp then rsplit_head "." lp ++ ".md"
           else lp ++ ".md")
         else (path_join pages_dir parts, "index.md")) =
        (fst (if negb (Str.has "." lp) || (Str.endswith ".html" lp || Str.endswith ".htm" lp) then
          (if Nat.ltb 1 (length parts) then path_join pages_dir (removelast parts) else pages_dir,
           if Str.endswith ".html" lp || Str.endswith ".htm" lp then rsplit_head "." lp ++ ".md"
           else lp ++ ".md")
         else (path_join pages_dir parts, "index.md")), stem ++ ".md")).
    { destruct (negb (Str.has "." lp) || (Str.endswith ".html" lp || Str.endswith ".htm" lp)).
      - destruct (Str.endswith ".html" lp || Str.endswith ".htm" lp).
        + exists (rsplit_head "." lp). split; [now apply has_rsplit_head | reflexivity].
        + exists lp. split; [exact Hlp | reflexivity].
      - exists "index". split; reflexivity. }
    destruct Hdf as [stem [Hstem Hdf]].
    cbv zeta. fold parts. fold lp. rewrite Hdf.
    set (dir_path := fst _). unfold mbind.
    destruct (String.eqb dir_path pages_dir) eqn:Ed.
    + apply String.eqb_eq in Ed. unfold ret. intros H. injection H as <- <-.
      split; [apply dgrow_refl|]. exists dir_path, stem.
      split; [reflexivity|]. split; [exact Hstem|]. now rewrite Ed.
    + destruct (makedirs cwd (S (String.length dir_path)) dir_path t) as [t2 r2] eqn:Hm.
      destruct r2 as [u|e|]; intros H; try discriminate.
      unfold ret in H. injection H as <- <-.
      split; [exact (makedirs_dgrow _ _ _ _ _ _ Hm)|].
      exists dir_path, stem. split; [reflexivity|]. split; [exact Hstem|].
      apply (makedirs_present _ _ _ _ _ _ Hm). left. now destruct u.
Qed.

End WithText.



Lemma mbind_ok {A B} (m : M A) (k : A -> M B) (t t' : fs) (b : B) :
  mbind m k t = (t', ROk b) -> exists t1 a, m t = (t1, ROk a) /\ k a t1 = (t', ROk b).
Proof.
  unfold mbind. destruct (m t) as [t1 [a|e|]]; intros H; [eauto | discriminate | discriminate].
Qed.

Section WithText2.

Variable cwd : key.
Variable page_text : PageResult -> string.

Lemma write_file_ok (p text : string) (t t' : fs) (u : unit) :
  write_file cwd p text t = (t', ROk u) ->
  exists k, resolve cwd t p = ROk k /\ lookup t k <> Some Dir /\ t' = (k, File text) :: t.
Proof.
  unfold write_file. destruct (resolve cwd t p) as [k|e|]; try discriminate.
  destruct (lookup t k) as [[|x]|] eqn:L; try discriminate;
    destruct (Str.endswith "/" p); try discriminate;
    intros H; injection H as <-; exists k; (split; [reflexivity | split; [congruence | reflexivity]]).
Qed.

Lemma resolve_grows (t t' : fs) (p : string) (k : key) (n : node) :
  grows t t' -> lookup t k = Some n -> resolve cwd t p = ROk k -> resolve cwd t' p = ROk k.
Proof.
  intros G Hn. unfold resolve. destruct (String.eqb p ""); [discriminate|].
  destruct (walk_from cwd t p) as [k0|e|] eqn:W; try discriminate.
  rewrite (walk_from_grows cwd t t' p (ROk k0) G W ltac:(discriminate)).
  destruct (lookup t k0) as [m|] eqn:L.
  - rewrite (G _ _ L). exact (fun H => H).
  - intros H. injection H as <-. congruence.
Qed.

Lemma map_resolve_grows (t t' : fs) (s : list string) (ks : list key) :
  grows t t' -> (forall k, In k ks -> exists x, lookup t k = Some (File x)) ->
  map (resolve cwd t) s = map ROk ks -> map (resolve cwd t') s = map ROk ks.
Proof.
  intros G. revert ks. induction s as [|p s IH]; intros [|k ks] Hk H; try discriminate; [reflexivity|].
  simpl in H. injection H as H1 H2. simpl.
  destruct (Hk k (or_introl eq_refl)) as [x Hx].
  rewrite (resolve_grows t t' p k _ G Hx H1).
  rewrite (IH ks (fun k' Hk' => Hk k' (or_intror Hk')) H2). reflexivity.
Qed.

Lemma save_page_spec (pages_dir : string) (r : PageResult) (t t' : fs) (s : list string) :
  present cwd t pages_dir ->
  save_page cwd page_text pages_dir r t = (t', ROk s) ->
  grows t t' /\
  exists ks, map (resolve cwd t') s = map ROk ks /\ NoDup ks /\
    (forall k, In k ks -> lookup t k = None /\ exists x, lookup t' k = Some (File x)).
Proof.
  intros Hp. unfold save_page.
  destruct (truthy (r_content r) && negb (truthy (r_error r))).
  2: { unfold ret. intros H. injection H as <- <-. split; [apply grows_refl|].
       exists []. split; [reflexivity|]. split; [constructor | intros k []]. }
  destruct (urlparse (r_url r)) as [pr|]; [|discriminate].
  intros H. apply mbind_ok in H as [t1 [fp0 [Hpp H]]].
  apply mbind_ok in H as [t2 [fp [Hfn H]]]. injection Hfn as <- Hfn.
  apply mbind_ok in H as [t3 [u [Hmk H]]].
  apply mbind_ok in H as [t4 [u' [Hw H]]]. unfold ret in H. injection H as <- <-.
  destruct (page_path_spec cwd _ _ _ _ _ Hp Hpp) as [G1 [d [stem [Hfp0 [Hstem Hd]]]]].
  subst fp0.
  destruct (free_name_spec cwd t1 (S (length t1)) (join_one d (stem ++ ".md"))
              (join_one d (stem ++ ".md")) fp 1 Hfn) as [Hex Hcand].
  assert (Hf : exists f, fp = join_one d f /\
                 f <> "" /\ Str.has "/" f = false /\ f <> "." /\ f <> "..").
  { destruct Hcand as [->|[n ->]].
    - exists (stem ++ ".md"). split; [reflexivity|]. exact (md_name stem Hstem).
    - exists (stem ++ "_" ++ py_str_nat n ++ ".md").
      rewrite candidate_join by exact Hstem. split; [reflexivity|].
      replace (stem ++ "_" ++ py_str_nat n ++ ".md")
        with ((stem ++ "_" ++ py_str_nat n) ++ ".md") by (now rewrite <- !append_assoc).
      apply md_name. rewrite !has_app, Hstem, has_py_str_nat. reflexivity. }
  destruct Hf as [f [Hfp [Hf1 [Hf2 [Hf3 Hf4]]]]].
  destruct (join_one_shape d f Hf1 Hf2) as [_ [_ [Hne Hend]]].
  rewrite <- Hfp in Hne, Hend.
  assert (G3 := makedirs_dgrow cwd _ _ _ _ _ Hmk).
  destruct (write_file_ok _ _ _ _ _ Hw) as [k [Hk [Hkd ->]]].
  rewrite (resolve_plain cwd t3 fp Hne Hend) in Hk.
  destruct (join_one_walk cwd t1 d f Hf1 Hf2 Hf3 Hf4 Hd) as [Hw1|[k1 Hw1]];
    rewrite <- Hfp in Hw1.
  - rewrite (walk_from_grows cwd t1 t3 fp _ (proj1 G3) Hw1 ltac:(discriminate)) in Hk.
    discriminate.
  - rewrite (walk_from_grows cwd t1 t3 fp _ (proj1 G3) Hw1 ltac:(discriminate)) in Hk.
    injection Hk as <-.
    assert (L1 : lookup t1 k1 = None).
    { unfold path_exists in Hex. rewrite (resolve_plain cwd t1 fp Hne Hend), Hw1 in Hex.
      destruct (lookup t1 k1); [discriminate | reflexivity]. }
    assert (L3 : lookup t3 k1 = None)
      by (destruct (proj2 G3 k1 L1) as [L|L]; [exact L | contradiction]).
    assert (G4 : grows t3 ((k1, File (page_text r)) :: t3)) by (now apply grows_fresh).
    split; [exact (grows_trans _ _ _ (proj1 G1) (grows_trans _ _ _ (proj1 G3) G4))|].
    exists [k1]. split; [|split].
    + simpl. rewrite (resolve_plain cwd _ fp Hne Hend).
      rewrite (walk_from_grows cwd t1 _ fp _ (grows_trans _ _ _ (proj1 G3) G4) Hw1
                 ltac:(discriminate)).
      reflexivity.
    + constructor; [intros []|constructor].
    + intros k [<-|[]]. split.
      * exact (grows_none _ _ _ (proj1 G1) L1).
      * exists (page_text r). now apply lookup_fresh_same.
Qed.

Lemma save_pages_spec (pages_dir : string) (rs : list PageResult) (t t' : fs) (s : list string) :
  present cwd t pages_dir ->
  save_pages cwd page_text pages_dir rs t = (t', ROk s) ->
  grows t t' /\
  exists ks, map (resolve cwd t') s = map ROk ks /\ NoDup ks /\
    (forall k, In k ks -> lookup t k = None /\ exists x, lookup t' k = Some (File x)).
Proof.
  revert t t' s. induction rs as [|r rs IH]; intros t t' s Hp.
  - simpl. unfold ret. intros H. injection H as <- <-. split; [apply grows_refl|].
    exists []. split; [reflexivity|]. split; [constructor | intros k []].
  - cbn [save_pages]. intros H.
    apply mbind_ok in H as [t1 [s1 [H1 H]]].
    apply mbind_ok in H as [t2 [s2 [H2 H]]]. unfold ret in H. injection H as <- <-.
    destruct (save_page_spec _ _ _ _ _ Hp H1) as [G1 [ks1 [M1 [N1 K1]]]].
    destruct (IH _ _ _ (present_grows cwd _ _ _ G1 Hp) H2) as [G2 [ks2 [M2 [N2 K2]]]].
    split; [exact (grows_trans _ _ _ G1 G2)|].
    exists (ks1 ++ ks2)%list. split; [|split].
    + rewrite !map_app, M2. f_equal.
      apply (map_resolve_grows t1); [exact G2 | | exact M1].
      intros k Hk. exact (proj2 (K1 k Hk)).
    + apply NoDup_app; [exact N1 | exact N2|].
      intros k Hk1 Hk2. destruct (K1 k Hk1) as [_ [x Hx]].
      destruct (K2 k Hk2) as [Hn _]. congruence.
    + intros k Hk. apply in_app_or in Hk as [Hk|Hk].
      * destruct (K1 k Hk) as [Hn [x Hx]]. split; [exact Hn|]. exists x. now apply G2.
      * destruct (K2 k Hk) as [Hn Hx]. split; [|exact Hx].
        exact (grows_none _ _ _ G1 Hn).
Qed.

End WithText2.

End SaveFilesProof.

(** [_save_to_separate_files] overwrites nothing: every node of the file
    system it starts from is still there with the same content, and the
    paths it saves name distinct regular files that did not exist before. *)
Theorem save_to_separate_files_no_overwrite (cwd : Os.key) (page_text : PageResult -> string)
    (results : list PageResult) (output_dir : string) (t0 t' : Os.fs) (saved : list string) :
  SaveFiles.save_to_separate_files cwd page_text results output_dir t0 = (t', Os.ROk saved) ->
  (forall k n, Os.lookup t0 k = Some n -> Os.lookup t' k = Some n) /\
  exists ks, map (Os.resolve cwd t') saved = map Os.ROk ks /\ NoDup ks /\
    (forall k, In k ks ->
       Os.lookup t0 k = None /\ exists text, Os.lookup t' k = Some (Os.File text)).
Proof.
  unfold SaveFiles.save_to_separate_files. intros H.
  apply SaveFilesProof.mbind_ok in H as [t1 [u1 [H1 H]]].
  apply SaveFilesProof.mbind_ok in H as [t2 [u2 [H2 H]]].
  assert (Hp := SaveFilesProof.makedirs_present cwd _ _ _ _ _ H2
                  ltac:(left; now destruct u2)).
  destruct (SaveFilesProof.save_pages_spec cwd page_text _ _ _ _ _ Hp H)
    as [G [ks [Mk [Nk Kk]]]].
  assert (G02 : Os.grows t0 t2)
    by exact (SaveFilesProof.grows_trans _ _ _
                (proj1 (SaveFilesProof.makedirs_dgrow cwd _ _ _ _ _ H1))
                (proj1 (SaveFilesProof.makedirs_dgrow cwd _ _ _ _ _ H2))).
  split; [exact (SaveFilesProof.grows_trans _ _ _ G02 G)|].
  exists ks. split; [exact Mk|]. split; [exact Nk|].
  intros k Hk. destruct (Kk k Hk) as [Hn Hx]. split; [|exact Hx].
  exact (SaveFilesProof.grows_none _ _ _ G02 Hn).
Qed.

Lemma save_to_separate_files_no_overwrite_witness :
  save_run = (fst save_run,
              Os.ROk ["out/pages/a_1.md"; "out/pages/a_2.md"; "out/pages/index.md"]) /\
  (forall k n, Os.lookup save_fs0 k = Some n -> Os.lookup (fst save_run) k = Some n) /\
  exists ks,
    map (Os.resolve [] (fst save_run))
        ["out/pages/a_1.md"; "out/pages/a_2.md"; "out/pages/index.md"] = map Os.ROk ks /\
    NoDup ks /\
    (forall k, In k ks ->
       Os.lookup save_fs0 k = None /\ exists text, Os.lookup (fst save_run) k = Some (Os.File text)).
Proof.
  split; [vm_compute; reflexivity|].
  apply (save_to_separate_files_no_overwrite [] r_url save_results "out" save_fs0 (fst save_run)
           ["out/pages/a_1.md"; "out/pages/a_2.md"; "out/pages/index.md"]).
  vm_compute. reflexivity.
Defined.

(* ------------------------------------------------------------------ *)
(** ** [_save_to_separate_files] always ends *)

Module SaveFilesEnd.
Import Os SaveFiles SaveFilesProof.

Lemma py_str_nat_inj (m n : nat) : py_str_nat m = py_str_nat n -> m = n.
Proof.
  unfold py_str_nat. intros H.
  assert (E : NilEmpty.uint_of_string (NilEmpty.string_of_uint (Nat.to_uint m)) =
              NilEmpty.uint_of_string (NilEmpty.string_of_uint (Nat.to_uint n))) by now rewrite H.
  rewrite !NilEmpty.usu in E. injection E as E. now apply Unsigned.to_uint_inj.
Qed.

Lemma append_cancel_l (x a b : string) : x ++ a = x ++ b -> a = b.
Proof. induction x as [|c x IH]; simpl; [auto | intros H; injection H; auto]. Qed.

Lemma path_split_length (p h tl : string) :
  path_split p = (h, tl) ->
  String.length h <= String.length p /\ (tl <> "" -> String.length h < String.length p).
Proof.
  unfold path_split. intros Hs.
  destruct (Str.rfind "/" p) as [j|] eqn:R.
  - destruct (rfind_some _ _ _ R) as [x [y [Hp [Ht [Hd Hy]]]]].
    rewrite Ht, Hd in Hs. injection Hs as Hh Htl. subst tl.
    assert (L0 : String.length h <= String.length (x ++ String "/" "")).
    { destruct (negb (String.eqb (x ++ String "/" "") "") &&
                negb (Str.all (fun c => Ascii.eqb c "/") (x ++ String "/" ""))); subst h; [|lia].
      destruct (rstrip_spec "/" (x ++ String "/" "")) as [w [Hw _]].
      rewrite Hw at 2. rewrite str_length_app. lia. }
    rewrite Hp, str_length_app. rewrite str_length_app in L0. simpl in L0 |- *.
    split; [lia|]. intros Hy0. destruct y; [contradiction|]. simpl. lia.
  - replace (Str.take 0 p) with "" in Hs by (destruct p; reflexivity).
    injection Hs as <- Htl. subst tl. simpl. split; [lia|]. intros H.
    rewrite drop_0 in H. destruct p; [contradiction|]. simpl. lia.
Qed.

Lemma makedirs_split_length (name head tail : string) :
  makedirs_split name = (head, tail) -> tail <> "" -> String.length head < String.length name.
Proof.
  unfold makedirs_split. destruct (path_split name) as [h tl] eqn:Hs.
  destruct (String.eqb tl "") eqn:E.
  - intros Hs2 Ht. apply path_split_length in Hs as [L1 _].
    apply path_split_length in Hs2 as [_ L2]. specialize (L2 Ht). lia.
  - intros H Ht. injection H as -> ->. apply path_split_length in Hs as [_ L]. now apply L.
Qed.

Section Ends.

Variable cwd : key.
Variable page_text : PageResult -> string.

Lemma resolve_not_out (t : fs) (p : string) : resolve cwd t p <> ROut.
Proof.
  unfold resolve. destruct (String.eqb p ""); [discriminate|].
  destruct (walk_from cwd t p) as [k|e|] eqn:W.
  - destruct (lookup t k) as [[|x]|]; try discriminate. destruct (Str.endswith "/" p); discriminate.
  - discriminate.
  - exfalso. exact (walk_not_out _ _ _ W).
Qed.

Lemma mkdir_exist_ok_not_out (p : string) (t t' : fs) (r : res unit) :
  mkdir_exist_ok cwd p t = (t', r) -> r <> ROut.
Proof.
  unfold mkdir_exist_ok, mkdir. destruct (resolve cwd t p) as [k|e|] eqn:R.
  - destruct (lookup t k).
    + destruct (isdir cwd t p); intros H; injection H as _ <-; discriminate.
    + intros H; injection H as _ <-; discriminate.
  - destruct (isdir cwd t p); intros H; injection H as _ <-; discriminate.
  - exfalso. exact (resolve_not_out _ _ R).
Qed.

Lemma makedirs_not_out (fuel : nat) (name : string) (t t' : fs) (r : res unit) :
  String.length name < fuel -> makedirs cwd fuel name t = (t', r) -> r <> ROut.
Proof.
  revert name t t' r. induction fuel as [|f IH]; intros name t t' r Hf; [lia|].
  cbn [makedirs]. destruct (makedirs_split name) as [head tail] eqn:Hsp.
  destruct (negb (String.eqb head "") && negb (String.eqb tail "") &&
            negb (path_exists cwd t head)) eqn:C.
  - apply andb_prop in C as [C _]. apply andb_prop in C as [_ C].
    apply negb_true_iff, String.eqb_neq in C.
    assert (Lh := makedirs_split_length name head tail Hsp C).
    destruct (makedirs cwd f head t) as [t1 r1] eqn:Hr.
    assert (N1 : r1 <> ROut) by (apply (IH head t t1 r1); [lia | exact Hr]).
    destruct r1 as [u|[]|]; try (intros H; injection H as _ <-; discriminate);
      try (destruct (String.eqb tail "."); [intros H; injection H as _ <-; discriminate|];
           apply mkdir_exist_ok_not_out).
    contradiction.
  - apply mkdir_exist_ok_not_out.
Qed.

(** The names the loop looks at: [fp], then [base_c.md], [base_(c+1).md], ... *)
Lemma free_name_out (t : fs) (fuel : nat) (original fp : string) (c : nat) :
  free_name cwd t fuel original fp c = ROut ->
  forall i, i < fuel ->
    path_exists cwd t (match i with
                       | O => fp
                       | S i' => rsplit_head ".md" original ++ "_" ++ py_str_nat (c + i') ++ ".md"
                       end) = true.
Proof.
  revert fp c. induction fuel as [|f IH]; intros fp c H i Hi; [lia|].
  simpl in H. destruct (path_exists cwd t fp) eqn:E; [|discriminate].
  destruct i as [|i]; [exact E|].
  specialize (IH _ _ H i ltac:(lia)).
  destruct i as [|i]; [now rewrite Nat.add_0_r|].
  now replace (c + S i) with (S c + i) by lia.
Qed.

Lemma exists_join_key (t : fs) (d f : string) :
  f <> "" -> Str.has "/" f = false -> f <> "." -> f <> ".." ->
  path_exists cwd t (join_one d f) = true ->
  exists k0, walk_from cwd t d = ROk k0 /\ In (k0 ++ [f])%list (map fst t).
Proof.
  intros Hf Hh H1 H2 He. destruct (join_one_shape d f Hf Hh) as [Hc [Hs [Hne Hend]]].
  unfold path_exists in He. rewrite (resolve_plain cwd t _ Hne Hend) in He.
  unfold walk_from in He at 1. rewrite Hc, Hs, walk_app in He.
  unfold walk_from. destruct (walk t _ (comps d)) as [k0|e|]; try discriminate.
  exists k0. split; [reflexivity|].
  rewrite walk_one in He. destruct (lookup t k0) as [[|x]|]; try discriminate.
  rewrite step_plain in He by assumption.
  destruct (lookup t (k0 ++ [f])%list) as [n|] eqn:L; [|discriminate].
  unfold lookup in L. destruct (k0 ++ [f])%list as [|a l] eqn:Ek;
    [destruct k0; discriminate|].
  destruct (find (fun e => key_eqb (fst e) (a :: l)) t) as [[k1 n1]|] eqn:F; [|discriminate].
  apply find_some in F as [Fin Feq]. simpl in Feq. apply key_eqb_true in Feq. subst k1.
  apply in_map_iff. exists (a :: l, n1). split; [reflexivity | exact Fin].
Qed.

Lemma nodup_map_seq (g : nat -> key) (a n : nat) :
  (forall i j, g i = g j -> i = j) -> NoDup (map g (seq a n)).
Proof.
  intros Hg. revert a. induction n as [|n IH]; intros a; simpl; constructor; [|apply IH].
  intros Hin. apply in_map_iff in Hin as [j [Ej Hj]]. apply in_seq in Hj.
  apply Hg in Ej. lia.
Qed.

(** The loop [while os.path.exists(file_path)] stops after at most as many
    tries as the file system has entries, plus one. *)
Lemma free_name_not_out (t : fs) (d stem : string) :
  Str.has "/" stem = false ->
  free_name cwd t (S (length t)) (join_one d (stem ++ ".md")) (join_one d (stem ++ ".md")) 1
  <> ROut.
Proof.
  intros Hstem Hout.
  set (fname := fun i => match i with
                         | O => stem ++ ".md"
                         | S i' => stem ++ "_" ++ py_str_nat (1 + i') ++ ".md"
                         end).
  assert (Hplain : forall i, fname i <> "" /\ Str.has "/" (fname i) = false /\
                             fname i <> "." /\ fname i <> "..").
  { intros [|i]; unfold fname; cbv beta iota; [exact (md_name stem Hstem)|].
    replace (stem ++ "_" ++ py_str_nat (1 + i) ++ ".md")
      with ((stem ++ "_" ++ py_str_nat (1 + i)) ++ ".md") by (now rewrite <- !append_assoc).
    apply md_name. rewrite !has_app, Hstem, has_py_str_nat. reflexivity. }
  assert (Hex : forall i, i < S (length t) -> path_exists cwd t (join_one d (fname i)) = true).
  { intros i Hi. assert (H := free_name_out _ _ _ _ _ Hout i Hi).
    destruct i as [|i]; [exact H|]. unfold fname; cbv beta iota.
    rewrite <- candidate_join by exact Hstem. exact H. }
  destruct (Hplain 0) as [P1 [P2 [P3 P4]]].
  destruct (exists_join_key t d (fname 0) P1 P2 P3 P4 (Hex 0 ltac:(lia))) as [k0 [Hk0 _]].
  assert (Hin : forall i, In i (seq 0 (S (length t))) -> In (k0 ++ [fname i])%list (map fst t)).
  { intros i Hi. apply in_seq in Hi. destruct (Hplain i) as [Q1 [Q2 [Q3 Q4]]].
    destruct (exists_join_key t d (fname i) Q1 Q2 Q3 Q4 (Hex i ltac:(lia))) as [k1 [Hk1 Hin]].
    rewrite Hk0 in Hk1. injection Hk1 as <-. exact Hin. }
  assert (Hinj : forall i j, (k0 ++ [fname i])%list = (k0 ++ [fname j])%list -> i = j).
  { intros i j E. apply app_inv_head in E. injection E as E.
    assert (E' : rsplit_head ".md" (fname i) = rsplit_head ".md" (fname j)) by now rewrite E.
    destruct i as [|i], j as [|j]; unfold fname in E'; cbv beta iota in E'; [reflexivity| | |].
    - replace (stem ++ "_" ++ py_str_nat (1 + j) ++ ".md")
        with ((stem ++ "_" ++ py_str_nat (1 + j)) ++ ".md") in E' by (now rewrite <- !append_assoc).
      rewrite !rsplit_head_md in E'.
      assert (L := f_equal String.length E'). rewrite !str_length_app in L. simpl in L. lia.
    - replace (stem ++ "_" ++ py_str_nat (1 + i) ++ ".md")
        with ((stem ++ "_" ++ py_str_nat (1 + i)) ++ ".md") in E' by (now rewrite <- !append_assoc).
      rewrite !rsplit_head_md in E'.
      assert (L := f_equal String.length E'). rewrite !str_length_app in L. simpl in L. lia.
    - replace (stem ++ "_" ++ py_str_nat (1 + i) ++ ".md")
        with ((stem ++ "_" ++ py_str_nat (1 + i)) ++ ".md") in E' by (now rewrite <- !append_assoc).
      replace (stem ++ "_" ++ py_str_nat (1 + j) ++ ".md")
        with ((stem ++ "_" ++ py_str_nat (1 + j)) ++ ".md") in E' by (now rewrite <- !append_assoc).
      rewrite !rsplit_head_md in E'. apply append_cancel_l in E'. simpl in E'.
      injection E' as E'. apply py_str_nat_inj in E'. lia. }
  assert (Hle := NoDup_incl_length
                   (nodup_map_seq (fun i => (k0 ++ [fname i])%list) 0 (S (length t)) Hinj)
                   (fun k Hk => match proj1 (in_map_iff _ _ _) Hk with
                                | ex_intro _ i (conj Ei Hi) => eq_ind _ (fun k => In k (map fst t)) (Hin i Hi) _ Ei
                                end)).
  rewrite !length_map, length_seq in Hle. lia.
Qed.

Lemma write_file_not_out (p text : string) (t t' : fs) (r : res unit) :
  write_file cwd p text t = (t', r) -> r <> ROut.
Proof.
  unfold write_file. destruct (resolve cwd t p) as [k|e|] eqn:R.
  - destruct (lookup t k) as [[|x]|]; try (destruct (Str.endswith "/" p));
      intros H; injection H as _ <-; discriminate.
  - intros H; injection H as _ <-; discriminate.
  - exfalso. exact (resolve_not_out _ _ R).
Qed.

Lemma page_path_not_out (pages_dir url_path : string) (t t1 : fs) (r : res string) :
  page_path cwd pages_dir url_path t = (t1, r) -> r <> ROut.
Proof.
  unfold page_path. destruct (String.eqb (strip_slash url_path) "").
  - unfold ret. intros H; injection H as _ <-; discriminate.
  - cbv zeta.
    destruct (if negb (Str.has "." (last (Str2.split_on "/" (strip_slash url_path)) "")) || _
              then _ else _) as [dir_path filename].
    unfold mbind. destruct (String.eqb dir_path pages_dir).
    + unfold ret. intros H; injection H as _ <-; discriminate.
    + destruct (makedirs cwd (S (String.length dir_path)) dir_path t) as [t2 r2] eqn:Hm.
      assert (N := makedirs_not_out _ _ _ _ _ (Nat.lt_succ_diag_r _) Hm).
      destruct r2 as [u|e|]; [unfold ret | |]; intros H; injection H as _ <-; try discriminate.
      contradiction.
Qed.

Lemma save_page_not_out (pages_dir : string) (rr : PageResult) (t t' : fs) (r : res (list string)) :
  present cwd t pages_dir ->
  save_page cwd page_text pages_dir rr t = (t', r) -> r <> ROut.
Proof.
  intros Hp. unfold save_page.
  destruct (truthy (r_content rr) && negb (truthy (r_error rr))).
  2: { unfold ret. intros H; injection H as _ <-; discriminate. }
  destruct (urlparse (r_url rr)) as [pr|]; [|intros H; injection H as _ <-; discriminate].
  unfold mbind at 1. destruct (page_path cwd pages_dir (path pr) t) as [t1 r1] eqn:Hpp.
  destruct r1 as [fp0|e|].
  2: { intros H; injection H as _ <-; discriminate. }
  2: { exfalso. exact (page_path_not_out _ _ _ _ _ Hpp eq_refl). }
  destruct (page_path_spec cwd _ _ _ _ _ Hp Hpp) as [_ [d [stem [-> [Hstem _]]]]].
  unfold mbind at 1.
  destruct (free_name cwd t1 (S (length t1)) (join_one d (stem ++ ".md"))
              (join_one d (stem ++ ".md")) 1) as [fp|e|] eqn:Hfn.
  2: { intros H; injection H as _ <-; discriminate. }
  2: { exfalso. exact (free_name_not_out t1 d stem Hstem Hfn). }
  unfold mbind at 1.
  destruct (makedirs cwd (S (String.length (dirname fp))) (dirname fp) t1) as [t3 r3] eqn:Hm.
  assert (N3 := makedirs_not_out _ _ _ _ _ (Nat.lt_succ_diag_r _) Hm).
  destruct r3 as [u|e|]; [| intros H; injection H as _ <-; discriminate | contradiction].
  unfold mbind. destruct (write_file cwd fp (page_text rr) t3) as [t4 r4] eqn:Hw.
  assert (N4 := write_file_not_out _ _ _ _ _ Hw).
  destruct r4 as [u'|e|]; [unfold ret | |]; intros H; injection H as _ <-; try discriminate.
  contradiction.
Qed.

Lemma save_pages_not_out (pages_dir : string) (rs : list PageResult) (t t' : fs)
    (r : res (list string)) :
  present cwd t pages_dir ->
  save_pages cwd page_text pages_dir rs t = (t', r) -> r <> ROut.
Proof.
  revert t t' r. induction rs as [|rr rs IH]; intros t t' r Hp.
  - simpl. unfold ret. intros H; injection H as _ <-; discriminate.
  - cbn [save_pages]. unfold mbind at 1.
    destruct (save_page cwd page_text pages_dir rr t) as [t1 r1] eqn:H1.
    assert (N1 := save_page_not_out _ _ _ _ _ Hp H1).
    destruct r1 as [s1|e|]; [| intros H; injection H as _ <-; discriminate | contradiction].
    destruct (save_page_spec cwd page_text _ _ _ _ _ Hp H1) as [G1 _].
    unfold mbind. destruct (save_pages cwd page_text pages_dir rs t1) as [t2 r2] eqn:H2.
    assert (N2 := IH _ _ _ (present_grows cwd _ _ _ G1 Hp) H2).
    destruct r2 as [s2|e|]; [unfold ret | |]; intros H; injection H as _ <-; try discriminate.
    contradiction.
Qed.

End Ends.

End SaveFilesEnd.

(** [_save_to_separate_files] always ends, returning or raising: the
    recursion of [os.makedirs] is on shorter paths, and the loop that looks
    for a free file name stops after at most one more try than the file
    system has entries. *)
Theorem save_to_separate_files_ends (cwd : Os.key) (page_text : PageResult -> string)
    (results : list PageResult) (output_dir : string) (t0 : Os.fs) :
  snd (SaveFiles.save_to_separate_files cwd page_text results output_dir t0) <> Os.ROut.
Proof.
  unfold SaveFiles.save_to_separate_files, Os.mbind at 1.
  destruct (Os.makedirs cwd (S (String.length output_dir)) output_dir t0) as [t1 r1] eqn:H1.
  assert (N1 := SaveFilesEnd.makedirs_not_out cwd _ _ _ _ _ (Nat.lt_succ_diag_r _) H1).
  destruct r1 as [u1|e|]; [| simpl; discriminate | contradiction].
  unfold Os.mbind.
  destruct (Os.makedirs cwd (S (String.length (Os.path_join output_dir ["pages"])))
              (Os.path_join output_dir ["pages"]) t1) as [t2 r2] eqn:H2.
  assert (N2 := SaveFilesEnd.makedirs_not_out cwd _ _ _ _ _ (Nat.lt_succ_diag_r _) H2).
  destruct r2 as [u2|e|]; [| simpl; discriminate | contradiction].
  assert (Hp := SaveFilesProof.makedirs_present cwd _ _ _ _ _ H2 ltac:(left; now destruct u2)).
  destruct (SaveFiles.save_pages cwd page_text (Os.path_join output_dir ["pages"]) results t2)
    as [t3 r3] eqn:H3.
  exact (SaveFilesEnd.save_pages_not_out cwd page_text _ _ _ _ _ Hp H3).
Qed.
